(** * JarvisEvo: the Lightroom reverse-connection task broker and its worker

    A shallow embedding of
      - [lrc_scripts/servers/lrc_task_server.py]: the in-memory job store,
        its state machine and the background sweep, and
      - [lrc_scripts/clients/lr_task_client.py]: the worker's timeout
        estimator [calculate_processing_timeout].

    Modelling conventions.
      - Python [float] values (timestamps, durations) are rationals [Q]:
        every finite float is a rational and the order on finite floats is
        the order on [Q].  Rounding of float subtraction and addition is not
        modelled.
      - [tasks] and [completed_tasks] are Python dicts, whose iteration
        order is insertion order and is observed by the FIFO scan; they are
        insertion-ordered association lists ([PyDict]).  The [clients] dict
        is only ever looked up, updated and filtered, so it is a [gmap].
      - The server runs on one asyncio event loop.  No [task_lock] block
        contains an [await], so the lock is free whenever a coroutine is
        scheduled, acquiring it never suspends, and each handler that
        touches the store runs from its first line to its reply without
        interruption.  A handler is therefore a function from the store to
        a response and a new store, and an interleaving of requests is a
        list of such steps.  [upload_result] does await its file work
        between testing [completed_tasks] and updating the record; nothing
        ever removes a key from [completed_tasks], so it is a single step
        as well, with the outcome of the file work as an argument.
      - [time.time()] readings are arguments of the handlers. *)

From Stdlib Require Import QArith Lqa.
From stdpp Require Import base option list strings pretty gmap fin_maps.

Local Open Scope Q_scope.
Local Open Scope string_scope.
Local Open Scope list_scope.

(** ** Python float comparisons on [Q] *)

Definition Qltb (x y : Q) : bool := negb (Qle_bool y x).
Definition Qgtb (x y : Q) : bool := Qltb y x.

(** Python's [min(a, b)]: [b] when [b < a], otherwise [a]. *)
Definition py_min (a b : Q) : Q := if Qltb b a then b else a.

(** Truthiness of an [Optional[float]]: [None] and [0.0] are falsy. *)
Definition float_truthy (o : option Q) : bool :=
  match o with
  | Some t => negb (Qeq_bool t 0)
  | None => false
  end.

(** ** Insertion-ordered dictionaries with string keys *)

Module PyDict.
Abbreviation t V := (list (string * V)) (only parsing).
Section Dict.
Context {V : Type}.
Implicit Type d : t V.

Definition keys (d : t V) : list string := d.*1.
Definition values (d : t V) : list V := d.*2.

(** [d.get(k)] *)
Fixpoint get (k : string) (d : t V) : option V :=
  match d with
  | [] => None
  | (k', v) :: rest => if String.eqb k k' then Some v else get k rest
  end.

(** [k in d] *)
Definition contains (k : string) (d : t V) : bool :=
  match get k d with Some _ => true | None => false end.

(** [d[k] = v]: an existing key keeps its position, a new key goes last. *)
Fixpoint set (k : string) (v : V) (d : t V) : t V :=
  match d with
  | [] => [(k, v)]
  | (k', v') :: rest =>
      if String.eqb k k' then (k', v) :: rest else (k', v') :: set k v rest
  end.

(** [del d[k]] (the caller has checked [k in d]). *)
Fixpoint del (k : string) (d : t V) : t V :=
  match d with
  | [] => []
  | (k', v') :: rest =>
      if String.eqb k k' then rest else (k', v') :: del k rest
  end.

(** In-place mutation of the object stored under [k]:
    [obj = d[k]; obj.field = ...]. *)
Fixpoint modify (k : string) (f : V -> V) (d : t V) : t V :=
  match d with
  | [] => []
  | (k', v') :: rest =>
      if String.eqb k k' then (k', f v') :: rest
      else (k', v') :: modify k f rest
  end.

(** In-place mutation of the object met at position [i] of [d.values()]. *)
Definition modify_at (i : nat) (f : V -> V) (d : t V) : t V :=
  alter (prod_map id f) i d.

(** Keys of a Python dict are pairwise distinct. *)
Definition wf (d : t V) : Prop := NoDup (keys d).

End Dict.
End PyDict.

(** ** Data model of the server *)

Inductive TaskStatus : Type :=
  | PENDING | READING | PROCESSING | COMPLETED | FAILED.

Definition TaskStatus_eqb (a b : TaskStatus) : bool :=
  match a, b with
  | PENDING, PENDING | READING, READING | PROCESSING, PROCESSING
  | COMPLETED, COMPLETED | FAILED, FAILED => true
  | _, _ => false
  end.

(** Values of [Dict[str, Any]] payloads. *)
#[warnings="-register-all"]
Inductive PyVal : Type :=
  | VNone
  | VBool (b : bool)
  | VInt (n : Z)
  | VFloat (q : Q)
  | VStr (s : string)
  | VDict (d : list (string * PyVal)).

Definition opt_str (o : option string) : PyVal :=
  match o with Some s => VStr s | None => VNone end.

Definition opt_dict (o : option (PyDict.t PyVal)) : PyVal :=
  match o with Some d => VDict d | None => VNone end.

Record Task : Type := mkTask {
  task_id : string;
  photo_path : string;
  xmp_path : string;
  created_at : Q;
  status : TaskStatus;
  client_id : option string;
  read_at : option Q;
  read_timeout : Q;
  result : option (PyDict.t PyVal);
  file_package_path : option string;
  requires_download : bool
}.

Record TaskResult : Type := mkTaskResult {
  r_task_id : string;
  r_client_id : string;
  r_success : bool;
  r_elapsed_time : Q;
  r_error : option string;
  r_result_data : option (PyDict.t PyVal)
}.

Record ClientInfo : Type := mkClientInfo {
  c_client_id : string;
  c_client_type : string;
  c_capabilities : list string;
  c_status : string;
  c_last_seen : Q;
  c_local_port : Z
}.

(** The three module-level dictionaries. *)
Record Store : Type := mkStore {
  tasks : PyDict.t Task;
  clients : gmap string ClientInfo;
  completed_tasks : PyDict.t Task
}.

(** Field updates of a [Task] object. *)
Definition set_status (s : TaskStatus) (t : Task) : Task :=
  mkTask (task_id t) (photo_path t) (xmp_path t) (created_at t) s
         (client_id t) (read_at t) (read_timeout t) (result t)
         (file_package_path t) (requires_download t).

Definition set_client_id (c : option string) (t : Task) : Task :=
  mkTask (task_id t) (photo_path t) (xmp_path t) (created_at t) (status t)
         c (read_at t) (read_timeout t) (result t)
         (file_package_path t) (requires_download t).

Definition set_read_at (r : option Q) (t : Task) : Task :=
  mkTask (task_id t) (photo_path t) (xmp_path t) (created_at t) (status t)
         (client_id t) r (read_timeout t) (result t)
         (file_package_path t) (requires_download t).

Definition set_result (r : option (PyDict.t PyVal)) (t : Task) : Task :=
  mkTask (task_id t) (photo_path t) (xmp_path t) (created_at t) (status t)
         (client_id t) (read_at t) (read_timeout t) r
         (file_package_path t) (requires_download t).

Definition set_last_seen (now : Q) (c : ClientInfo) : ClientInfo :=
  mkClientInfo (c_client_id c) (c_client_type c) (c_capabilities c)
               (c_status c) now (c_local_port c).

(** What a handler produces: a body with status 200, or an [HTTPException]. *)
Inductive Response (A : Type) : Type :=
  | Ok200 (body : A)
  | HTTPException (status_code : Z) (detail : string).
Arguments Ok200 {A} body.
Arguments HTTPException {A} status_code detail.

(** ** [get_task]: claiming the earliest pending task *)

(** The dictionary sent back to the client: a fresh dict of field values,
    built after the task object has been updated. *)
Record TaskView : Type := mkTaskView {
  v_task_id : string;
  v_photo_path : string;
  v_xmp_path : string;
  v_created_at : Q;
  v_requires_download : bool;
  v_file_package_path : option string;
  v_read_timeout : Q
}.

Definition view_of (t : Task) : TaskView :=
  mkTaskView (task_id t) (photo_path t) (xmp_path t) (created_at t)
             (requires_download t) (file_package_path t) (read_timeout t).

Definition is_pending (t : Task) : bool := TaskStatus_eqb (status t) PENDING.

(** [task.created_at < earliest_time], where [None] is [float('inf')]. *)
Definition before_earliest (x : Q) (earliest : option Q) : bool :=
  match earliest with
  | None => true
  | Some e => Qltb x e
  end.

(** The loop variables [available_task] (with the position at which the
    object was met) and [earliest_time]. *)
Definition scan_state : Type := option (nat * Task) * option Q.

(** One iteration of [for task in tasks.values()], at position [i]. *)
Definition scan_step (i : nat) (task : Task) (s : scan_state) : scan_state :=
  if is_pending task && before_earliest (created_at task) s.2
  then (Some (i, task), Some (created_at task))
  else s.

Fixpoint scan_tasks (vals : list Task) (i : nat) (s : scan_state) : scan_state :=
  match vals with
  | [] => s
  | task :: rest => scan_tasks rest (S i) (scan_step i task s)
  end.

Definition find_available (d : PyDict.t Task) : option (nat * Task) :=
  (scan_tasks (PyDict.values d) 0 (None, None)).1.

(** The three assignments [pending -> reading]. *)
Definition claim_task (cid : string) (now : Q) (t : Task) : Task :=
  set_read_at (Some now) (set_client_id (Some cid) (set_status READING t)).

Definition set_tasks (d : PyDict.t Task) (st : Store) : Store :=
  mkStore d (clients st) (completed_tasks st).

Definition set_clients (c : gmap string ClientInfo) (st : Store) : Store :=
  mkStore (tasks st) c (completed_tasks st).

Definition set_completed (d : PyDict.t Task) (st : Store) : Store :=
  mkStore (tasks st) (clients st) d.

(** The block under [task_lock].  [t_seen] and [t_read] are the two
    [time.time()] readings.  [clients[client_id]] raises [KeyError] when the
    entry is gone, which the framework turns into a 500. *)
Definition get_task_locked (cid : string) (t_seen t_read : Q) (st : Store)
    : Response (option TaskView) * Store :=
  match clients st !! cid with
  | None => (HTTPException 500 "Internal Server Error", st)
  | Some info =>
      let st1 := set_clients (<[cid := set_last_seen t_seen info]> (clients st)) st in
      match find_available (tasks st1) with
      | None => (Ok200 None, st1)
      | Some (i, task) =>
          let claimed := claim_task cid t_read task in
          (Ok200 (Some (view_of claimed)),
           set_tasks (PyDict.modify_at i (claim_task cid t_read) (tasks st1)) st1)
      end
  end.

Definition get_task (cid : string) (t_seen t_read : Q) (st : Store)
    : Response (option TaskView) * Store :=
  match clients st !! cid with
  | None => (HTTPException 403 "Client not registered, please register first", st)
  | Some _ => get_task_locked cid t_seen t_read st
  end.

(** ** [start_processing] and [report_result] *)

(** [task.client_id != request.client_id] is false only for an equal string. *)
Definition owned_by (t : Task) (cid : string) : bool :=
  match client_id t with
  | Some c => String.eqb c cid
  | None => false
  end.

(** The string values of the enumeration.  How [{task.status}] is rendered
    in the 400 message depends on the Python version; the value is used. *)
Definition status_value (s : TaskStatus) : string :=
  match s with
  | PENDING => "pending" | READING => "reading" | PROCESSING => "processing"
  | COMPLETED => "completed" | FAILED => "failed"
  end.

Definition start_processing (tid cid : string) (st : Store)
    : Response string * Store :=
  match PyDict.get tid (tasks st) with
  | None => (HTTPException 404 "Task does not exist", st)
  | Some task =>
      if negb (owned_by task cid)
      then (HTTPException 403 "Task does not belong to this client", st)
      else if negb (TaskStatus_eqb (status task) READING)
      then (HTTPException 400 ("Task status error: " +:+ status_value (status task)), st)
      else (Ok200 tid,
            set_tasks (PyDict.modify tid (set_status PROCESSING) (tasks st)) st)
  end.

Definition result_record (r : TaskResult) (now : Q) : PyDict.t PyVal :=
  [ ("success", VBool (r_success r));
    ("elapsed_time", VFloat (r_elapsed_time r));
    ("error", opt_str (r_error r));
    ("result_data", opt_dict (r_result_data r));
    ("completed_at", VFloat now) ].

Definition finish_task (r : TaskResult) (now : Q) (t : Task) : Task :=
  set_result (Some (result_record r now))
    (set_status (if r_success r then COMPLETED else FAILED) t).

Definition report_result (r : TaskResult) (now : Q) (st : Store)
    : Response string * Store :=
  let tid := r_task_id r in
  match PyDict.get tid (tasks st) with
  | None => (HTTPException 404 "Task does not exist", st)
  | Some task =>
      if negb (owned_by task (r_client_id r))
      then (HTTPException 403 "Task does not belong to this client", st)
      else
        let task' := finish_task r now task in
        let tasks1 := PyDict.modify tid (finish_task r now) (tasks st) in
        let completed1 := PyDict.set tid task' (completed_tasks st) in
        (Ok200 tid, mkStore (PyDict.del tid tasks1) (clients st) completed1)
  end.

(** ** [upload_result] *)

(** Outcome of the handler's file work.  [IOMkdirError]: creating the task's
    result folder raises, before the [try] block.  [IOError]: an exception
    inside the [try] block (writing the temporary file, renaming it, or
    [wait_for_file_with_retries] giving up).  [IOSaved]: the file is in
    place; the two values are those read back afterwards, [time.time()] and
    [stat().st_size]. *)
Inductive UploadIO : Type :=
  | IOMkdirError
  | IOError (msg : string)
  | IOSaved (upload_timestamp : Q) (file_size : Z).

Record UploadReply : Type := mkUploadReply {
  u_task_id : string;
  u_saved_path : string;
  u_result_folder : string;
  u_file_size : Z
}.

(** [d.update(entries)] *)
Definition dict_update {V} (entries : list (string * V)) (d : PyDict.t V)
    : PyDict.t V :=
  fold_left (fun acc kv => PyDict.set kv.1 kv.2 acc) entries d.

(** [if not task.result: task.result = {}] then [task.result.update(...)]. *)
Definition attach_upload (path : string) (ts : Q) (size : Z) (t : Task) : Task :=
  let base := match result t with
              | Some (e :: r) => e :: r
              | Some [] | None => []
              end in
  set_result (Some (dict_update
                      [ ("processed_image_path", VStr path);
                        ("upload_timestamp", VFloat ts);
                        ("file_size", VInt size) ] base)) t.

(** [results_dir / task_id] and [task_result_dir / "processed.jpg"] *)
Definition task_result_dir (results_dir tid : string) : string :=
  results_dir +:+ "/" +:+ tid.

Definition processed_path (results_dir tid : string) : string :=
  task_result_dir results_dir tid +:+ "/processed.jpg".

Definition upload_result (results_dir tid : string) (io : UploadIO) (st : Store)
    : Response UploadReply * Store :=
  if negb (PyDict.contains tid (completed_tasks st))
  then (HTTPException 404 "Task does not exist or not completed", st)
  else
    let folder := task_result_dir results_dir tid in
    let path := processed_path results_dir tid in
    match io with
    | IOMkdirError => (HTTPException 500 "Internal Server Error", st)
    | IOError msg => (HTTPException 500 ("Save failed: " +:+ msg), st)
    | IOSaved ts size =>
        (Ok200 (mkUploadReply tid path folder size),
         set_completed
           (PyDict.modify tid (attach_upload path ts size) (completed_tasks st)) st)
    end.

(** ** [submit_task] and [register_client] *)

Definition new_task (tid photo xmp : string) (now : Q) : Task :=
  mkTask tid photo xmp now PENDING None None 10 None None false.

Definition count_pending (d : PyDict.t Task) : nat :=
  length (List.filter is_pending (PyDict.values d)).

(** [tid] is the fresh [uuid4()]; the reply is the queue position. *)
Definition submit_task (tid photo xmp : string) (now : Q) (st : Store)
    : Response (string * nat) * Store :=
  let st' := set_tasks (PyDict.set tid (new_task tid photo xmp now) (tasks st)) st in
  (Ok200 (tid, count_pending (tasks st')), st').

Definition register_client (c : ClientInfo) (now : Q) (st : Store)
    : Response string * Store :=
  (Ok200 (c_client_id c),
   set_clients (<[c_client_id c := set_last_seen now c]> (clients st)) st).

(** ** One iteration of [cleanup_old_tasks] *)

(** [status == READING and read_at and current_time - read_at > read_timeout] *)
Definition read_expired (now : Q) (t : Task) : bool :=
  TaskStatus_eqb (status t) READING &&
  match read_at t with
  | Some r => negb (Qeq_bool r 0) && Qgtb (now - r) (read_timeout t)
  | None => false
  end.

(** [status == PROCESSING and current_time - created_at > 1800] *)
Definition processing_stale (now : Q) (t : Task) : bool :=
  TaskStatus_eqb (status t) PROCESSING && Qgtb (now - created_at t) 1800.

Definition reset_task (t : Task) : Task :=
  set_read_at None (set_client_id None (set_status PENDING t)).

(** First loop of a pass: the ids whose task meets [cond]. *)
Definition collect_ids (cond : Task -> bool) (d : PyDict.t Task) : list string :=
  PyDict.keys (List.filter (fun kv => cond kv.2) d).

(** Second loop of a pass: [task = tasks[task_id]] and the three resets. *)
Definition reset_all (ids : list string) (d : PyDict.t Task) : PyDict.t Task :=
  fold_left (fun acc tid => PyDict.modify tid reset_task acc) ids d.

Definition reap_pass (cond : Task -> bool) (d : PyDict.t Task) : PyDict.t Task :=
  reset_all (collect_ids cond d) d.

Definition reap_tasks (now : Q) (d : PyDict.t Task) : PyDict.t Task :=
  reap_pass (processing_stale now) (reap_pass (read_expired now) d).

(** [offline_clients] are those with [current_time - last_seen > 600]; they
    are deleted, the others stay. *)
Definition purge_clients (now : Q) (c : gmap string ClientInfo)
    : gmap string ClientInfo :=
  filter (fun kv => Qgtb (now - c_last_seen kv.2) 600 = false) c.

Definition cleanup_iteration (now : Q) (st : Store) : Store :=
  mkStore (reap_tasks now (tasks st)) (purge_clients now (clients st))
          (completed_tasks st).

(** ** [submit_task_with_files] *)

(** An entry of [file_packages]. *)
Record FilePackage : Type := mkFilePackage {
  fp_photo_path : string;
  fp_xmp_path : string
}.

Definition transfer_task (tid : string) (now : Q) : Task :=
  mkTask tid ("/tmp/lightroom_task_" +:+ tid +:+ "/before.jpg")
         ("/tmp/lightroom_task_" +:+ tid +:+ "/config.lua")
         now PENDING None None 10 None None true.

(** [tid] is the fresh [uuid4()]; the second component of the state is the
    [file_packages] dictionary. *)
Definition submit_task_with_files (fs_exists : string -> bool)
    (tid photo xmp : string) (now : Q)
    (st : Store) (fps : PyDict.t FilePackage)
    : Response string * (Store * PyDict.t FilePackage) :=
  if negb (fs_exists photo)
  then (HTTPException 404 ("Photo file does not exist: " +:+ photo), (st, fps))
  else if negb (fs_exists xmp)
  then (HTTPException 404 ("XMP file does not exist: " +:+ xmp), (st, fps))
  else (Ok200 tid,
        (set_tasks (PyDict.set tid (transfer_task tid now) (tasks st)) st,
         PyDict.set tid (mkFilePackage photo xmp) fps)).

(** ** Requests as a labelled transition system *)

(** One request for every endpoint that writes the store, and the sweep;
    the other endpoints ([root], [health_check], [get_task_status],
    [get_stats], [list_clients] and the two downloads) only read.
    The store of the transition system holds [tasks], [clients] and
    [completed_tasks].  [file_packages] is written by
    [submit_task_with_files] only and read by [download_file] only; what
    the submission does to the store does not depend on it, so [step] runs
    the handler on an empty [file_packages] and keeps the store. *)

Inductive Request : Type :=
  | RegisterClient (c : ClientInfo) (now : Q)
  | GetTask (cid : string) (t_seen t_read : Q)
  | StartProcessing (tid cid : string)
  | ReportResult (r : TaskResult) (now : Q)
  | UploadResult (results_dir tid : string) (io : UploadIO)
  | SubmitTask (tid photo xmp : string) (now : Q)
  | SubmitTaskWithFiles (fs_exists : string -> bool) (tid photo xmp : string) (now : Q)
  | Cleanup (now : Q).

Inductive Reply : Type :=
  | ReplyTask (r : Response (option TaskView))
  | ReplyMessage (r : Response string)
  | ReplyUpload (r : Response UploadReply)
  | ReplySubmit (r : Response (string * nat))
  | NoReply.

Definition step (rq : Request) (st : Store) : Reply * Store :=
  match rq with
  | RegisterClient c now => prod_map ReplyMessage id (register_client c now st)
  | GetTask cid t_seen t_read => prod_map ReplyTask id (get_task cid t_seen t_read st)
  | StartProcessing tid cid => prod_map ReplyMessage id (start_processing tid cid st)
  | ReportResult r now => prod_map ReplyMessage id (report_result r now st)
  | UploadResult dir tid io => prod_map ReplyUpload id (upload_result dir tid io st)
  | SubmitTask tid photo xmp now => prod_map ReplySubmit id (submit_task tid photo xmp now st)
  | SubmitTaskWithFiles fs_exists tid photo xmp now =>
      let r := submit_task_with_files fs_exists tid photo xmp now st [] in
      (ReplyMessage r.1, r.2.1)
  | Cleanup now => (NoReply, cleanup_iteration now st)
  end.

(** Serving the requests of a trace in order; the replies come back in the
    same order. *)
Fixpoint run (trace : list Request) (st : Store) : list Reply * Store :=
  match trace with
  | [] => ([], st)
  | rq :: rest =>
      let '(rp, st1) := step rq st in
      let '(rps, st2) := run rest st1 in
      (rp :: rps, st2)
  end.

(** ** The worker's timeout estimator ([lr_task_client.py]) *)

(** [sub in s] *)
Fixpoint str_contains (sub s : string) : bool :=
  String.prefix sub s ||
  match s with
  | EmptyString => false
  | String _ rest => str_contains sub rest
  end.

(** Left-to-right scan of [s.count(sub)] for a non-empty [sub]: after a match
    the next [length sub - 1] characters are skipped. *)
Fixpoint count_from (sub s : string) (skip : nat) : nat :=
  match s with
  | EmptyString => 0
  | String _ rest =>
      match skip with
      | S k => count_from sub rest k
      | O => if String.prefix sub s
             then S (count_from sub rest (String.length sub - 1))
             else count_from sub rest 0
      end
  end.

(** [s.count(sub)]: non-overlapping occurrences; [len(s) + 1] for the
    empty [sub]. *)
Definition str_count (sub s : string) : nat :=
  match sub with
  | EmptyString => S (String.length s)
  | String _ _ => count_from sub s 0
  end.

Definition dquote : Ascii.ascii := Ascii.ascii_of_nat 34.

(** The literal [What = "Mask/Image"]. *)
Definition mask_marker : string :=
  "What = " +:+ String dquote ("Mask/Image" +:+ String dquote EmptyString).

Definition mask_gate : string := "MaskGroupBasedCorrections".

Definition complex_operations : list string :=
  [ "LocalizedCorrections";
    "CircularGradientBasedCorrections";
    "GradientBasedCorrections";
    "RetouchAreas" ].

(** The timeout settings of [LightroomReverseClient]. *)
Record ClientConfig : Type := mkClientConfig {
  base_processing_timeout : Q;
  mask_increment_seconds : Q;
  complex_increment_seconds : Q;
  max_timeout_mask : Q;
  max_timeout_complex : Q
}.

(** The constructor's defaults. *)
Definition default_config : ClientConfig := mkClientConfig 5 2 3 120 60.

Definition Qnat (n : nat) : Q := inject_Z (Z.of_nat n).

(** [file] is what reading [xmp_path] gives: [None] when [open] or [read]
    raises, in which case the [except] branch answers 30 seconds. *)
Definition calculate_processing_timeout (cfg : ClientConfig) (file : option string)
    : Q :=
  match file with
  | None => 30
  | Some lua_content =>
      let base_timeout := base_processing_timeout cfg in
      if str_contains mask_gate lua_content then
        let actual_mask_count := str_count mask_marker lua_content in
        let mask_timeout :=
          base_timeout + Qnat actual_mask_count * mask_increment_seconds cfg in
        py_min mask_timeout (max_timeout_mask cfg)
      else
        let complex_count :=
          length (List.filter (fun op => str_contains op lua_content)
                              complex_operations) in
        if (0 <? complex_count)%nat then
          let complex_timeout :=
            base_timeout + Qnat complex_count * complex_increment_seconds cfg in
          py_min complex_timeout (max_timeout_complex cfg)
        else base_timeout
  end.

(** ** Specification predicates *)

(** [t], met at position [i], is pending, no pending task was created
    before it, and no pending task created at the same time is met earlier. *)
Definition fifo_first (vals : list Task) (i : nat) (t : Task) : Prop :=
  vals !! i = Some t /\ status t = PENDING /\
  forall j t', vals !! j = Some t' -> status t' = PENDING ->
    created_at t <= created_at t' /\
    (created_at t' == created_at t -> (i <= j)%nat).

(** What the loop variables mean after the values [vals] have been visited. *)
Definition scan_inv (vals : list Task) (s : scan_state) : Prop :=
  match s with
  | (None, e) => e = None /\ Forall (fun t => status t <> PENDING) vals
  | (Some (i, t), e) => e = Some (created_at t) /\ fifo_first vals i t
  end.

(** What one pass of the sweep does to a task. *)
Definition reap_one (cond : Task -> bool) (t : Task) : Task :=
  if cond t then reset_task t else t.

(** Every task is filed under its own [task_id], as [submit_task] does. *)
Definition store_wf (st : Store) : Prop :=
  PyDict.wf (tasks st) /\ Forall (fun kv => task_id kv.2 = kv.1) (tasks st).

(** A pending task has no owner. *)
Definition pending_unowned (st : Store) : Prop :=
  Forall (fun kv => status kv.2 = PENDING -> client_id kv.2 = None) (tasks st).

(** The invariant of the store. *)
Definition store_inv (st : Store) : Prop := store_wf st /\ pending_unowned st.

(** The ids of the pending tasks, in dictionary order. *)
Definition pending_ids (d : PyDict.t Task) : list string :=
  collect_ids is_pending d.

(** The worker and the task id of a claim that was answered with a task. *)
Definition handed_out (rq : Request) (rp : Reply) : option (string * string) :=
  match rq, rp with
  | GetTask cid _ _, ReplyTask (Ok200 (Some v)) => Some (cid, v_task_id v)
  | _, _ => None
  end.

Definition claims_of (trace : list Request) (replies : list Reply)
    : list (string * string) :=
  omap (fun p => handed_out p.1 p.2) (zip trace replies).

Definition is_claim (rq : Request) : Prop :=
  match rq with GetTask _ _ _ => True | _ => False end.

Definition claimer_registered (st : Store) (rq : Request) : Prop :=
  match rq with
  | GetTask cid _ _ => is_Some (clients st !! cid)
  | _ => False
  end.

(** Requests other than the sweep and a submission. *)
Definition no_reset (rq : Request) : Prop :=
  match rq with
  | Cleanup _ | SubmitTask _ _ _ _ | SubmitTaskWithFiles _ _ _ _ _ => False
  | _ => True
  end.

Definition empty_store : Store := mkStore [] ∅ [].

(** ** Sample data *)

Definition sample_client (cid : string) : ClientInfo :=
  mkClientInfo cid "lightroom_bridge" ["photo_processing"] "ready" 0 7777.

(** Three submitted tasks; [b] and [c] were created at the same time,
    before [a]; two registered workers. *)
Definition st_pending : Store :=
  mkStore [ ("a", new_task "a" "a.jpg" "a.lua" 5);
            ("b", new_task "b" "b.jpg" "b.lua" 3);
            ("c", new_task "c" "c.jpg" "c.lua" 3) ]
          {[ "w1" := sample_client "w1"; "w2" := sample_client "w2" ]}
          [].

(** A store whose only task is being processed by [w1]. *)
Definition st_busy : Store :=
  mkStore [ ("a", mkTask "a" "a.jpg" "a.lua" 5 PROCESSING (Some "w1") (Some 6)
                         10 None None false) ]
          {[ "w1" := sample_client "w1"; "w2" := sample_client "w2" ]}
          [].

(** [a] is being read by [w1]; [w2] is registered too. *)
Definition st_reading : Store :=
  mkStore [ ("a", mkTask "a" "a.jpg" "a.lua" 5 READING (Some "w1") (Some 6)
                         10 None None false) ]
          {[ "w1" := sample_client "w1"; "w2" := sample_client "w2" ]}
          [].

Definition report_ok (tid cid : string) : TaskResult :=
  mkTaskResult tid cid true 2 None None.

Definition report_failed (tid cid : string) : TaskResult :=
  mkTaskResult tid cid false 2 (Some "backend error") None.

(** [st_busy] after [w1] has reported a failure for [a]: the archive holds
    [a] with status FAILED. *)
Definition st_failed : Store :=
  (report_result (report_failed "a" "w1") 9 st_busy).2.

(** [a] is being read by [w1], whose registration is gone. *)
Definition st_unregistered : Store :=
  mkStore (tasks st_reading) ∅ [].

(** [a] is being processed by [w1], last seen at time 0. *)
Definition st_silent : Store :=
  mkStore (tasks st_busy) {[ "w1" := sample_client "w1" ]} [].

(** Settings of the scenario: base 5 s, 5 s per mask, at most 120 s. *)
Definition scenario_config : ClientConfig := mkClientConfig 5 5 3 120 60.

(** A preset with a mask group holding three masks. *)
Definition lua_three_masks : string :=
  "MaskGroupBasedCorrections = { " +:+
  "{ " +:+ mask_marker +:+ " }, " +:+
  "{ " +:+ mask_marker +:+ " }, " +:+
  "{ " +:+ mask_marker +:+ " } }".

(** A preset with global adjustments only. *)
Definition lua_simple : string := "Exposure2012 = 0.35, Contrast2012 = 10".

(** [a] was created at time 0 and waited; [w1] claimed it at 1795 and
    confirmed it. *)
Definition st_late_start : Store :=
  (run [ SubmitTask "a" "a.jpg" "a.lua" 0;
         RegisterClient (sample_client "w1") 1790;
         GetTask "w1" 1795 1795;
         StartProcessing "a" "w1" ]
       empty_store).2.

(** [w1] claimed [a] at time 100 and has not confirmed it; [w2] is
    registered and was last seen at time 105. *)
Definition st_abandoned : Store :=
  (run [ SubmitTask "a" "a.jpg" "a.lua" 90;
         RegisterClient (sample_client "w1") 95;
         GetTask "w1" 100 100;
         RegisterClient (sample_client "w2") 105 ]
       empty_store).2.

(** ** The read-only endpoints *)

(** The body of [get_task_status]: [task_id] is the path parameter. *)
Record StatusView : Type := mkStatusView {
  sv_task_id : string;
  sv_status : TaskStatus;
  sv_created_at : Q;
  sv_client_id : option string;
  sv_result : option (PyDict.t PyVal)
}.

Definition status_view (tid : string) (t : Task) : StatusView :=
  mkStatusView tid (status t) (created_at t) (client_id t) (result t).

Definition get_task_status (tid : string) (st : Store) : Response StatusView :=
  match PyDict.get tid (tasks st) with
  | Some task => Ok200 (status_view tid task)
  | None =>
      match PyDict.get tid (completed_tasks st) with
      | Some task => Ok200 (status_view tid task)
      | None => HTTPException 404 "Task does not exist"
      end
  end.

(** [len([t for t in tasks.values() if t.status == s])] *)
Definition count_status (s : TaskStatus) (d : PyDict.t Task) : nat :=
  length (List.filter (fun t => TaskStatus_eqb (status t) s) (PyDict.values d)).

(** The [stats] of [health_check]. *)
Record HealthStats : Type := mkHealthStats {
  h_active_clients : nat;
  h_pending_tasks : nat;
  h_reading_tasks : nat;
  h_processing_tasks : nat;
  h_completed_tasks : nat
}.

Definition health_check (st : Store) : HealthStats :=
  mkHealthStats (size (clients st))
                (count_status PENDING (tasks st))
                (count_status READING (tasks st))
                (count_status PROCESSING (tasks st))
                (length (completed_tasks st)).

(** ** Invariants of the task records *)

(** An active task has no result; it is owned and stamped exactly when it is
    being read or processed; it is never in a terminal state. *)
Definition active_coherent (t : Task) : Prop :=
  result t = None /\
  match status t with
  | PENDING => client_id t = None /\ read_at t = None
  | READING | PROCESSING => is_Some (client_id t) /\ is_Some (read_at t)
  | COMPLETED | FAILED => False
  end.

(** An archived task is terminal, and its status agrees with the [success]
    flag of its result. *)
Definition archive_coherent (t : Task) : Prop :=
  exists r, result t = Some r /\
    ((status t = COMPLETED /\ PyDict.get "success" r = Some (VBool true)) \/
     (status t = FAILED /\ PyDict.get "success" r = Some (VBool false))).

Definition lifecycle_inv (st : Store) : Prop :=
  Forall (fun kv => active_coherent kv.2) (tasks st) /\
  Forall (fun kv => archive_coherent kv.2) (completed_tasks st).

(** [rq] does not submit a task under the id [tid]. *)
Definition not_resubmit (tid : string) (rq : Request) : Prop :=
  match rq with
  | SubmitTask tid' _ _ _ | SubmitTaskWithFiles _ tid' _ _ _ => tid' <> tid
  | _ => True
  end.

(** Where the task filed under [tid] is, and what it is. *)
Definition task_record (tid : string) (st : Store) : option Task :=
  match PyDict.get tid (tasks st) with
  | Some t => Some t
  | None => PyDict.get tid (completed_tasks st)
  end.

(** The keys written by [upload_result]. *)
Definition upload_keys : list string :=
  [ "processed_image_path"; "upload_timestamp"; "file_size" ].

(** [task.result[k]], when there is a result and it has the key. *)
Definition result_get (k : string) (t : Task) : option PyVal :=
  match result t with
  | Some r => PyDict.get k r
  | None => None
  end.

(** [t'] is [t] up to what an upload adds to the result. *)
Definition same_up_to_upload (t t' : Task) : Prop :=
  set_result (result t) t' = t /\
  forall k, k ∉ upload_keys -> result_get k t' = result_get k t.

(** A trace that started with the submission of [b], its claim by [w1] and
    a successful report. *)
Definition st_reported : Store :=
  (run [ GetTask "w1" 10 11; StartProcessing "b" "w1";
         ReportResult (report_ok "b" "w1") 14 ] st_pending).2.



(** ** [download_task_result] *)

(** What a streamed download serves. *)
Record DownloadReply : Type := mkDownloadReply {
  d_path : string;
  d_media_type : string;
  d_filename : string
}.

(** [fs_exists p] is [Path(p).exists()] and [suffix_lower p] is
    [Path(p).suffix.lower()].  [Path(x)] raises [TypeError] on a value that
    is not a string, which the framework turns into a 500. *)
Definition download_task_result (fs_exists : string -> bool)
    (suffix_lower : string -> string) (tid : string) (st : Store)
    : Response DownloadReply :=
  match PyDict.get tid (completed_tasks st) with
  | None => HTTPException 404 "Task does not exist or not completed"
  | Some task =>
      match result task with
      | None | Some [] => HTTPException 404 "Task result does not exist"
      | Some r =>
          match PyDict.get "processed_image_path" r with
          | None => HTTPException 404 "Task result does not exist"
          | Some (VStr p) =>
              if fs_exists p then
                let ext := suffix_lower p in
                let media :=
                  if String.eqb ext ".jpg" || String.eqb ext ".jpeg"
                  then "image/jpeg" else "application/octet-stream" in
                Ok200 (mkDownloadReply p media ("processed_" +:+ tid +:+ ".jpg"))
              else HTTPException 404 ("Result file does not exist: " +:+ p)
          | Some _ => HTTPException 500 "Internal Server Error"
          end
      end
  end.

(** ** [download_file] *)

Definition download_file (fs_exists : string -> bool) (tid file_type : string)
    (fps : PyDict.t FilePackage) : Response DownloadReply :=
  match PyDict.get tid fps with
  | None => HTTPException 404 "Task files do not exist"
  | Some file_paths =>
      let served :=
        if String.eqb file_type "photo"
        then Some (fp_photo_path file_paths, "before.jpg", "image/jpeg")
        else if String.eqb file_type "xmp"
        then Some (fp_xmp_path file_paths, "config.lua", "text/plain")
        else None in
      match served with
      | None => HTTPException 400 "Invalid file type, supported: photo, xmp"
      | Some (file_path, filename, media_type) =>
          if negb (fs_exists file_path)
          then HTTPException 404 ("File does not exist: " +:+ file_path)
          else Ok200 (mkDownloadReply file_path media_type filename)
      end
  end.

(** A file system in which every path exists, and one with no file. *)
Definition fs_all : string -> bool := fun _ => true.
Definition fs_none : string -> bool := fun _ => false.

(** A stand-in for [Path(p).suffix.lower()] on the sample paths. *)
Definition suffix_jpg : string -> string := fun _ => ".jpg".

(** ** [wait_for_file_with_retries] *)

(** The retry settings read from the environment. *)
Record WaitConfig : Type := mkWaitConfig {
  max_file_wait_retries : Z;
  file_wait_timeout : Q;
  retry_delay : Q;
  backoff_factor : Q
}.

Definition default_wait_config : WaitConfig := mkWaitConfig 5 180 2 (3 # 2).

(** What the second look at the file, after the half-second sleep, finds:
    the file is gone, it is empty, it has content, or [stat()] raises. *)
Inductive SecondLook : Type := Gone | Empty | Ready | StatError.

(** What one pass of the loop observes: the clock reading of the loop test,
    the first [exists()], and the second look. *)
Record Probe : Type := mkProbe {
  p_now : Q;
  p_exists : bool;
  p_second : SecondLook
}.

Inductive WaitOutcome : Type :=
  | Returned (b : bool)
  | Raised.

(** The loop; [fuel] is [MAX_FILE_WAIT_RETRIES - retry_count].  The second
    component lists the arguments of the [asyncio.sleep] calls in order. *)
Fixpoint wait_loop (env : nat -> Probe) (start timeout : Q) (cfg : WaitConfig)
    (fuel retry_count : nat) (current_delay : Q) : WaitOutcome * list Q :=
  match fuel with
  | O => (Returned false, [])
  | S fuel' =>
      let p := env retry_count in
      if negb (Qltb (p_now p - start) timeout) then (Returned false, [])
      else
        let next :=
          wait_loop env start timeout cfg fuel' (S retry_count)
                    (py_min (current_delay * backoff_factor cfg) 30) in
        if p_exists p then
          match p_second p with
          | Ready => (Returned true, [1 # 2])
          | StatError => (Raised, [1 # 2])
          | Gone | Empty => (next.1, (1 # 2) :: current_delay :: next.2)
          end
        else (next.1, current_delay :: next.2)
  end.

(** [timeout = None] stands for the default argument. *)
Definition wait_for_file_with_retries (cfg : WaitConfig) (env : nat -> Probe)
    (start : Q) (timeout : option Q) : WaitOutcome * list Q :=
  let timeout := match timeout with Some t => t | None => file_wait_timeout cfg end in
  wait_loop env start timeout cfg (Z.to_nat (max_file_wait_retries cfg)) 0
            (retry_delay cfg).

Definition Qsum (l : list Q) : Q := fold_right Qplus 0 l.

(** The file is missing at the first two looks and ready at the third. *)
Definition env_third_look (k : nat) : Probe :=
  match k with
  | 0%nat => mkProbe 100 false Gone
  | 1%nat => mkProbe 102 true Empty
  | _ => mkProbe 106 true Ready
  end.

(** A preset whose only local adjustment is a radial filter. *)
Definition lua_radial : string :=
  "CircularGradientBasedCorrections = { { CorrectionAmount = 1 } }".

(** ** The worker's polling pass ([poll_loop]) *)

(** An entry of [self.servers]; [s_last_failure_time] is [None] while the
    dictionary has no such key. *)
Record Server : Type := mkServer {
  s_ip : string;
  s_port : Z;
  s_url : string;
  s_available : bool;
  s_last_error : option string;
  s_last_failure_time : option Q
}.

Definition mark_server_unavailable (error : string) (now : Q) (s : Server) : Server :=
  mkServer (s_ip s) (s_port s) (s_url s) false (Some error) (Some now).

Definition opt_eqb {A} (eqb : A -> A -> bool) (a b : option A) : bool :=
  match a, b with
  | Some x, Some y => eqb x y
  | None, None => true
  | _, _ => false
  end.

(** [==] on two server dictionaries. *)
Definition server_eqb (a b : Server) : bool :=
  String.eqb (s_ip a) (s_ip b) && Z.eqb (s_port a) (s_port b) &&
  String.eqb (s_url a) (s_url b) && Bool.eqb (s_available a) (s_available b) &&
  opt_eqb String.eqb (s_last_error a) (s_last_error b) &&
  opt_eqb Qeq_bool (s_last_failure_time a) (s_last_failure_time b).

(** What a [get_task] request to a server comes back with: status 200 with
    its JSON body ([None] for the empty object), another status, a timeout,
    or another exception with its text. *)
Inductive PollResponse : Type :=
  | PollOk (task : option TaskView)
  | PollStatus (code : Z)
  | PollTimeout
  | PollError (msg : string).

(** [task and task.get('task_id')] *)
Definition task_found (task : option TaskView) : option TaskView :=
  match task with
  | Some v => if String.eqb (v_task_id v) "" then None else Some v
  | None => None
  end.

(** The part of the client that the polling pass reads and writes. *)
Record PollState : Type := mkPollState {
  ps_servers : list Server;
  ps_current_server_index : nat;
  ps_task_counts : PyDict.t nat;
  ps_last_poll_time : PyDict.t Q;
  ps_consecutive_empty_polls : nat
}.

(** Servers are referred to by their position in [self.servers]; the list
    [available_servers] is the list of positions of the available ones. *)
Definition available_positions (servers : list Server) : list nat :=
  List.filter (fun p => match servers !! p with
                        | Some s => s_available s
                        | None => false
                        end)
              (seq 0 (length servers)).

(** [servers_to_check]: [available_servers[(current + i) % n]] for
    [i = 0 .. n-1]. *)
Definition servers_to_check (avail : list nat) (current : nat) : list nat :=
  omap (fun i => avail !! ((current + i) mod length avail)) (seq 0 (length avail)).

Fixpoint find_index {A} (f : A -> bool) (l : list A) : option nat :=
  match l with
  | [] => None
  | x :: rest => if f x then Some 0%nat else S <$> find_index f rest
  end.

(** [available_servers.index(server)], for the server at position [p]. *)
Definition index_in_available (servers : list Server) (avail : list nat) (p : nat)
    : option nat :=
  find_index (fun q => match servers !! q, servers !! p with
                       | Some a, Some b => server_eqb a b
                       | _, _ => false
                       end) avail.

Definition mark_at (p : nat) (error : string) (now : Q) (st : PollState) : PollState :=
  mkPollState (alter (mark_server_unavailable error now) p (ps_servers st))
              (ps_current_server_index st) (ps_task_counts st)
              (ps_last_poll_time st) (ps_consecutive_empty_polls st).

(** The bookkeeping done when a task has arrived from the server at [p]. *)
Definition record_task (p : nat) (current_time : Q) (st : PollState) : PollState :=
  match ps_servers st !! p with
  | Some s =>
      mkPollState (ps_servers st) (ps_current_server_index st)
                  (PyDict.modify (s_url s) S (ps_task_counts st))
                  (PyDict.set (s_url s) current_time (ps_last_poll_time st))
                  0
  | None => st
  end.

Definition set_index (i : nat) (st : PollState) : PollState :=
  mkPollState (ps_servers st) i (ps_task_counts st) (ps_last_poll_time st)
              (ps_consecutive_empty_polls st).

(** Outcome of the [for server in servers_to_check] loop: the state, the
    local counter [consecutive_failures], the positions polled in order,
    and the task handed to [process_task] with its server, if any. *)
Record PollLoop : Type := mkPollLoop {
  pl_state : PollState;
  pl_failures : nat;
  pl_polled : list nat;
  pl_hit : option (nat * TaskView)
}.

Definition polled_first (p : nat) (r : PollLoop) : PollLoop :=
  mkPollLoop (pl_state r) (pl_failures r) (p :: pl_polled r) (pl_hit r).

(** [self.task_counts] has an entry for the URL of the server at [p]. *)
Definition task_count_known (p : nat) (st : PollState) : bool :=
  match ps_servers st !! p with
  | Some s => PyDict.contains (s_url s) (ps_task_counts st)
  | None => false
  end.

(** [str(e)] for the [KeyError] of [self.task_counts[server['url']] += 1]:
    the key in single quotes. *)
Definition key_error_text (p : nat) (st : PollState) : string :=
  "'" +:+ from_option s_url "" (ps_servers st !! p) +:+ "'".

(** [resp p] is the answer of the server at position [p], [clock p] the
    clock reading when it is marked unavailable.  [process_task] is taken
    to return normally.  An exception raised by the bookkeeping (a URL
    missing from [task_counts], a failed [index]) is caught like any other
    in the [try] block: the server is marked, [consecutive_failures], reset
    to 0 just before, becomes 1, and the loop goes on. *)
Fixpoint poll_servers (resp : nat -> PollResponse) (clock : nat -> Q)
    (current_time : Q) (avail order : list nat)
    (st : PollState) (failures : nat) : PollLoop :=
  match order with
  | [] => mkPollLoop st failures [] None
  | p :: rest =>
      let continue st' failures' :=
        polled_first p (poll_servers resp clock current_time avail rest st' failures') in
      match resp p with
      | PollOk body =>
          match task_found body with
          | Some task =>
              if task_count_known p st then
                let st1 := record_task p current_time st in
                match index_in_available (ps_servers st1) avail p with
                | Some j =>
                    mkPollLoop (set_index ((j + 1) mod length avail) st1) 0 [p]
                               (Some (p, task))
                | None => continue (mark_at p "is not in list" (clock p) st1) 1%nat
                end
              else continue (mark_at p (key_error_text p st) (clock p) st) 1%nat
          | None => continue st failures
          end
      | PollStatus code =>
          if (code =? 200)%Z || (code =? 404)%Z then continue st failures
          else continue (mark_at p ("HTTP " +:+ pretty code) (clock p) st) failures
      | PollTimeout => continue (mark_at p "Timeout" (clock p) st) (S failures)
      | PollError msg => continue (mark_at p msg (clock p) st) (S failures)
      end
  end.

(** The polling part of one pass of the loop body, from the polling
    schedule to the index update.  The loop reaches it only when some
    server is available; with none it reconnects and starts over, polling
    nothing and leaving the pointer and the counters alone (see
    [poll_iteration]). *)
Definition poll_pass (resp : nat -> PollResponse) (clock : nat -> Q)
    (current_time : Q) (failures : nat) (st : PollState) : PollLoop :=
  let avail := available_positions (ps_servers st) in
  match avail with
  | [] => mkPollLoop st failures [] None
  | _ :: _ =>
      let order := servers_to_check avail (ps_current_server_index st) in
      let r := poll_servers resp clock current_time avail order st failures in
      match pl_hit r with
      | Some _ => r
      | None =>
          let st' := pl_state r in
          mkPollLoop
            (mkPollState (ps_servers st')
                         ((ps_current_server_index st' + 1) mod length avail)
                         (ps_task_counts st') (ps_last_poll_time st')
                         (S (ps_consecutive_empty_polls st')))
            (pl_failures r) (pl_polled r) None
      end
  end.

(** The effect of a pass on a polled server. *)
Definition after_poll (resp : nat -> PollResponse) (clock : nat -> Q)
    (p : nat) (s : Server) : Server :=
  match resp p with
  | PollOk _ => s
  | PollStatus code =>
      if (code =? 200)%Z || (code =? 404)%Z then s
      else mark_server_unavailable ("HTTP " +:+ pretty code) (clock p) s
  | PollTimeout => mark_server_unavailable "Timeout" (clock p) s
  | PollError msg => mark_server_unavailable msg (clock p) s
  end.

Definition counts_as_failure (r : PollResponse) : bool :=
  match r with
  | PollTimeout | PollError _ => true
  | PollOk _ | PollStatus _ => false
  end.

(** Every server has its entry in [task_counts], as [__init__] leaves it. *)
Definition counts_keyed (st : PollState) : Prop :=
  Forall (fun s => PyDict.contains (s_url s) (ps_task_counts st) = true)
         (ps_servers st).

(** [st] with another list of servers. *)
Definition with_servers (servers : list Server) (st : PollState) : PollState :=
  mkPollState servers (ps_current_server_index st) (ps_task_counts st)
              (ps_last_poll_time st) (ps_consecutive_empty_polls st).

Definition sample_server (ip : string) (up : bool) : Server :=
  mkServer ip 8081 ("http://" +:+ ip +:+ ":8081") up None None.

(** Three brokers, the second one down; the pointer is at 1. *)
Definition poll_state_sample : PollState :=
  mkPollState [ sample_server "10.0.0.1" true; sample_server "10.0.0.2" false;
                sample_server "10.0.0.3" true ]
              1
              [ ("http://10.0.0.1:8081", 0%nat); ("http://10.0.0.2:8081", 0%nat);
                ("http://10.0.0.3:8081", 0%nat) ]
              [] 0.

(** ** Connecting, registering and health checks of the worker *)

(** What an HTTP request comes back with: a response with its status
    ([body_error] is the text of the exception that reading its body
    raises, if it does), or an exception with its text. *)
Inductive HttpReply : Type :=
  | HttpStatus (code : Z) (body_error : option string)
  | HttpRaised (msg : string).

(** The requests the worker sends, by target. *)
Inductive Call : Type :=
  | GetHealth (url : string)
  | PostRegister (url : string)
  | PostLightroom.

Definition answered_ok (r : HttpReply) : bool :=
  match r with
  | HttpStatus code _ => (code =? 200)%Z
  | HttpRaised _ => false
  end.

Definition set_available (b : bool) (s : Server) : Server :=
  mkServer (s_ip s) (s_port s) (s_url s) b (s_last_error s) (s_last_failure_time s).

(** [server['available'] = b; server['last_error'] = error] *)
Definition set_link (b : bool) (error : option string) (s : Server) : Server :=
  mkServer (s_ip s) (s_port s) (s_url s) b error (s_last_failure_time s).

(** [register_single_server]: the result, the server afterwards, and the
    requests sent; [reply] is the answer to the registration request. *)
Definition register_single_server (reply : HttpReply) (s : Server)
    : bool * Server * list Call :=
  if negb (s_available s) then (false, s, [])
  else
    match reply with
    | HttpStatus code _ =>
        if (code =? 200)%Z then (true, s, [PostRegister (s_url s)])
        else (false, set_available false s, [PostRegister (s_url s)])
    | HttpRaised _ => (false, set_available false s, [PostRegister (s_url s)])
    end.

(** The loop of [register] from position [p] on: the number of successful
    registrations, the servers afterwards, the requests sent. *)
Fixpoint register_servers (reg : nat -> HttpReply) (p : nat) (servers : list Server)
    : nat * list Server * list Call :=
  match servers with
  | [] => (0%nat, [], [])
  | s :: rest =>
      let '(ok, s', calls) := register_single_server (reg p) s in
      let '(n, rest', calls') := register_servers reg (S p) rest in
      ((if ok then S n else n), s' :: rest', calls ++ calls')
  end.

Definition register (reg : nat -> HttpReply) (servers : list Server)
    : bool * list Server * list Call :=
  let '(successful_registrations, servers', calls) := register_servers reg 0 servers in
  (negb (successful_registrations =? 0)%nat, servers', calls).

(** The body of the loop of [test_connections] for one server. *)
Definition test_server (reply : HttpReply) (s : Server) : bool * Server :=
  match reply with
  | HttpStatus code body_error =>
      if (code =? 200)%Z then
        match body_error with
        | None => (true, set_link true None s)
        | Some msg => (false, set_link false (Some msg) s)
        end
      else (false, set_link false (Some ("HTTP " +:+ pretty code)) s)
  | HttpRaised msg => (false, set_link false (Some msg) s)
  end.

Fixpoint test_servers (health : nat -> HttpReply) (p : nat) (servers : list Server)
    : nat * list Server * list Call :=
  match servers with
  | [] => (0%nat, [], [])
  | s :: rest =>
      let '(ok, s') := test_server (health p) s in
      let '(n, rest', calls) := test_servers health (S p) rest in
      ((if ok then S n else n), s' :: rest', GetHealth (s_url s) :: calls)
  end.

(** The answers to a health probe that [test_connections] accepts. *)
Definition healthy (reply : HttpReply) : bool :=
  match reply with
  | HttpStatus code None => (code =? 200)%Z
  | _ => false
  end.

(** [response.status in [200, 400, 500]] for the probe of the local
    Lightroom bridge. *)
Definition lightroom_responds (reply : HttpReply) : bool :=
  match reply with
  | HttpStatus code _ => (code =? 200)%Z || (code =? 400)%Z || (code =? 500)%Z
  | HttpRaised _ => false
  end.

Definition test_connections (health : nat -> HttpReply) (lightroom : HttpReply)
    (servers : list Server) : bool * list Server * list Call :=
  let '(available_servers, servers', calls) := test_servers health 0 servers in
  if (available_servers =? 0)%nat then (false, servers', calls)
  else (lightroom_responds lightroom, servers', calls ++ [PostLightroom]).

(** The body of the loop of [health_check_all_servers] for one server;
    [now] is the clock reading when the server is marked unavailable. *)
Definition check_server (health reg : HttpReply) (now : Q) (s : Server)
    : Server * list Call :=
  match health with
  | HttpStatus code _ =>
      if (code =? 200)%Z then
        let '(_, s1, calls) :=
          if negb (s_available s) then register_single_server reg s
          else (false, s, []) in
        (set_link true None s1, GetHealth (s_url s) :: calls)
      else (mark_server_unavailable ("Health check failed: " +:+ pretty code) now s,
            [GetHealth (s_url s)])
  | HttpRaised msg =>
      (mark_server_unavailable ("Health check error: " +:+ msg) now s,
       [GetHealth (s_url s)])
  end.

Fixpoint check_servers (health reg : nat -> HttpReply) (clock : nat -> Q) (p : nat)
    (servers : list Server) : list Server * list Call :=
  match servers with
  | [] => ([], [])
  | s :: rest =>
      let '(s', calls) := check_server (health p) (reg p) (clock p) s in
      let '(rest', calls') := check_servers health reg clock (S p) rest in
      (s' :: rest', calls ++ calls')
  end.

Definition health_check_all_servers (health reg : nat -> HttpReply) (clock : nat -> Q)
    (servers : list Server) : list Server * list Call :=
  check_servers health reg clock 0 servers.

(** The reconnection step of [start] and [poll_loop]:
    [test_connections], and [register] when it succeeds. *)
Definition reconnect (health : nat -> HttpReply) (lightroom : HttpReply)
    (reg : nat -> HttpReply) (servers : list Server) : bool * list Server * list Call :=
  let '(connection_success, servers1, calls1) :=
    test_connections health lightroom servers in
  if connection_success then
    let '(register_success, servers2, calls2) := register reg servers1 in
    (register_success, servers2, calls1 ++ calls2)
  else (false, servers1, calls1).

(** One pass of the body of the [while] loop, after the periodic health
    check.  With no available server: the reconnection, and the pass is
    over.  Otherwise the polling pass, then a reconnection when
    [consecutive_failures] has reached [max_consecutive_failures], which
    sets the counter back to 0.  A pass reconnects at most once, so one
    set of answers is enough; the pauses are left out. *)
Definition poll_iteration (resp : nat -> PollResponse) (clock : nat -> Q)
    (current_time : Q) (health : nat -> HttpReply) (lightroom : HttpReply)
    (reg : nat -> HttpReply) (max_consecutive_failures : Z)
    (failures : nat) (st : PollState) : PollLoop :=
  match available_positions (ps_servers st) with
  | [] =>
      mkPollLoop
        (with_servers (reconnect health lightroom reg (ps_servers st)).1.2 st)
        failures [] None
  | _ :: _ =>
      let r := poll_pass resp clock current_time failures st in
      if (max_consecutive_failures <=? Z.of_nat (pl_failures r))%Z then
        mkPollLoop
          (with_servers
             (reconnect health lightroom reg (ps_servers (pl_state r))).1.2
             (pl_state r))
          0 (pl_polled r) (pl_hit r)
      else r
  end.

Definition is_registration (c : Call) : bool :=
  match c with
  | PostRegister _ => true
  | _ => false
  end.

(** ** The worker's [process_task] *)

(** What the worker does that others can see, in order: the requests to
    the broker a task came from, the call of [download_task_files], and the
    request to the local Lightroom bridge with its total timeout. *)
Inductive Event : Type :=
  | Confirm (url tid cid : string)
  | DownloadFiles (url tid : string)
  | Lightroom (photo_path xmp_path tid : string) (timeout : Q)
  | Report (url : string) (r : TaskResult)
  | Upload (url tid path : string).

(** The [try] block of [process_task]: the events so far, and either the
    text of the exception that ended the block or its value. *)
Definition Try (A : Type) : Type := list Event * (string + A).

#[global] Instance Try_ret : MRet Try := fun A a => ([], inr a).

#[global] Instance Try_bind : MBind Try := fun A B k m =>
  match m.2 with
  | inl msg => (m.1, inl msg)
  | inr a => (m.1 ++ (k a).1, (k a).2)
  end.

Definition raise {A} (msg : string) : Try A := ([], inl msg).

Definition emit (e : Event) : Try unit := ([e], inr tt).

(** What [response.text()] gives. *)
Inductive BodyText : Type :=
  | Text (t : string)
  | TextRaised (msg : string).

(** The answer of the Lightroom bridge: a response with its status, what
    [response.json()] gives ([None] when it raises or gives no object) and
    what [response.text()] gives; or an exception, a timeout included. *)
Inductive LightroomReply : Type :=
  | LrStatus (code : Z) (json : option (PyDict.t PyVal)) (text : BodyText)
  | LrRaised (msg : string).

Inductive DownloadOutcome : Type :=
  | Downloaded (task_dir : string)
  | DownloadRaised (msg : string).

(** What [Path(p).exists()] gives; it raises for an error other than a
    missing file (no permission, a name too long). *)
Inductive Look : Type :=
  | Present
  | Absent
  | LookRaised (msg : string).

(** The processed image as [upload_processed_image] finds it. *)
Inductive ImageFile : Type := ImageMissing | ImageUnreadable | ImageRead.

(** What the surroundings answer during one [process_task]. *)
Record TaskEnv : Type := mkTaskEnv {
  e_confirm : HttpReply;
  e_download : DownloadOutcome;
  (** [Path(p).exists()] before the Lightroom call *)
  e_exists : string -> Look;
  (** reading the preset; [None] when it raises *)
  e_lua : string -> option string;
  e_lightroom : LightroomReply;
  (** whether looking at the output file inside the inner [try]
      ([exists()], then [stat()]) raises *)
  e_inspect_raises : string -> bool;
  (** [time.time() - start_time], in the block and in the handler *)
  e_elapsed : Q;
  e_elapsed_on_error : Q;
  (** [Path(final_image_path).exists()] after the report *)
  e_output_exists : bool;
  e_image : ImageFile;
  e_upload : HttpReply
}.

(** [upload_processed_image]; every exception is caught. *)
Definition upload_processed_image (file : ImageFile) (reply : HttpReply)
    (url tid image_path : string) : bool * list Event :=
  match file with
  | ImageMissing | ImageUnreadable => (false, [])
  | ImageRead => (healthy reply, [Upload url tid image_path])
  end.

(** [result_data] and [processed_image_path] after the inner [try] of a
    200 answer: when the body is no object, when its [output_path] is not a
    string ([Path(...)] raises), or when looking at the file raises, the
    handler replaces both. *)
Definition read_output (json : option (PyDict.t PyVal))
    (inspect_raises : string -> bool) : PyDict.t PyVal * option string :=
  let fallback := ([("message", VStr "Processing successful")], None) in
  match json with
  | Some result_data =>
      match PyDict.get "output_path" result_data with
      | Some (VStr p) => if inspect_raises p then fallback else (result_data, Some p)
      | _ => fallback
      end
  | None => fallback
  end.

(** Truth value of [processed_image_path]. *)
Definition path_given (p : option string) : bool :=
  match p with
  | Some s => negb (String.eqb s "")
  | None => false
  end.

(** The [try] block.  [wait_for_output_file] returns the path it was
    given, so [final_image_path] is [processed_image_path] on every path;
    the call is taken to return.  The looks at the output file after the
    inner [try], which has inspected the same path without error, are taken
    not to raise. *)
Definition process_task_body (cfg : ClientConfig) (processing_extra_buffer : Q)
    (cid url : string) (task : TaskView) (env : TaskEnv) : Try bool :=
  let tid := v_task_id task in
  emit (Confirm url tid cid) ;;
  confirmed ← match e_confirm env with
              | HttpStatus code body_error =>
                  if negb (code =? 200)%Z then
                    match body_error with
                    | None => mret false
                    | Some msg => raise msg
                    end
                  else mret true
              | HttpRaised msg => raise msg
              end ;
  if negb confirmed then mret false
  else
    paths ← (if v_requires_download task then
               emit (DownloadFiles url tid) ;;
               match e_download env with
               | Downloaded task_dir =>
                   mret (task_dir +:+ "/before.jpg", task_dir +:+ "/config.lua")
               | DownloadRaised msg => raise ("File download failed: " +:+ msg)
               end
             else mret (v_photo_path task, v_xmp_path task)) ;
    let photo_path := paths.1 in
    let xmp_path := paths.2 in
    match e_exists env photo_path with
    | LookRaised msg => raise msg
    | Absent => raise ("Photo file does not exist: " +:+ photo_path)
    | Present => mret tt
    end ;;
    match e_exists env xmp_path with
    | LookRaised msg => raise msg
    | Absent => raise ("XMP file does not exist: " +:+ xmp_path)
    | Present => mret tt
    end ;;
    let processing_timeout := calculate_processing_timeout cfg (e_lua env xmp_path) in
    emit (Lightroom photo_path xmp_path tid
            (processing_timeout + processing_extra_buffer)) ;;
    outcome ← match e_lightroom env with
              | LrStatus code json text =>
                  if (code =? 200)%Z then
                    let '(result_data, processed_image_path) :=
                      read_output json (e_inspect_raises env) in
                    mret (true, processed_image_path, None, Some result_data)
                  else
                    match text with
                    | Text error => mret (false, None, Some error, None)
                    | TextRaised msg => raise msg
                    end
              | LrRaised msg => raise msg
              end ;
    let '(success, processed_image_path, error, result_data) := outcome in
    let final_image_path := processed_image_path in
    emit (Report url (mkTaskResult tid cid success (e_elapsed env) error result_data)) ;;
    (if success && path_given final_image_path && e_output_exists env then
       ((upload_processed_image (e_image env) (e_upload env) url tid
           (default "" final_image_path)).2, inr tt)
     else mret tt) ;;
    mret success.

(** [process_task]: the value returned and the events; an exception in
    the block is reported as a failure with its text. *)
Definition process_task (cfg : ClientConfig) (processing_extra_buffer : Q)
    (cid url : string) (task : TaskView) (env : TaskEnv) : bool * list Event :=
  let r := process_task_body cfg processing_extra_buffer cid url task env in
  match r.2 with
  | inr success => (success, r.1)
  | inl msg =>
      (false,
       r.1 ++ [Report url (mkTaskResult (v_task_id task) cid false
                             (e_elapsed_on_error env) (Some msg) None)])
  end.

(** The requests of the worker as the broker receives them.  [now] is the
    broker's clock at the report, [io] the outcome of its file work at the
    upload; the downloads read the store only. *)
Definition deliver (results_dir : string) (now : Q) (io : UploadIO) (e : Event)
    : option Request :=
  match e with
  | Confirm _ tid cid => Some (StartProcessing tid cid)
  | Report _ r => Some (ReportResult r now)
  | Upload _ tid _ => Some (UploadResult results_dir tid io)
  | DownloadFiles _ _ | Lightroom _ _ _ _ => None
  end.

(** The answer the worker sees for a handler's response. *)
Definition http_of {A} (r : Response A) : HttpReply :=
  match r with
  | Ok200 _ => HttpStatus 200 None
  | HTTPException status_code _ => HttpStatus status_code None
  end.

Definition is_report (e : Event) : bool :=
  match e with
  | Report _ _ => true
  | _ => false
  end.

Definition is_upload (e : Event) : bool :=
  match e with
  | Upload _ _ _ => true
  | _ => false
  end.

(** Events that send nothing to the broker's state-changing endpoints. *)
Definition is_local (e : Event) : bool :=
  match e with
  | DownloadFiles _ _ | Lightroom _ _ _ _ => true
  | _ => false
  end.

(** A run of [process_task] that got past the confirmation: local work,
    then one report for the task, carrying the value returned, then at
    most the upload of the output path that the report names. *)
Definition reported_once (cid url tid : string) (r : bool * list Event) : Prop :=
  exists pre rep post,
    r.2 = Confirm url tid cid :: pre ++ Report url rep :: post /\
    forallb is_local pre = true /\
    r_task_id rep = tid /\ r_client_id rep = cid /\ r_success rep = r.1 /\
    (post = [] \/
     r.1 = true /\ exists path d,
       post = [Upload url tid path] /\ path <> "" /\
       r_result_data rep = Some d /\
       PyDict.get "output_path" d = Some (VStr path)).

(** A worker whose files are in place and whose Lightroom bridge answers
    200 with an output path; the broker accepts the confirmation. *)
Definition env_smooth : TaskEnv :=
  mkTaskEnv (HttpStatus 200 None) (Downloaded "/tmp/job") (fun _ => Present)
            (fun _ => Some "Exposure = 0.5")
            (LrStatus 200 (Some [("output_path", VStr "/tmp/out.jpg")]) (Text ""))
            (fun _ => false) 3 3 true ImageRead (HttpStatus 200 None).

(** The same worker when the broker answers the confirmation with 403. *)
Definition env_refused : TaskEnv :=
  mkTaskEnv (HttpStatus 403 None) (Downloaded "/tmp/job") (fun _ => Present)
            (fun _ => Some "Exposure = 0.5")
            (LrStatus 200 (Some [("output_path", VStr "/tmp/out.jpg")]) (Text ""))
            (fun _ => false) 3 3 true ImageRead (HttpStatus 200 None).

(** A request of somebody else that leaves the worker's lease on [tid]
    alone: it does not submit [tid] again, it is no report for [tid] under
    the worker's own id [cid], and it is no sweep late enough to reset a
    processing task created at [created]. *)
Definition keeps_lease (tid cid : string) (created : Q) (rq : Request) : Prop :=
  match rq with
  | SubmitTask tid' _ _ _ | SubmitTaskWithFiles _ tid' _ _ _ => tid' <> tid
  | ReportResult r _ => ~ (r_task_id r = tid /\ r_client_id r = cid)
  | Cleanup now => now - created <= 1800
  | _ => True
  end.

(** The broker's trace when the worker's requests [reqs] are served among
    those of others: [mid] between the confirmation and the report, [gap]
    between the report and what the worker sends after it, [tail] after
    that.  A worker that stops after the confirmation leaves the others'
    requests. *)
Definition among (mid gap tail : list Request) (reqs : list Request)
    : list Request :=
  match reqs with
  | confirm :: report :: rest => confirm :: mid ++ report :: gap ++ rest ++ tail
  | _ => reqs ++ mid ++ gap ++ tail
  end.

(** ** The block of [report_result], statement by statement *)

(** The four statements that follow the two guards: the status, the
    result, the entry in [completed_tasks], the deletion from [tasks]. *)
Inductive ReportOp : Type := OpStatus | OpResult | OpArchive | OpDelete.

(** One statement.  [completed_tasks[task_id] = task] files the object
    that [tasks] holds. *)
Definition report_op (r : TaskResult) (now : Q) (op : ReportOp) (st : Store)
    : Store :=
  let tid := r_task_id r in
  match op with
  | OpStatus =>
      set_tasks (PyDict.modify tid
                   (set_status (if r_success r then COMPLETED else FAILED))
                   (tasks st)) st
  | OpResult =>
      set_tasks (PyDict.modify tid (set_result (Some (result_record r now)))
                   (tasks st)) st
  | OpArchive =>
      match PyDict.get tid (tasks st) with
      | Some task => set_completed (PyDict.set tid task (completed_tasks st)) st
      | None => st
      end
  | OpDelete => set_tasks (PyDict.del tid (tasks st)) st
  end.

(** The statements as the event loop runs them.  A coroutine gives way to
    another only at an [await]; the block has none, and entering
    [task_lock] does not wait, because no coroutine awaits while it holds
    the lock.  So the four statements are one uninterrupted block. *)
Definition report_result_blocks : list (list ReportOp) :=
  [ [OpStatus; OpResult; OpArchive; OpDelete] ].

(** The stores after each statement of [ops]. *)
Fixpoint states_after (r : TaskResult) (now : Q) (ops : list ReportOp) (st : Store)
    : list Store :=
  match ops with
  | [] => []
  | op :: rest =>
      let st1 := report_op r now op st in
      st1 :: states_after r now rest st1
  end.

(** The stores at the ends of the blocks: those that another coroutine
    can find. *)
Fixpoint visible_states (r : TaskResult) (now : Q) (blocks : list (list ReportOp))
    (st : Store) : list Store :=
  match blocks with
  | [] => []
  | block :: rest =>
      let st1 := fold_left (fun s op => report_op r now op s) block st in
      st1 :: visible_states r now rest st1
  end.

(** * Properties *)

(** ** Comparisons *)

Lemma Qltb_lt x y : Qltb x y = true <-> x < y.
Proof.
  unfold Qltb. rewrite negb_true_iff, <- not_true_iff_false, Qle_bool_iff.
  split; [apply Qnot_le_lt | apply Qlt_not_le].
Qed.

Lemma Qltb_ge x y : Qltb x y = false <-> y <= x.
Proof.
  unfold Qltb. rewrite negb_false_iff. apply Qle_bool_iff.
Qed.

Lemma Qgtb_gt x y : Qgtb x y = true <-> y < x.
Proof. apply Qltb_lt. Qed.

Lemma Qgtb_le x y : Qgtb x y = false <-> x <= y.
Proof. apply Qltb_ge. Qed.

Lemma TaskStatus_eqb_eq a b : TaskStatus_eqb a b = true <-> a = b.
Proof. destruct a, b; simpl; split; congruence. Qed.


(** ** Dictionary lemmas *)

Module PyDictFacts.
Import PyDict.
Section Facts.
Context {V : Type}.
Implicit Types (d : PyDict.t V) (k : string) (v : V) (f : V -> V).

Lemma get_Some_elem k v d : get k d = Some v -> (k, v) ∈ d.
Proof.
  induction d as [|[k' v'] d IH]; simpl; [done|].
  destruct (String.eqb_spec k k') as [->|Hne].
  - intros [= ->]. left.
  - intros H. right. auto.
Qed.

Lemma get_None_keys k d : get k d = None <-> k ∉ keys d.
Proof.
  unfold keys. induction d as [|[k' v'] d IH]; simpl.
  - split; [intros _; apply not_elem_of_nil | done].
  - rewrite not_elem_of_cons.
    destruct (String.eqb_spec k k') as [->|Hne]; [|tauto].
    split; [done | intros [? _]; done].
Qed.

Lemma elem_get k v d : wf d -> (k, v) ∈ d -> get k d = Some v.
Proof.
  unfold wf, keys. induction d as [|[k' v'] d IH]; simpl.
  - intros _ H. by apply elem_of_nil in H.
  - intros Hnd Hin. apply NoDup_cons in Hnd as [Hnotin Hnd].
    apply elem_of_cons in Hin as [[= <- <-]|Hin].
    + by rewrite String.eqb_refl.
    + destruct (String.eqb_spec k k') as [->|Hne]; [|auto].
      exfalso. apply Hnotin. apply list_elem_of_fmap. by exists (k', v).
Qed.

Lemma lookup_get i k v d : wf d -> d !! i = Some (k, v) -> get k d = Some v.
Proof.
  intros Hwf Hi. apply elem_get; [done|]. by eapply list_elem_of_lookup_2.
Qed.

Lemma contains_true k d : contains k d = true <-> is_Some (get k d).
Proof.
  unfold contains. destruct (get k d); split; done.
Qed.

Lemma keys_modify k f d : keys (modify k f d) = keys d.
Proof.
  unfold keys. induction d as [|[k' v'] d IH]; csimpl; [done|].
  destruct (String.eqb k k'); csimpl; [done | by rewrite IH].
Qed.

Lemma get_modify k f d : get k (modify k f d) = f <$> get k d.
Proof.
  induction d as [|[k' v'] d IH]; simpl; [done|].
  destruct (String.eqb k k') eqn:E; simpl; rewrite E; done.
Qed.

Lemma get_modify_ne k k' f d : k <> k' -> get k' (modify k f d) = get k' d.
Proof.
  intros Hne. induction d as [|[k2 v2] d IH]; simpl; [done|].
  destruct (String.eqb_spec k k2) as [->|Hne2]; simpl.
  - destruct (String.eqb_spec k' k2); [congruence | done].
  - destruct (String.eqb k' k2); [done | apply IH].
Qed.

Lemma modify_absent k f d : get k d = None -> modify k f d = d.
Proof.
  induction d as [|[k' v'] d IH]; simpl; [done|].
  destruct (String.eqb k k'); [done|]. intros H. by rewrite IH.
Qed.

Lemma get_del k d : wf d -> get k (del k d) = None.
Proof.
  unfold wf, keys. induction d as [|[k' v'] d IH]; simpl; [done|].
  intros Hnd. apply NoDup_cons in Hnd as [Hnotin Hnd].
  destruct (String.eqb_spec k k') as [->|Hne]; simpl.
  - by apply get_None_keys.
  - destruct (String.eqb_spec k k'); [done | auto].
Qed.

Lemma get_del_ne k k' d : k <> k' -> get k' (del k d) = get k' d.
Proof.
  intros Hne. induction d as [|[k2 v2] d IH]; simpl; [done|].
  destruct (String.eqb_spec k k2) as [->|Hne2]; simpl.
  - destruct (String.eqb_spec k' k2); [congruence | done].
  - destruct (String.eqb k' k2); [done | apply IH].
Qed.

Lemma get_set k v d : get k (set k v d) = Some v.
Proof.
  induction d as [|[k' v'] d IH]; simpl.
  - by rewrite String.eqb_refl.
  - destruct (String.eqb k k') eqn:E; simpl; rewrite E; done.
Qed.

Lemma get_set_ne k k' v d : k <> k' -> get k' (set k v d) = get k' d.
Proof.
  intros Hne. induction d as [|[k2 v2] d IH]; simpl.
  - destruct (String.eqb_spec k' k); [congruence | done].
  - destruct (String.eqb_spec k k2) as [->|Hne2]; simpl.
    + destruct (String.eqb_spec k' k2); [congruence | done].
    + destruct (String.eqb k' k2); [done | apply IH].
Qed.

Lemma keys_modify_at i f d : keys (modify_at i f d) = keys d.
Proof.
  unfold keys, modify_at.
  rewrite (list_fmap_alter fst (prod_map id f) id).
  - by apply list_alter_id.
  - apply Forall_forall. by intros [? ?].
Qed.

Lemma wf_modify k f d : wf d -> wf (modify k f d).
Proof. unfold wf. by rewrite keys_modify. Qed.

Lemma wf_modify_at i f d : wf d -> wf (modify_at i f d).
Proof. unfold wf. by rewrite keys_modify_at. Qed.

End Facts.
End PyDictFacts.
Import PyDictFacts.

(** ** The FIFO scan *)

Lemma is_pending_true t : is_pending t = true <-> status t = PENDING.
Proof. apply TaskStatus_eqb_eq. Qed.

Lemma is_pending_false t : is_pending t = false <-> status t <> PENDING.
Proof.
  rewrite <- is_pending_true. destruct (is_pending t); split; congruence.
Qed.

Lemma scan_tasks_app l1 l2 i s :
  scan_tasks (l1 ++ l2) i s = scan_tasks l2 (i + length l1) (scan_tasks l1 i s).
Proof.
  revert i s. induction l1 as [|x l1 IH]; intros i s; simpl.
  - by rewrite Nat.add_0_r.
  - rewrite IH. f_equal. lia.
Qed.

Lemma scan_inv_step vals x s :
  scan_inv vals s -> scan_inv (vals ++ [x]) (scan_step (length vals) x s).
Proof.
  unfold scan_step. destruct s as [[[i t]|] e]; simpl.
  - intros [-> (Hi & Hp & Hmin)]. simpl.
    assert (Hlt : (i < length vals)%nat) by (by eapply lookup_lt_Some).
    destruct (is_pending x) eqn:Hx; simpl.
    + destruct (Qltb (created_at x) (created_at t)) eqn:Hc; simpl.
      * apply Qltb_lt in Hc. split; [done|]. split; [|split].
        -- by rewrite lookup_app_r, Nat.sub_diag.
        -- by apply is_pending_true.
        -- intros j t' Hj Hp'.
           destruct (decide (j < length vals)%nat) as [Hjl|Hjl].
           ++ rewrite lookup_app_l in Hj by done.
              destruct (Hmin j t' Hj Hp') as [Hle _]. split; [lra|]. intros; lra.
           ++ rewrite lookup_app_r in Hj by lia.
              destruct (j - length vals)%nat eqn:E; simpl in Hj; [|done].
              injection Hj as <-. split; [lra | intros; lia].
      * apply Qltb_ge in Hc. split; [done|]. split; [|split; [done|]].
        -- by rewrite lookup_app_l.
        -- intros j t' Hj Hp'.
           destruct (decide (j < length vals)%nat) as [Hjl|Hjl].
           ++ rewrite lookup_app_l in Hj by done. by apply Hmin.
           ++ rewrite lookup_app_r in Hj by lia.
              destruct (j - length vals)%nat eqn:E; simpl in Hj; [|done].
              injection Hj as <-. split; [done | intros; lia].
    + split; [done|]. split; [|split; [done|]].
      * by rewrite lookup_app_l.
      * intros j t' Hj Hp'.
        destruct (decide (j < length vals)%nat) as [Hjl|Hjl].
        -- rewrite lookup_app_l in Hj by done. by apply Hmin.
        -- rewrite lookup_app_r in Hj by lia.
           destruct (j - length vals)%nat eqn:E; simpl in Hj; [|done].
           injection Hj as <-. apply is_pending_false in Hx. done.
  - intros [-> Hall]. simpl. rewrite andb_true_r.
    destruct (is_pending x) eqn:Hx; simpl.
    + apply is_pending_true in Hx. split; [done|]. split; [|split; [done|]].
      * by rewrite lookup_app_r, Nat.sub_diag.
      * intros j t' Hj Hp'.
        destruct (decide (j < length vals)%nat) as [Hjl|Hjl].
        -- rewrite lookup_app_l in Hj by done.
           rewrite Forall_lookup in Hall. by destruct (Hall j t' Hj).
        -- rewrite lookup_app_r in Hj by lia.
           destruct (j - length vals)%nat eqn:E; simpl in Hj; [|done].
           injection Hj as <-. split; [lra | intros; lia].
    + split; [done|]. apply Forall_app. split; [done|].
      apply Forall_singleton. by apply is_pending_false.
Qed.

Lemma scan_tasks_inv vals : scan_inv vals (scan_tasks vals 0 (None, None)).
Proof.
  induction vals as [|x vals IH] using rev_ind.
  - simpl. split; [done | constructor].
  - rewrite scan_tasks_app. simpl. by apply scan_inv_step.
Qed.

Lemma fifo_first_unique vals i t j t' :
  fifo_first vals i t -> fifo_first vals j t' -> i = j /\ t = t'.
Proof.
  intros (Hi & Hp & Hmin) (Hj & Hp' & Hmin').
  destruct (Hmin j t' Hj Hp') as [H1 H2].
  destruct (Hmin' i t Hi Hp) as [H3 H4].
  assert (i = j) as -> by (assert (created_at t == created_at t') by lra;
                           assert (i <= j)%nat by (apply H2; lra);
                           assert (j <= i)%nat by (apply H4; lra); lia).
  split; [done | congruence].
Qed.

Lemma find_available_Some d i t :
  find_available d = Some (i, t) <-> fifo_first (PyDict.values d) i t.
Proof.
  unfold find_available.
  pose proof (scan_tasks_inv (PyDict.values d)) as Hinv.
  destruct (scan_tasks (PyDict.values d) 0 (None, None)) as [[[j u]|] e]; simpl in *.
  - destruct Hinv as [_ Hf]. split.
    + by intros [= -> ->].
    + intros Hf'. destruct (fifo_first_unique _ _ _ _ _ Hf Hf') as [-> ->]. done.
  - destruct Hinv as [_ Hall]. split; [done|].
    intros (Hi & Hp & _). rewrite Forall_lookup in Hall. by destruct (Hall i t Hi).
Qed.

Lemma find_available_None d :
  find_available d = None <-> Forall (fun t => status t <> PENDING) (PyDict.values d).
Proof.
  unfold find_available.
  pose proof (scan_tasks_inv (PyDict.values d)) as Hinv.
  destruct (scan_tasks (PyDict.values d) 0 (None, None)) as [[[j u]|] e]; simpl in *.
  - destruct Hinv as [_ (Hi & Hp & _)]. split; [done|].
    intros Hall. rewrite Forall_lookup in Hall. by destruct (Hall j u Hi).
  - by destruct Hinv.
Qed.

(** ** Claiming *)

Lemma modify_at_lookup {V} i (f : V -> V) (d : PyDict.t V) k v :
  d !! i = Some (k, v) -> PyDict.modify_at i f d = <[i := (k, f v)]> d.
Proof.
  intros Hi. unfold PyDict.modify_at. apply list_eq. intros j.
  destruct (decide (i = j)) as [<-|Hne].
  - rewrite list_lookup_alter_eq, Hi. simpl.
    rewrite list_lookup_insert_eq; [done|]. by eapply lookup_lt_Some.
  - by rewrite list_lookup_alter_ne, list_lookup_insert_ne.
Qed.

Lemma values_lookup {V} (d : PyDict.t V) i v :
  PyDict.values d !! i = Some v <-> exists k, d !! i = Some (k, v).
Proof.
  unfold PyDict.values. rewrite list_lookup_fmap.
  destruct (d !! i) as [[k v']|]; simpl; split.
  - intros [= ->]. by exists k.
  - by intros [k' [= _ ->]].
  - done.
  - by intros [? ?].
Qed.

(** What the locked block does once the caller is known to be registered. *)
Lemma get_task_locked_claims cid t_seen t_read st info i k t :
  clients st !! cid = Some info ->
  tasks st !! i = Some (k, t) ->
  fifo_first (PyDict.values (tasks st)) i t ->
  get_task_locked cid t_seen t_read st =
    (Ok200 (Some (view_of t)),
     mkStore (<[i := (k, claim_task cid t_read t)]> (tasks st))
             (<[cid := set_last_seen t_seen info]> (clients st))
             (completed_tasks st)).
Proof.
  intros Hc Hi Hf. unfold get_task_locked. rewrite Hc. simpl.
  apply find_available_Some in Hf. rewrite Hf.
  unfold set_tasks. simpl. by rewrite (modify_at_lookup _ _ _ _ _ Hi).
Qed.

Lemma get_task_locked_idle cid t_seen t_read st info :
  clients st !! cid = Some info ->
  Forall (fun t => status t <> PENDING) (PyDict.values (tasks st)) ->
  get_task_locked cid t_seen t_read st =
    (Ok200 None, set_clients (<[cid := set_last_seen t_seen info]> (clients st)) st).
Proof.
  intros Hc Hall. unfold get_task_locked. rewrite Hc. simpl.
  apply find_available_None in Hall. by rewrite Hall.
Qed.

Lemma pending_has_first vals :
  Exists (fun t => status t = PENDING) vals -> exists i t, fifo_first vals i t.
Proof.
  intros Hex. pose proof (scan_tasks_inv vals) as Hinv.
  destruct (scan_tasks vals 0 (None, None)) as [[[j u]|] e]; simpl in Hinv.
  - destruct Hinv as [_ Hf]. eauto.
  - destruct Hinv as [_ Hall]. apply Exists_exists in Hex as (t & Hin & Hp).
    rewrite Forall_forall in Hall. by destruct (Hall t Hin).
Qed.

(** C9: an unregistered worker is refused with 403 and nothing changes; a
    registered worker that finds no pending task gets status 200 with the
    empty body, and only its [last_seen] is refreshed. *)
Theorem get_task_unregistered_or_idle cid t_seen t_read st :
  (clients st !! cid = None ->
     get_task cid t_seen t_read st =
       (HTTPException 403 "Client not registered, please register first", st)) /\
  (forall info,
     clients st !! cid = Some info ->
     Forall (fun t => status t <> PENDING) (PyDict.values (tasks st)) ->
     get_task cid t_seen t_read st =
       (Ok200 None,
        set_clients (<[cid := set_last_seen t_seen info]> (clients st)) st)).
Proof.
  unfold get_task. split.
  - by intros ->.
  - intros info Hc Hall. rewrite Hc. by apply get_task_locked_idle.
Qed.

(** C2: with a pending task in the store, a registered worker's claim returns
    the pending task with the smallest [created_at], the first one met in
    dictionary order among equals; exactly that entry is rewritten, to
    READING with the caller as owner and [read_at] the clock reading; the
    reply is a record of field values of that task. *)
Theorem get_task_fifo cid t_seen t_read st info :
  clients st !! cid = Some info ->
  Exists (fun t => status t = PENDING) (PyDict.values (tasks st)) ->
  exists i k t,
    tasks st !! i = Some (k, t) /\
    fifo_first (PyDict.values (tasks st)) i t /\
    get_task cid t_seen t_read st =
      (Ok200 (Some (view_of t)),
       mkStore (<[i := (k, claim_task cid t_read t)]> (tasks st))
               (<[cid := set_last_seen t_seen info]> (clients st))
               (completed_tasks st)) /\
    claim_task cid t_read t =
      mkTask (task_id t) (photo_path t) (xmp_path t) (created_at t) READING
             (Some cid) (Some t_read) (read_timeout t) (result t)
             (file_package_path t) (requires_download t) /\
    view_of t =
      mkTaskView (task_id t) (photo_path t) (xmp_path t) (created_at t)
                 (requires_download t) (file_package_path t) (read_timeout t).
Proof.
  intros Hc Hex.
  destruct (pending_has_first _ Hex) as (i & t & Hf).
  destruct Hf as (Hi & Hrest). pose proof Hi as Hi'.
  apply values_lookup in Hi' as [k Hk].
  exists i, k, t. split; [done|]. split; [by split|]. split; [|done].
  unfold get_task. rewrite Hc.
  apply get_task_locked_claims; [done | done | by split].
Qed.

Lemma get_task_unregistered_or_idle_witness :
  get_task "w3" 10 11 st_pending =
    (HTTPException 403 "Client not registered, please register first", st_pending) /\
  get_task "w2" 10 11 st_busy =
    (Ok200 None,
     set_clients (<["w2" := set_last_seen 10 (sample_client "w2")]> (clients st_busy))
                 st_busy).
Proof.
  split.
  - apply (proj1 (get_task_unregistered_or_idle "w3" 10 11 st_pending)).
    reflexivity.
  - apply (proj2 (get_task_unregistered_or_idle "w2" 10 11 st_busy)).
    + reflexivity.
    + repeat constructor. discriminate.
Defined.

Lemma get_task_fifo_witness :
  exists i k t,
    tasks st_pending !! i = Some (k, t) /\
    fifo_first (PyDict.values (tasks st_pending)) i t /\
    get_task "w1" 10 11 st_pending =
      (Ok200 (Some (view_of t)),
       mkStore (<[i := (k, claim_task "w1" 11 t)]> (tasks st_pending))
               (<["w1" := set_last_seen 10 (sample_client "w1")]> (clients st_pending))
               (completed_tasks st_pending)) /\
    claim_task "w1" 11 t =
      mkTask (task_id t) (photo_path t) (xmp_path t) (created_at t) READING
             (Some "w1") (Some 11) (read_timeout t) (result t)
             (file_package_path t) (requires_download t) /\
    view_of t =
      mkTaskView (task_id t) (photo_path t) (xmp_path t) (created_at t)
                 (requires_download t) (file_package_path t) (read_timeout t).
Proof.
  apply (get_task_fifo "w1" 10 11 st_pending (sample_client "w1")).
  - reflexivity.
  - apply Exists_cons. left. reflexivity.
Defined.

(** On [st_pending] the claim hands out [b]: created before [a], met
    before [c]. *)
Example claim_on_st_pending :
  (get_task "w1" 10 11 st_pending).1 =
    Ok200 (Some (mkTaskView "b" "b.jpg" "b.lua" 3 false None 10)).
Proof. reflexivity. Qed.

(** ** Confirming and reporting *)

Lemma owned_by_true t cid : owned_by t cid = true <-> client_id t = Some cid.
Proof.
  unfold owned_by. destruct (client_id t) as [c|]; [|done].
  rewrite String.eqb_eq. split; congruence.
Qed.

Lemma owned_by_false t cid : owned_by t cid = false <-> client_id t <> Some cid.
Proof.
  rewrite <- owned_by_true. destruct (owned_by t cid); split; congruence.
Qed.

Lemma TaskStatus_eqb_neq a b : TaskStatus_eqb a b = false <-> a <> b.
Proof.
  rewrite <- TaskStatus_eqb_eq. destruct (TaskStatus_eqb a b); split; congruence.
Qed.

Lemma start_processing_ok tid cid st task :
  PyDict.get tid (tasks st) = Some task ->
  client_id task = Some cid ->
  status task = READING ->
  start_processing tid cid st =
    (Ok200 tid, set_tasks (PyDict.modify tid (set_status PROCESSING) (tasks st)) st).
Proof.
  intros Hg Ho Hs. unfold start_processing. rewrite Hg.
  apply owned_by_true in Ho. rewrite Ho. simpl.
  apply TaskStatus_eqb_eq in Hs. by rewrite Hs.
Qed.

Lemma report_result_ok r now st task :
  PyDict.get (r_task_id r) (tasks st) = Some task ->
  client_id task = Some (r_client_id r) ->
  report_result r now st =
    (Ok200 (r_task_id r),
     mkStore (PyDict.del (r_task_id r)
                (PyDict.modify (r_task_id r) (finish_task r now) (tasks st)))
             (clients st)
             (PyDict.set (r_task_id r) (finish_task r now task) (completed_tasks st))).
Proof.
  intros Hg Ho. unfold report_result. rewrite Hg.
  apply owned_by_true in Ho. by rewrite Ho.
Qed.

(** C4: a worker that is not the task's owner (also when the task has no
    owner) gets 403 from both [start_processing] and [report_result] and the
    store is untouched; [start_processing] answers 404 for an id that is not
    among the active tasks, 400 when the caller owns the task but it is not
    READING, and only in the remaining case moves READING to PROCESSING. *)
Theorem ownership_is_enforced tid cid st :
  (forall task,
     PyDict.get tid (tasks st) = Some task ->
     client_id task <> Some cid ->
     start_processing tid cid st =
       (HTTPException 403 "Task does not belong to this client", st) /\
     forall r now,
       r_task_id r = tid -> r_client_id r = cid ->
       report_result r now st =
         (HTTPException 403 "Task does not belong to this client", st)) /\
  (PyDict.get tid (tasks st) = None ->
     start_processing tid cid st = (HTTPException 404 "Task does not exist", st)) /\
  (forall task,
     PyDict.get tid (tasks st) = Some task ->
     client_id task = Some cid ->
     status task <> READING ->
     exists detail, start_processing tid cid st = (HTTPException 400 detail, st)) /\
  (forall task,
     PyDict.get tid (tasks st) = Some task ->
     client_id task = Some cid ->
     status task = READING ->
     exists st',
       start_processing tid cid st = (Ok200 tid, st') /\
       PyDict.get tid (tasks st') = Some (set_status PROCESSING task) /\
       (forall k, k <> tid -> PyDict.get k (tasks st') = PyDict.get k (tasks st)) /\
       clients st' = clients st /\ completed_tasks st' = completed_tasks st).
Proof.
  split; [|split; [|split]].
  - intros task Hg Ho. apply owned_by_false in Ho. split.
    + unfold start_processing. by rewrite Hg, Ho.
    + intros r now <- <-. unfold report_result. by rewrite Hg, Ho.
  - intros Hg. unfold start_processing. by rewrite Hg.
  - intros task Hg Ho Hs. unfold start_processing. rewrite Hg.
    apply owned_by_true in Ho. rewrite Ho. simpl.
    apply TaskStatus_eqb_neq in Hs. rewrite Hs. simpl. eauto.
  - intros task Hg Ho Hs. eexists. split; [by eapply start_processing_ok|].
    simpl. split; [by rewrite get_modify, Hg|]. split; [|done].
    intros k Hk. by apply get_modify_ne.
Qed.

Lemma ownership_is_enforced_witness :
  (start_processing "a" "w2" st_reading =
     (HTTPException 403 "Task does not belong to this client", st_reading) /\
   report_result (report_ok "a" "w2") 9 st_reading =
     (HTTPException 403 "Task does not belong to this client", st_reading)) /\
  start_processing "z" "w1" st_reading =
    (HTTPException 404 "Task does not exist", st_reading) /\
  (exists detail,
     start_processing "a" "w1" st_busy = (HTTPException 400 detail, st_busy)) /\
  (exists st',
     start_processing "a" "w1" st_reading = (Ok200 "a", st') /\
     PyDict.get "a" (tasks st') =
       Some (mkTask "a" "a.jpg" "a.lua" 5 PROCESSING (Some "w1") (Some 6)
                    10 None None false)).
Proof.
  pose proof (ownership_is_enforced "a" "w2" st_reading) as (Hforbid & _).
  pose proof (ownership_is_enforced "z" "w1" st_reading) as (_ & Hmissing & _).
  pose proof (ownership_is_enforced "a" "w1" st_busy) as (_ & _ & Hstate & _).
  pose proof (ownership_is_enforced "a" "w1" st_reading) as (_ & _ & _ & Hok).
  split; [|split; [|split]].
  - edestruct Hforbid as [H1 H2]; [reflexivity | discriminate |].
    split; [exact H1 | by apply H2].
  - by apply Hmissing.
  - eapply Hstate; [reflexivity | reflexivity | discriminate].
  - edestruct Hok as (st' & H1 & H2 & _); [reflexivity..|].
    exists st'. split; [exact H1 | exact H2].
Defined.

(** ** Uploading *)

Lemma upload_result_saved dir tid ts size st task :
  PyDict.get tid (completed_tasks st) = Some task ->
  upload_result dir tid (IOSaved ts size) st =
    (Ok200 (mkUploadReply tid (processed_path dir tid)
                          (task_result_dir dir tid) size),
     set_completed
       (PyDict.modify tid (attach_upload (processed_path dir tid) ts size)
          (completed_tasks st)) st).
Proof.
  intros Hg. unfold upload_result, PyDict.contains. by rewrite Hg.
Qed.

(** C7, as the code has it: an upload is refused with 404 exactly when the
    id is not in the archive; for an archived task, COMPLETED or FAILED
    alike, it is accepted when the file has been saved and verified, and
    answered 500 when saving fails or the result folder cannot be made,
    never 404; the task's status is never looked at and no 400 is ever
    produced. *)
Theorem upload_result_gate dir tid io st :
  (PyDict.get tid (completed_tasks st) = None ->
     upload_result dir tid io st =
       (HTTPException 404 "Task does not exist or not completed", st)) /\
  (forall task ts size,
     PyDict.get tid (completed_tasks st) = Some task ->
     io = IOSaved ts size ->
     exists reply st',
       upload_result dir tid io st = (Ok200 reply, st') /\
       u_task_id reply = tid /\ u_file_size reply = size /\
       exists task',
         PyDict.get tid (completed_tasks st') = Some task' /\
         status task' = status task /\
         tasks st' = tasks st /\ clients st' = clients st) /\
  (forall task msg,
     PyDict.get tid (completed_tasks st) = Some task ->
     io = IOError msg ->
     upload_result dir tid io st = (HTTPException 500 ("Save failed: " +:+ msg), st)) /\
  (forall code detail st',
     upload_result dir tid io st = (HTTPException code detail, st') ->
     code <> 400%Z /\ st' = st) /\
  (forall task,
     PyDict.get tid (completed_tasks st) = Some task ->
     io = IOMkdirError ->
     upload_result dir tid io st = (HTTPException 500 "Internal Server Error", st)) /\
  ((exists detail st',
      upload_result dir tid io st = (HTTPException 404 detail, st')) <->
   PyDict.get tid (completed_tasks st) = None) /\
  (forall task,
     PyDict.get tid (completed_tasks st) = Some task ->
     (exists reply st', upload_result dir tid io st = (Ok200 reply, st')) \/
     (exists detail, upload_result dir tid io st = (HTTPException 500 detail, st))).
Proof.
  split; [|split; [|split; [|split; [|split; [|split]]]]].
  7:{ intros task Hg. unfold upload_result, PyDict.contains. rewrite Hg. simpl.
      destruct io; [right | right | left]; by eexists; try eexists. }
  6:{ split.
      - intros (detail & st' & H). unfold upload_result, PyDict.contains in H.
        destruct (PyDict.get tid (completed_tasks st)); [|done].
        simpl in H. by destruct io.
      - intros Hg. unfold upload_result, PyDict.contains. rewrite Hg.
        by do 2 eexists. }
  5:{ intros task Hg ->. unfold upload_result, PyDict.contains. by rewrite Hg. }
  - intros Hg. unfold upload_result, PyDict.contains. by rewrite Hg.
  - intros task ts size Hg ->. do 2 eexists.
    split; [by eapply upload_result_saved|]. simpl.
    split; [done|]. split; [done|].
    eexists. rewrite get_modify, Hg. simpl. done.
  - intros task msg Hg ->. unfold upload_result, PyDict.contains. by rewrite Hg.
  - intros code detail st'. unfold upload_result.
    destruct (negb _); [by intros [= <- _ <-]|].
    destruct io; [by intros [= <- _ <-] | by intros [= <- _ <-] | done].
Qed.

Lemma upload_result_gate_witness :
  upload_result "results" "z" (IOSaved 12 2048) st_failed =
    (HTTPException 404 "Task does not exist or not completed", st_failed) /\
  (exists reply st',
     upload_result "results" "a" (IOSaved 12 2048) st_failed = (Ok200 reply, st') /\
     exists task',
       PyDict.get "a" (completed_tasks st') = Some task' /\ status task' = FAILED) /\
  upload_result "results" "a" (IOError "disk full") st_failed =
    (HTTPException 500 "Save failed: disk full", st_failed).
Proof.
  pose proof (upload_result_gate "results" "z" (IOSaved 12 2048) st_failed)
    as (Hmissing & _).
  pose proof (upload_result_gate "results" "a" (IOSaved 12 2048) st_failed)
    as (_ & Hsaved & _).
  pose proof (upload_result_gate "results" "a" (IOError "disk full") st_failed)
    as (_ & _ & Herror & _).
  split; [|split].
  - by apply Hmissing.
  - edestruct Hsaved as (reply & st' & H1 & _ & _ & task' & H2 & H3 & _);
      [reflexivity | reflexivity |].
    exists reply, st'. split; [exact H1|]. exists task'. split; [exact H2 | exact H3].
  - eapply Herror; reflexivity.
Defined.

(** C7 as stated fails: [a] is archived with status FAILED, and the upload
    for it is answered 200. *)
Lemma upload_for_failed_job_accepted :
  status <$> PyDict.get "a" (completed_tasks st_failed) = Some FAILED /\
  exists st',
    upload_result "results" "a" (IOSaved 12 2048) st_failed =
      (Ok200 (mkUploadReply "a" "results/a/processed.jpg" "results/a" 2048), st').
Proof.
  split; [reflexivity | eexists; reflexivity].
Qed.

(** ** The registry and the other handlers *)

Lemma purge_clients_lookup now c cid :
  purge_clients now c !! cid =
    match c !! cid with
    | Some info => if Qgtb (now - c_last_seen info) 600 then None else Some info
    | None => None
    end.
Proof.
  unfold purge_clients. rewrite map_lookup_filter.
  destruct (c !! cid) as [info|]; simpl; [|done].
  destruct (Qgtb (now - c_last_seen info) 600); by case_guard.
Qed.

(** C10: [start_processing], [report_result] and [upload_result] give the
    same answer whatever the registry holds and leave it alone; the sweep
    drops a worker last seen more than 600 seconds ago; and a worker absent
    from the registry is refused by [get_task] but can confirm a task it
    owns in READING, report its result and upload the artifact. *)
Theorem registry_only_guards_claims :
  (forall tid cid st c',
     start_processing tid cid (set_clients c' st) =
       prod_map id (set_clients c') (start_processing tid cid st)) /\
  (forall r now st c',
     report_result r now (set_clients c' st) =
       prod_map id (set_clients c') (report_result r now st)) /\
  (forall dir tid io st c',
     upload_result dir tid io (set_clients c' st) =
       prod_map id (set_clients c') (upload_result dir tid io st)) /\
  (forall now st cid info,
     clients st !! cid = Some info ->
     600 < now - c_last_seen info ->
     clients (cleanup_iteration now st) !! cid = None) /\
  (forall st cid tid task r now dir ts size t_seen t_read,
     clients st !! cid = None ->
     PyDict.get tid (tasks st) = Some task ->
     client_id task = Some cid ->
     status task = READING ->
     r_task_id r = tid -> r_client_id r = cid ->
     exists st1 st2 st3 reply,
       start_processing tid cid st = (Ok200 tid, st1) /\
       report_result r now st1 = (Ok200 tid, st2) /\
       upload_result dir tid (IOSaved ts size) st2 = (Ok200 reply, st3) /\
       clients st3 = clients st /\
       get_task cid t_seen t_read st3 =
         (HTTPException 403 "Client not registered, please register first", st3)).
Proof.
  split; [|split; [|split; [|split]]].
  - intros tid cid st c'. unfold start_processing. simpl.
    destruct (PyDict.get tid (tasks st)) as [task|]; [|done].
    destruct (negb (owned_by task cid)); [done|].
    by destruct (negb (TaskStatus_eqb (status task) READING)).
  - intros r now st c'. unfold report_result. simpl.
    destruct (PyDict.get (r_task_id r) (tasks st)) as [task|]; [|done].
    by destruct (negb (owned_by task (r_client_id r))).
  - intros dir tid io st c'. unfold upload_result. simpl.
    destruct (negb _); [done|]. by destruct io.
  - intros now st cid info Hc Hold. simpl.
    rewrite purge_clients_lookup, Hc.
    apply Qgtb_gt in Hold. by rewrite Hold.
  - intros st cid tid task r now dir ts size t_seen t_read
      Hc Hg Ho Hs <- <-.
    do 4 eexists. split; [by eapply start_processing_ok|].
    split.
    { eapply report_result_ok; simpl.
      - by rewrite get_modify, Hg.
      - done. }
    split.
    { eapply upload_result_saved. simpl. apply get_set. }
    simpl. split; [done|].
    unfold get_task. simpl. by rewrite Hc.
Qed.

Lemma registry_only_guards_claims_witness :
  clients (cleanup_iteration 700 st_silent) !! "w1" = None /\
  exists st1 st2 st3 reply,
    start_processing "a" "w1" st_unregistered = (Ok200 "a", st1) /\
    report_result (report_ok "a" "w1") 9 st1 = (Ok200 "a", st2) /\
    upload_result "results" "a" (IOSaved 12 2048) st2 = (Ok200 reply, st3) /\
    clients st3 = clients st_unregistered /\
    get_task "w1" 20 21 st3 =
      (HTTPException 403 "Client not registered, please register first", st3).
Proof.
  pose proof registry_only_guards_claims as (_ & _ & _ & Hpurge & Hserve).
  split.
  - apply (Hpurge 700 st_silent "w1" (sample_client "w1")); [reflexivity|].
    reflexivity.
  - eapply (Hserve st_unregistered "w1" "a"); reflexivity.
Defined.

(** The sweep that drops [w1] leaves the task it is processing in place,
    and [w1] can then report and upload. *)
Example purged_worker_reports :
  let st1 := cleanup_iteration 700 st_silent in
  clients st1 !! "w1" = None /\
  PyDict.get "a" (tasks st1) = PyDict.get "a" (tasks st_silent) /\
  (report_result (report_ok "a" "w1") 701 st1).1 = Ok200 "a" /\
  (upload_result "results" "a" (IOSaved 702 2048)
     (report_result (report_ok "a" "w1") 701 st1).2).1 =
    Ok200 (mkUploadReply "a" "results/a/processed.jpg" "results/a" 2048).
Proof. vm_compute. repeat split. Qed.

(** ** The timeout estimator *)

(** C8: with base 5, mask increment 5 and mask ceiling 120, a preset that
    has the mask group and three mask markers gets 20 seconds; a preset
    with neither the mask group nor any of the four complex operations gets
    the base timeout. *)
Theorem timeout_estimate cfg lua_content :
  (base_processing_timeout cfg = 5 ->
   mask_increment_seconds cfg = 5 ->
   max_timeout_mask cfg = 120 ->
   str_contains mask_gate lua_content = true ->
   str_count mask_marker lua_content = 3%nat ->
   calculate_processing_timeout cfg (Some lua_content) = 20) /\
  (str_contains mask_gate lua_content = false ->
   Forall (fun op => str_contains op lua_content = false) complex_operations ->
   calculate_processing_timeout cfg (Some lua_content) = base_processing_timeout cfg).
Proof.
  split.
  - intros Hb Hi Hm Hgate Hcount. unfold calculate_processing_timeout.
    rewrite Hgate, Hcount, Hb, Hi, Hm. reflexivity.
  - intros Hgate Hops. unfold calculate_processing_timeout. rewrite Hgate.
    replace (List.filter _ complex_operations) with (@nil string); [done|].
    symmetry. induction Hops as [|op ops Hop _ IH]; simpl; [done|].
    by rewrite Hop.
Qed.

Lemma timeout_estimate_witness :
  calculate_processing_timeout scenario_config (Some lua_three_masks) = 20 /\
  calculate_processing_timeout scenario_config (Some lua_simple) = 5.
Proof.
  split.
  - apply (proj1 (timeout_estimate scenario_config lua_three_masks));
      reflexivity.
  - apply (proj2 (timeout_estimate scenario_config lua_simple)).
    + reflexivity.
    + repeat constructor.
Defined.

(** The markers only count inside a mask group, and a large mask count is
    capped. *)
Example markers_without_mask_group :
  calculate_processing_timeout scenario_config
    (Some (mask_marker +:+ mask_marker +:+ mask_marker)) = 5.
Proof. reflexivity. Qed.

Example unreadable_preset :
  calculate_processing_timeout scenario_config None = 30.
Proof. reflexivity. Qed.

(** ** The sweep *)

Lemma collect_ids_keys cond (d : PyDict.t Task) k :
  k ∈ collect_ids cond d -> k ∈ PyDict.keys d.
Proof.
  unfold collect_ids, PyDict.keys. rewrite !list_elem_of_fmap.
  intros ([k' t] & -> & Hin). exists (k', t). split; [done|].
  apply list_elem_of_In in Hin. apply filter_In in Hin as [Hin _].
  by apply list_elem_of_In.
Qed.

Lemma reset_all_cons_notin k t ids (rest : PyDict.t Task) :
  k ∉ ids -> reset_all ids ((k, t) :: rest) = (k, t) :: reset_all ids rest.
Proof.
  unfold reset_all. revert t rest.
  induction ids as [|a ids IH]; intros t rest Hk; simpl; [done|].
  apply not_elem_of_cons in Hk as [Hne Hk].
  destruct (String.eqb_spec a k) as [->|_]; [done|]. by apply IH.
Qed.

Lemma collect_ids_cons cond k t (d : PyDict.t Task) :
  collect_ids cond ((k, t) :: d) =
    if cond t then k :: collect_ids cond d else collect_ids cond d.
Proof. unfold collect_ids. simpl. by destruct (cond t). Qed.

Lemma reset_all_cons tid ids (d : PyDict.t Task) :
  reset_all (tid :: ids) d = reset_all ids (PyDict.modify tid reset_task d).
Proof. done. Qed.

(** On a dictionary, collecting the ids and then resetting them one by one
    is one pass over the entries. *)
Lemma reap_pass_map cond (d : PyDict.t Task) :
  PyDict.wf d ->
  reap_pass cond d = (fun kv => (kv.1, reap_one cond kv.2)) <$> d.
Proof.
  unfold PyDict.wf, PyDict.keys, reap_pass.
  induction d as [|[k t] d IH]; intros Hnd; [done|].
  apply NoDup_cons in Hnd as [Hk Hnd]. csimpl.
  assert (Hnotin : k ∉ collect_ids cond d).
  { intros Hin. apply Hk. by eapply collect_ids_keys. }
  rewrite collect_ids_cons. unfold reap_one at 1.
  destruct (cond t) eqn:Hc.
  - rewrite reset_all_cons. simpl. rewrite String.eqb_refl.
    rewrite reset_all_cons_notin by done. by rewrite IH.
  - rewrite reset_all_cons_notin by done. by rewrite IH.
Qed.

Lemma get_fmap_values {V} (f : V -> V) (d : PyDict.t V) k :
  PyDict.get k ((fun kv => (kv.1, f kv.2)) <$> d) = f <$> PyDict.get k d.
Proof.
  induction d as [|[k' v] d IH]; csimpl; [done|].
  by destruct (String.eqb k k').
Qed.

Lemma keys_fmap_values {V} (f : V -> V) (d : PyDict.t V) :
  PyDict.keys ((fun kv => (kv.1, f kv.2)) <$> d) = PyDict.keys d.
Proof.
  unfold PyDict.keys. rewrite <- list_fmap_compose. by apply list_fmap_ext.
Qed.

Lemma reap_tasks_map now (d : PyDict.t Task) :
  PyDict.wf d ->
  reap_tasks now d =
    (fun kv => (kv.1, reap_one (processing_stale now)
                        (reap_one (read_expired now) kv.2))) <$> d.
Proof.
  intros Hwf. unfold reap_tasks.
  rewrite (reap_pass_map (read_expired now) d Hwf).
  rewrite reap_pass_map.
  - rewrite <- list_fmap_compose. by apply list_fmap_ext.
  - unfold PyDict.wf. by rewrite keys_fmap_values.
Qed.

Lemma get_reap_tasks now (d : PyDict.t Task) k :
  PyDict.wf d ->
  PyDict.get k (reap_tasks now d) =
    reap_one (processing_stale now) <$>
      (reap_one (read_expired now) <$> PyDict.get k d).
Proof.
  intros Hwf. rewrite reap_tasks_map by done.
  rewrite (get_fmap_values
             (fun t => reap_one (processing_stale now) (reap_one (read_expired now) t))).
  by destruct (PyDict.get k d).
Qed.

Lemma wf_reap_tasks now (d : PyDict.t Task) :
  PyDict.wf d -> PyDict.wf (reap_tasks now d).
Proof.
  intros Hwf. rewrite reap_tasks_map by done.
  unfold PyDict.wf.
  by rewrite (keys_fmap_values
                (fun t => reap_one (processing_stale now) (reap_one (read_expired now) t))).
Qed.

(** C6: the sweep sends a PROCESSING task back to PENDING, without owner
    and [read_at], exactly when more than 1800 seconds have passed since its
    [created_at]; when it was claimed or confirmed plays no part. *)
Theorem processing_reaped_by_age now d tid task :
  PyDict.wf d ->
  PyDict.get tid d = Some task ->
  status task = PROCESSING ->
  (1800 < now - created_at task ->
     PyDict.get tid (reap_tasks now d) = Some (reset_task task)) /\
  (now - created_at task <= 1800 ->
     PyDict.get tid (reap_tasks now d) = Some task) /\
  reset_task task =
    mkTask (task_id task) (photo_path task) (xmp_path task) (created_at task)
           PENDING None None (read_timeout task) (result task)
           (file_package_path task) (requires_download task).
Proof.
  intros Hwf Hg Hs. rewrite get_reap_tasks, Hg by done. simpl.
  assert (Hr : reap_one (read_expired now) task = task).
  { unfold reap_one, read_expired. by rewrite Hs. }
  rewrite Hr. unfold reap_one, processing_stale. rewrite Hs. simpl.
  split; [|split; [|done]].
  - intros Hold. apply Qgtb_gt in Hold. by rewrite Hold.
  - intros Hyoung. apply Qgtb_le in Hyoung. by rewrite Hyoung.
Qed.

Lemma processing_reaped_by_age_witness :
  PyDict.get "a" (reap_tasks 1801 (tasks st_late_start)) =
    Some (mkTask "a" "a.jpg" "a.lua" 0 PENDING None None 10 None None false) /\
  PyDict.get "a" (reap_tasks 1800 (tasks st_late_start)) =
    Some (mkTask "a" "a.jpg" "a.lua" 0 PROCESSING (Some "w1") (Some 1795) 10
                 None None false).
Proof.
  pose proof (processing_reaped_by_age 1801 (tasks st_late_start) "a"
                (mkTask "a" "a.jpg" "a.lua" 0 PROCESSING (Some "w1") (Some 1795)
                        10 None None false)) as Hold.
  pose proof (processing_reaped_by_age 1800 (tasks st_late_start) "a"
                (mkTask "a" "a.jpg" "a.lua" 0 PROCESSING (Some "w1") (Some 1795)
                        10 None None false)) as Hyoung.
  split.
  - apply Hold; try reflexivity.
    repeat constructor; apply not_elem_of_nil.
  - apply Hyoung; try reflexivity.
    + repeat constructor; apply not_elem_of_nil.
    + discriminate.
Defined.

(** ** Sequences of claims *)

Lemma modify_at_modify {V} i (f : V -> V) (d : PyDict.t V) k v :
  PyDict.wf d -> d !! i = Some (k, v) ->
  PyDict.modify_at i f d = PyDict.modify k f d.
Proof.
  unfold PyDict.wf, PyDict.keys, PyDict.modify_at.
  revert i. induction d as [|[k' v'] d IH]; intros i Hnd Hi; [done|].
  apply NoDup_cons in Hnd as [Hk Hnd]. destruct i as [|i]; simpl in *.
  - injection Hi as -> ->. by rewrite String.eqb_refl.
  - destruct (String.eqb_spec k k') as [->|Hne].
    + exfalso. apply Hk. apply list_elem_of_fmap. exists (k', v).
      split; [done|]. by eapply list_elem_of_lookup_2.
    + f_equal. by apply IH.
Qed.

Lemma collect_ids_get cond (d : PyDict.t Task) k :
  PyDict.wf d -> k ∈ collect_ids cond d ->
  exists t, PyDict.get k d = Some t /\ cond t = true.
Proof.
  intros Hwf. unfold collect_ids, PyDict.keys. rewrite list_elem_of_fmap.
  intros ([k' t] & -> & Hin). apply list_elem_of_In, filter_In in Hin as [Hin Hc].
  exists t. split; [|done]. apply elem_get; [done|]. by apply list_elem_of_In.
Qed.

Lemma collect_ids_modify cond f (d : PyDict.t Task) k t :
  PyDict.get k d = Some t -> cond t = true -> cond (f t) = false ->
  collect_ids cond d ≡ₚ k :: collect_ids cond (PyDict.modify k f d).
Proof.
  intros Hg Ht Hft. induction d as [|[k' v] d IH]; simpl in *; [done|].
  destruct (String.eqb_spec k k') as [->|Hne].
  - injection Hg as ->. by rewrite !collect_ids_cons, Ht, Hft.
  - rewrite !collect_ids_cons. destruct (cond v).
    + rewrite (IH Hg). apply Permutation_swap.
    + by apply IH.
Qed.

Lemma collect_ids_none cond (d : PyDict.t Task) :
  Forall (fun t => cond t = false) (PyDict.values d) -> collect_ids cond d = [].
Proof.
  induction d as [|[k t] d IH]; [done|]. csimpl. intros Hall.
  apply Forall_cons in Hall as [Ht Hall]. rewrite collect_ids_cons, Ht. by apply IH.
Qed.

Lemma store_wf_modify k f st :
  store_wf st -> (forall t, task_id (f t) = task_id t) ->
  store_wf (mkStore (PyDict.modify k f (tasks st)) (clients st) (completed_tasks st)).
Proof.
  intros [Hwf Hid] Hf. split; simpl; [by apply wf_modify|].
  clear Hwf. induction Hid as [|[k' t] d Hkt Hd IH]; simpl; [done|].
  destruct (String.eqb k k'); constructor; simpl in *; try done.
  by rewrite Hf.
Qed.

Lemma store_wf_key st k t :
  store_wf st -> PyDict.get k (tasks st) = Some t -> task_id t = k.
Proof.
  intros [_ Hid] Hg. apply get_Some_elem in Hg.
  rewrite Forall_forall in Hid. by apply (Hid (k, t)).
Qed.

(** What a claim does to a well-formed store, in terms of keys. *)
Lemma get_task_cases cid t_seen t_read st :
  store_wf st ->
  let rp := (get_task cid t_seen t_read st).1 in
  let st' := (get_task cid t_seen t_read st).2 in
  completed_tasks st' = completed_tasks st /\
  (forall c, is_Some (clients st' !! c) <-> is_Some (clients st !! c)) /\
  ((handed_out (GetTask cid t_seen t_read) (ReplyTask rp) = None /\
    tasks st' = tasks st /\
    (is_Some (clients st !! cid) -> pending_ids (tasks st) = [])) \/
   (exists t,
      rp = Ok200 (Some (view_of t)) /\
      PyDict.get (task_id t) (tasks st) = Some t /\
      status t = PENDING /\
      tasks st' = PyDict.modify (task_id t) (claim_task cid t_read) (tasks st))).
Proof.
  intros Hwf. unfold get_task.
  destruct (clients st !! cid) as [info|] eqn:Hc; simpl.
  2:{ split; [done|]. split; [done|]. left. split; [done|]. split; [done|].
      by intros [? ?]. }
  unfold get_task_locked. rewrite Hc. simpl.
  destruct (find_available (tasks st)) as [[i t]|] eqn:Hf; simpl.
  - split; [done|]. split.
    { intros c. destruct (decide (cid = c)) as [<-|Hne].
      - rewrite lookup_insert_eq, Hc. split; eauto.
      - by rewrite lookup_insert_ne. }
    right. exists t. apply find_available_Some in Hf as Hfirst.
    destruct Hfirst as (Hi & Hp & _).
    apply values_lookup in Hi as [k Hk].
    assert (Hg : PyDict.get k (tasks st) = Some t).
    { eapply lookup_get; [apply Hwf | done]. }
    assert (task_id t = k) as Hid by (by eapply store_wf_key).
    rewrite Hid. split; [done|]. split; [done|]. split; [done|].
    apply modify_at_modify with (v := t); [apply Hwf | done].
  - split; [done|]. split.
    { intros c. destruct (decide (cid = c)) as [<-|Hne].
      - rewrite lookup_insert_eq, Hc. split; eauto.
      - by rewrite lookup_insert_ne. }
    left. split; [done|]. split; [done|]. intros _.
    apply find_available_None in Hf. apply collect_ids_none.
    eapply Forall_impl; [exact Hf|]. intros t. apply is_pending_false.
Qed.

Lemma claims_of_cons rq rp trace replies :
  claims_of (rq :: trace) (rp :: replies) =
    match handed_out rq rp with
    | Some c => c :: claims_of trace replies
    | None => claims_of trace replies
    end.
Proof. unfold claims_of. simpl. by destruct (handed_out rq rp). Qed.

Lemma run_cons rq trace st :
  run (rq :: trace) st =
    ((step rq st).1 :: (run trace (step rq st).2).1, (run trace (step rq st).2).2).
Proof.
  simpl. destruct (step rq st) as [rp st1]. simpl.
  by destruct (run trace st1).
Qed.

Lemma step_GetTask cid t_seen t_read st :
  step (GetTask cid t_seen t_read) st =
    (ReplyTask (get_task cid t_seen t_read st).1, (get_task cid t_seen t_read st).2).
Proof. simpl. by destruct (get_task cid t_seen t_read st). Qed.

(** The invariant carried along a sequence of claims. *)
Lemma claims_run trace : forall st,
  store_wf st ->
  Forall is_claim trace ->
  let out := claims_of trace (run trace st).1 in
  let st' := (run trace st).2 in
  store_wf st' /\
  out.*2 ++ pending_ids (tasks st') ≡ₚ pending_ids (tasks st) /\
  (forall k t, PyDict.get k (tasks st) = Some t -> status t <> PENDING ->
     PyDict.get k (tasks st') = Some t) /\
  (forall cid tid, (cid, tid) ∈ out ->
     exists task, PyDict.get tid (tasks st') = Some task /\
       status task = READING /\ client_id task = Some cid).
Proof.
  induction trace as [|rq trace IH]; intros st Hwf Hcl.
  - simpl. split; [done|]. split; [done|]. split; [done|].
    intros cid tid Hin. by apply elem_of_nil in Hin.
  - apply Forall_cons in Hcl as [Hrq Hcl].
    destruct rq as [| cid t_seen t_read | | | | | |]; try done.
    rewrite run_cons, step_GetTask. cbn [fst snd]. rewrite claims_of_cons.
    destruct (get_task_cases cid t_seen t_read st Hwf) as (_ & _ & Hcase).
    set (st1 := (get_task cid t_seen t_read st).2) in *.
    set (rp := (get_task cid t_seen t_read st).1) in *.
    destruct Hcase as [(Hnone & Htasks & _) | (t & Hrp & Hg & Hp & Htasks)].
    + assert (Hwf1 : store_wf st1).
      { destruct Hwf as [H1 H2]. split; by rewrite Htasks. }
      destruct (IH st1 Hwf1 Hcl) as (IH1 & IH2 & IH3 & IH4).
      rewrite Hnone. rewrite <- Htasks. done.
    + assert (Hwf1 : store_wf st1).
      { pose proof (store_wf_modify (task_id t) (claim_task cid t_read) st Hwf) as H.
        destruct H as [H1 H2]; [done|]. split; by rewrite Htasks. }
      destruct (IH st1 Hwf1 Hcl) as (IH1 & IH2 & IH3 & IH4).
      assert (Hclaimed : PyDict.get (task_id t) (tasks st1) =
                           Some (claim_task cid t_read t)).
      { by rewrite Htasks, get_modify, Hg. }
      rewrite Hrp. simpl.
      split; [done|]. split; [|split].
      * rewrite IH2. symmetry. unfold pending_ids. rewrite Htasks.
        apply collect_ids_modify with (t := t); [done | | done].
        by apply is_pending_true.
      * intros k u Hk Hu. apply IH3; [|done]. rewrite Htasks.
        destruct (decide (task_id t = k)) as [<-|Hne].
        -- congruence.
        -- by rewrite get_modify_ne.
      * intros c tid Hin. apply elem_of_cons in Hin as [[= -> ->]|Hin].
        -- exists (claim_task cid t_read t). split; [|done].
           by apply IH3.
        -- by apply IH4.
Qed.

(** With registered claimers, the pending tasks run out before the claims. *)
Lemma claims_exhaust trace : forall st,
  store_wf st ->
  Forall (claimer_registered st) trace ->
  (length (pending_ids (tasks st)) <= length trace)%nat ->
  pending_ids (tasks (run trace st).2) = [].
Proof.
  induction trace as [|rq trace IH]; intros st Hwf Hreg Hlen.
  - simpl in *. destruct (pending_ids (tasks st)); [done | simpl in Hlen; lia].
  - apply Forall_cons in Hreg as [Hrq Hreg].
    destruct rq as [| cid t_seen t_read | | | | | |]; try done.
    rewrite run_cons, step_GetTask. cbn [fst snd]. simpl in Hrq.
    destruct (get_task_cases cid t_seen t_read st Hwf) as (_ & Hdom & Hcase).
    set (st1 := (get_task cid t_seen t_read st).2) in *.
    assert (Hreg1 : Forall (claimer_registered st1) trace).
    { eapply Forall_impl; [exact Hreg|]. intros [| c ? ? | | | | | |]; simpl; try done.
      by rewrite Hdom. }
    destruct Hcase as [(_ & Htasks & Hempty) | (t & _ & Hg & Hp & Htasks)].
    + assert (Hwf1 : store_wf st1).
      { destruct Hwf as [H1 H2]. split; by rewrite Htasks. }
      apply IH; [done | done |]. rewrite Htasks, (Hempty Hrq). simpl. lia.
    + assert (Hwf1 : store_wf st1).
      { pose proof (store_wf_modify (task_id t) (claim_task cid t_read) st Hwf) as H.
        destruct H as [H1 H2]; [done|]. split; by rewrite Htasks. }
      apply IH; [done | done |].
      assert (Hperm : pending_ids (tasks st) ≡ₚ task_id t :: pending_ids (tasks st1)).
      { unfold pending_ids. rewrite Htasks.
        apply collect_ids_modify with (t := t); [done | | done].
        by apply is_pending_true. }
      apply Permutation_length in Hperm. simpl in *. lia.
Qed.

Lemma filter_sublist {A} (f : A -> bool) (l : list A) :
  List.filter f l `sublist_of` l.
Proof.
  induction l as [|x l IH]; simpl; [done|].
  destruct (f x); [by apply sublist_skip | by apply sublist_cons].
Qed.

Lemma store_wf_pending_NoDup st : store_wf st -> NoDup (pending_ids (tasks st)).
Proof.
  intros [Hwf _]. unfold pending_ids, collect_ids, PyDict.keys.
  unfold PyDict.wf, PyDict.keys in Hwf.
  eapply sublist_NoDup; [exact Hwf|].
  apply fmap_sublist, filter_sublist.
Qed.

(** Four claims on [st_pending]: the three tasks go out in FIFO order, the
    fourth claim finds nothing. *)
Example claims_on_st_pending :
  let trace := [ GetTask "w1" 10 11; GetTask "w2" 12 13;
                 GetTask "w1" 14 15; GetTask "w2" 16 17 ] in
  claims_of trace (run trace st_pending).1 = [ ("w1", "b"); ("w2", "c"); ("w1", "a") ] /\
  (run [GetTask "w2" 16 17] (run (take 3 trace) st_pending).2).1 =
    [ ReplyTask (Ok200 None) ].
Proof. split; reflexivity. Qed.

(** ** Reclaiming an abandoned read *)

Lemma store_wf_cleanup now st : store_wf st -> store_wf (cleanup_iteration now st).
Proof.
  intros [Hwf Hid]. split; simpl; [by apply wf_reap_tasks|].
  rewrite reap_tasks_map by done. apply Forall_fmap.
  eapply Forall_impl; [exact Hid|]. intros [k t]. simpl.
  intros <-. unfold reap_one.
  destruct (read_expired now t);
    by match goal with |- context [processing_stale now ?u] =>
         destruct (processing_stale now u) end.
Qed.

(** C5: a READING task whose [read_at] is more than [read_timeout] seconds
    before the sweep's clock reading is put back to PENDING with no owner
    and no [read_at]; any registered worker that claims next while the task
    is first in FIFO order receives it, with [read_at] set to the new clock
    reading; and in any case the task is handed out by a sequence of claims
    of registered workers that is at least as long as the list of pending
    tasks.  [read_at] is a reading of [time.time()], seconds since 1970, so
    it is not [0.0], the one float that the guard [task.read_at and ...]
    treats like [None]. *)
Theorem expired_read_is_reclaimed now st tid task r :
  store_wf st ->
  PyDict.get tid (tasks st) = Some task ->
  status task = READING ->
  read_at task = Some r ->
  ~ r == 0 ->
  read_timeout task < now - r ->
  let st1 := cleanup_iteration now st in
  PyDict.get tid (tasks st1) = Some (reset_task task) /\
  reset_task task =
    mkTask (task_id task) (photo_path task) (xmp_path task) (created_at task)
           PENDING None None (read_timeout task) (result task)
           (file_package_path task) (requires_download task) /\
  (forall cid info t_seen t_read i,
     clients st1 !! cid = Some info ->
     fifo_first (PyDict.values (tasks st1)) i (reset_task task) ->
     exists st2,
       get_task cid t_seen t_read st1 = (Ok200 (Some (view_of task)), st2) /\
       v_task_id (view_of task) = tid /\
       PyDict.get tid (tasks st2) =
         Some (mkTask (task_id task) (photo_path task) (xmp_path task)
                      (created_at task) READING (Some cid) (Some t_read)
                      (read_timeout task) (result task)
                      (file_package_path task) (requires_download task))) /\
  (forall trace,
     Forall is_claim trace ->
     Forall (claimer_registered st1) trace ->
     (length (pending_ids (tasks st1)) <= length trace)%nat ->
     tid ∈ (claims_of trace (run trace st1).1).*2).
Proof.
  intros Hwf Hg Hs Hr Hpos Hlate st1.
  assert (Hwf1 : store_wf st1) by (by apply store_wf_cleanup).
  pose proof (store_wf_key st tid task Hwf Hg) as Hid.
  assert (Hg1 : PyDict.get tid (tasks st1) = Some (reset_task task)).
  { subst st1. simpl. rewrite (get_reap_tasks _ _ _ (proj1 Hwf)), Hg. simpl.
    assert (Hexp : read_expired now task = true).
    { unfold read_expired. rewrite Hs, Hr. simpl.
      apply andb_true_intro. split.
      - apply negb_true_iff, not_true_iff_false. intros H0.
        by apply Qeq_bool_iff in H0.
      - by apply Qgtb_gt. }
    unfold reap_one at 2. rewrite Hexp.
    unfold reap_one, processing_stale. done. }
  clearbody st1.
  split; [done|]. split; [done|]. split.
  - intros cid info t_seen t_read i Hc Hfirst.
    pose proof Hfirst as (Hi & _).
    apply values_lookup in Hi as [k Hk].
    assert (k = tid) as ->.
    { destruct Hwf1 as [_ Hkeys]. rewrite Forall_lookup in Hkeys.
      specialize (Hkeys i _ Hk). simpl in Hkeys. congruence. }
    eexists. split.
    { unfold get_task. rewrite Hc.
      by apply (get_task_locked_claims cid t_seen t_read st1 info i tid
                  (reset_task task)). }
    split; [done|]. simpl.
    apply lookup_get with (i := i).
    + unfold PyDict.wf, PyDict.keys. rewrite list_fmap_insert. simpl.
      rewrite list_insert_id; [apply Hwf1|].
      by rewrite list_lookup_fmap, Hk.
    + rewrite list_lookup_insert_eq; [done|]. by eapply lookup_lt_Some.
  - intros trace Hcl Hreg Hlen.
    destruct (claims_run trace st1 Hwf1 Hcl) as (_ & Hperm & _).
    rewrite (claims_exhaust trace st1 Hwf1 Hreg Hlen), app_nil_r in Hperm.
    rewrite Hperm. unfold pending_ids, collect_ids, PyDict.keys.
    apply list_elem_of_fmap. exists (tid, reset_task task). split; [done|].
    apply list_elem_of_In, filter_In. split; [|done].
    apply list_elem_of_In. by apply get_Some_elem.
Qed.

Lemma expired_read_is_reclaimed_witness :
  let st1 := cleanup_iteration 111 st_abandoned in
  PyDict.get "a" (tasks st1) =
    Some (mkTask "a" "a.jpg" "a.lua" 90 PENDING None None 10 None None false) /\
  exists st2,
    get_task "w2" 112 113 st1 =
      (Ok200 (Some (mkTaskView "a" "a.jpg" "a.lua" 90 false None 10)), st2) /\
    PyDict.get "a" (tasks st2) =
      Some (mkTask "a" "a.jpg" "a.lua" 90 READING (Some "w2") (Some 113) 10
                   None None false).
Proof.
  intros st1.
  destruct (expired_read_is_reclaimed 111 st_abandoned "a"
              (mkTask "a" "a.jpg" "a.lua" 90 READING (Some "w1") (Some 100) 10
                      None None false) 100)
    as (Hreset & _ & Hclaim & _).
  - split; repeat constructor. apply not_elem_of_nil.
  - reflexivity.
  - reflexivity.
  - reflexivity.
  - discriminate.
  - reflexivity.
  - split; [exact Hreset|].
    destruct (Hclaim "w2" (set_last_seen 105 (sample_client "w2")) 112 113 0%nat)
      as (st2 & H1 & _ & H2).
    + reflexivity.
    + split; [reflexivity|]. split; [reflexivity|].
      intros [|j] t' Hj Hp; [|done].
      injection Hj as <-. split; [apply Qle_refl | intros; lia].
    + exists st2. split; [exact H1 | exact H2].
Defined.

(** Ten seconds after the claim the lease has not run out yet: the sweep
    reclaims only when more than [read_timeout] has passed. *)
Example lease_not_yet_expired :
  tasks (cleanup_iteration 110 st_abandoned) = tasks st_abandoned.
Proof. reflexivity. Qed.

(** ** The store invariant *)

Lemma keys_set {V} k (v : V) (d : PyDict.t V) :
  PyDict.keys (PyDict.set k v d) =
    if PyDict.contains k d then PyDict.keys d else PyDict.keys d ++ [k].
Proof.
  unfold PyDict.keys, PyDict.contains.
  induction d as [|[k' v'] d IH]; csimpl; [done|].
  destruct (String.eqb k k'); csimpl; [done|].
  rewrite IH. by destruct (PyDict.get k d).
Qed.

Lemma wf_set {V} k (v : V) (d : PyDict.t V) :
  PyDict.wf d -> PyDict.wf (PyDict.set k v d).
Proof.
  unfold PyDict.wf. rewrite keys_set. unfold PyDict.contains.
  destruct (PyDict.get k d) eqn:Hg; [done|]. intros Hnd.
  apply NoDup_app. split; [done|]. split; [|apply NoDup_singleton].
  intros x Hx Hin. apply list_elem_of_singleton in Hin as ->.
  by apply get_None_keys in Hg.
Qed.

Lemma Forall_set {V} (P : string * V -> Prop) k v (d : PyDict.t V) :
  P (k, v) -> Forall P d -> Forall P (PyDict.set k v d).
Proof.
  intros Hv Hd. induction Hd as [|[k' v'] d Hkv Hd IH]; simpl.
  - by constructor.
  - destruct (String.eqb_spec k k') as [<-|_]; by constructor.
Qed.

Lemma Forall_modify {V} (P : string * V -> Prop) k f (d : PyDict.t V) :
  (forall k' v, P (k', v) -> P (k', f v)) -> Forall P d ->
  Forall P (PyDict.modify k f d).
Proof.
  intros Hf Hd. induction Hd as [|[k' v'] d Hkv Hd IH]; simpl; [done|].
  destruct (String.eqb k k'); constructor; auto.
Qed.

Lemma del_sublist {V} k (d : PyDict.t V) : PyDict.del k d `sublist_of` d.
Proof.
  induction d as [|[k' v'] d IH]; simpl; [done|].
  destruct (String.eqb k k'); [by apply sublist_cons | by apply sublist_skip].
Qed.

Lemma wf_del {V} k (d : PyDict.t V) : PyDict.wf d -> PyDict.wf (PyDict.del k d).
Proof.
  unfold PyDict.wf, PyDict.keys. intros Hnd.
  eapply sublist_NoDup; [exact Hnd|]. apply fmap_sublist, del_sublist.
Qed.

Lemma Forall_del {V} (P : string * V -> Prop) k (d : PyDict.t V) :
  Forall P d -> Forall P (PyDict.del k d).
Proof.
  intros Hd. induction Hd as [|[k' v'] d Hkv Hd IH]; simpl; [done|].
  destruct (String.eqb k k'); [done | by constructor].
Qed.

Lemma del_modify {V} k (f : V -> V) (d : PyDict.t V) :
  PyDict.del k (PyDict.modify k f d) = PyDict.del k d.
Proof.
  induction d as [|[k' v'] d IH]; simpl; [done|].
  destruct (String.eqb k k') eqn:E; simpl; rewrite E; [done | by rewrite IH].
Qed.

Lemma collect_ids_modify_same cond f (d : PyDict.t Task) k :
  (forall t, PyDict.get k d = Some t -> cond (f t) = cond t) ->
  collect_ids cond (PyDict.modify k f d) = collect_ids cond d.
Proof.
  induction d as [|[k' v] d IH]; simpl; [done|]. intros Hf.
  destruct (String.eqb k k').
  - by rewrite !collect_ids_cons, Hf.
  - rewrite !collect_ids_cons, IH by done. done.
Qed.

Lemma collect_ids_del cond (d : PyDict.t Task) k t :
  PyDict.get k d = Some t -> cond t = false ->
  collect_ids cond (PyDict.del k d) = collect_ids cond d.
Proof.
  intros Hg Ht. induction d as [|[k' v] d IH]; simpl in *; [done|].
  destruct (String.eqb k k').
  - injection Hg as ->. by rewrite collect_ids_cons, Ht.
  - by rewrite !collect_ids_cons, IH.
Qed.

Lemma pending_unowned_get st k t :
  pending_unowned st -> PyDict.get k (tasks st) = Some t ->
  is_Some (client_id t) -> status t <> PENDING.
Proof.
  intros Hinv Hg [c Hc] Hp. apply get_Some_elem in Hg.
  unfold pending_unowned in Hinv. rewrite Forall_forall in Hinv.
  specialize (Hinv (k, t) Hg Hp). simpl in Hinv. congruence.
Qed.

Lemma store_inv_modify k f st :
  store_inv st ->
  (forall t, task_id (f t) = task_id t) ->
  (forall t, status (f t) = PENDING -> client_id (f t) = None) ->
  store_inv (set_tasks (PyDict.modify k f (tasks st)) st).
Proof.
  intros [Hwf Hun] Hid Hf. split.
  - by apply store_wf_modify.
  - unfold pending_unowned. simpl. apply Forall_modify; [|done].
    intros k' v _. apply Hf.
Qed.

Lemma store_inv_tasks st st' :
  tasks st' = tasks st -> store_inv st -> store_inv st'.
Proof.
  unfold store_inv, store_wf, pending_unowned. by intros ->.
Qed.

(** The store after a submission with files: the task is queued when both
    files exist, and nothing changes otherwise. *)
Lemma step_SubmitTaskWithFiles fs tid photo xmp now st :
  (step (SubmitTaskWithFiles fs tid photo xmp now) st).2 =
    if fs photo && fs xmp
    then set_tasks (PyDict.set tid (transfer_task tid now) (tasks st)) st
    else st.
Proof.
  simpl. unfold submit_task_with_files.
  by destruct (fs photo), (fs xmp).
Qed.

(** Every request keeps the invariant; the sweep and a submission included. *)
Lemma step_store_inv rq st : store_inv st -> store_inv (step rq st).2.
Proof.
  intros Hinv. destruct rq as [c now | cid t_seen t_read | tid cid | r now
                              | dir tid io | tid photo xmp now | fs tid photo xmp now | now].
  - by eapply store_inv_tasks.
  - rewrite step_GetTask. simpl.
    destruct (get_task_cases cid t_seen t_read st (proj1 Hinv))
      as (_ & _ & [(_ & Htasks & _) | (t & _ & _ & _ & Htasks)]).
    + by eapply store_inv_tasks.
    + eapply store_inv_tasks with
        (st := set_tasks (PyDict.modify (task_id t) (claim_task cid t_read) (tasks st)) st);
        [done|].
      by apply store_inv_modify.
  - simpl. unfold start_processing.
    destruct (PyDict.get tid (tasks st)) as [task|]; [|done].
    destruct (negb (owned_by task cid)); [done|].
    destruct (negb (TaskStatus_eqb (status task) READING)); [done|]. simpl.
    by apply store_inv_modify.
  - simpl. unfold report_result.
    destruct (PyDict.get (r_task_id r) (tasks st)) as [task|]; [|done].
    destruct (negb (owned_by task (r_client_id r))); [done|]. simpl.
    rewrite del_modify. destruct Hinv as [[Hwf Hid] Hun].
    split; [split|]; simpl.
    + by apply wf_del.
    + by apply Forall_del.
    + unfold pending_unowned. simpl. by apply Forall_del.
  - simpl. unfold upload_result.
    destruct (negb _); [done|]. destruct io; by eapply store_inv_tasks.
  - simpl. destruct Hinv as [[Hwf Hid] Hun]. split; [split|]; simpl.
    + by apply wf_set.
    + by apply Forall_set.
    + unfold pending_unowned. simpl. by apply Forall_set.
  - rewrite step_SubmitTaskWithFiles. destruct (fs photo && fs xmp); [|done].
    destruct Hinv as [[Hwf Hid] Hun]. split; [split|]; simpl.
    + by apply wf_set.
    + by apply Forall_set.
    + unfold pending_unowned. simpl. by apply Forall_set.
  - simpl. destruct Hinv as [Hwf Hun]. split; [by apply store_wf_cleanup|].
    unfold pending_unowned in *. simpl.
    rewrite reap_tasks_map by apply Hwf. apply Forall_fmap.
    eapply Forall_impl; [exact Hun|]. intros [k t]. simpl. unfold reap_one.
    destruct (read_expired now t); simpl.
    + by destruct (processing_stale now (reset_task t)).
    + by destruct (processing_stale now t).
Qed.

Lemma run_store_inv trace : forall st, store_inv st -> store_inv (run trace st).2.
Proof.
  induction trace as [|rq trace IH]; intros st Hinv; [done|].
  rewrite run_cons. simpl. by apply IH, step_store_inv.
Qed.

(** Every store the server can reach satisfies the invariant. *)
Lemma reachable_store_inv trace : store_inv (run trace empty_store).2.
Proof.
  apply run_store_inv. split; [split|]; constructor.
Qed.

(** What a request other than the sweep and a submission does to the list
    of pending ids. *)
Lemma step_pending_ids rq st :
  store_inv st -> no_reset rq ->
  match handed_out rq (step rq st).1 with
  | Some c => pending_ids (tasks st) ≡ₚ c.2 :: pending_ids (tasks (step rq st).2)
  | None => pending_ids (tasks (step rq st).2) = pending_ids (tasks st)
  end.
Proof.
  intros [Hwf Hun] Hrq.
  destruct rq as [c now | cid t_seen t_read | tid cid | r now
                 | dir tid io | tid photo xmp now | fs tid photo xmp now | now]; try done.
  - rewrite step_GetTask. cbn [fst snd].
    destruct (get_task_cases cid t_seen t_read st Hwf)
      as (_ & _ & [(Hnone & Htasks & _) | (t & Hrp & Hg & Hp & Htasks)]).
    + rewrite Hnone. by rewrite Htasks.
    + rewrite Hrp. simpl. unfold pending_ids. rewrite Htasks.
      apply collect_ids_modify with (t := t); [done | | done].
      by apply is_pending_true.
  - simpl. unfold start_processing.
    destruct (PyDict.get tid (tasks st)) as [task|] eqn:Hg; [|done].
    destruct (negb (owned_by task cid)); [done|].
    destruct (negb (TaskStatus_eqb (status task) READING)) eqn:Hs; [done|]. simpl.
    apply collect_ids_modify_same. intros t Ht.
    assert (t = task) as -> by congruence.
    apply negb_false_iff, TaskStatus_eqb_eq in Hs.
    unfold is_pending. simpl. by rewrite Hs.
  - simpl. unfold report_result.
    destruct (PyDict.get (r_task_id r) (tasks st)) as [task|] eqn:Hg; [|done].
    destruct (negb (owned_by task (r_client_id r))) eqn:Ho; [done|]. simpl.
    rewrite del_modify. apply collect_ids_del with (t := task); [done|].
    apply is_pending_false. eapply pending_unowned_get; [done | done |].
    apply negb_false_iff, owned_by_true in Ho. by rewrite Ho.
  - simpl. unfold upload_result.
    destruct (negb _); [done|]. by destruct io.
Qed.

(** Without a sweep or a submission in between, the ids handed out so far
    and the ids still pending make up the ids pending at the start. *)
Lemma handouts_run trace : forall st,
  store_inv st ->
  Forall no_reset trace ->
  (claims_of trace (run trace st).1).*2 ++ pending_ids (tasks (run trace st).2)
    ≡ₚ pending_ids (tasks st).
Proof.
  induction trace as [|rq trace IH]; intros st Hinv Hnr; [done|].
  apply Forall_cons in Hnr as [Hrq Hnr].
  rewrite run_cons. cbn [fst snd]. rewrite claims_of_cons.
  pose proof (step_pending_ids rq st Hinv Hrq) as Hstep.
  pose proof (IH (step rq st).2 (step_store_inv rq st Hinv) Hnr) as IH'.
  destruct (handed_out rq (step rq st).1) as [c|].
  - csimpl. by rewrite IH', Hstep.
  - by rewrite IH', Hstep.
Qed.

(** C1: take any interleaving of requests that contains neither a sweep nor
    a submission, on a store that satisfies the invariant.  The task ids
    handed out by its claims, together with the ids still pending at the
    end, are a rearrangement of the ids pending at the start: every
    handed-out task was pending, and no id is handed out twice, whoever the
    claimers are.  When the interleaving consists of claims only, every
    task handed out ends up READING and owned by the worker that claimed
    it, and if moreover the claimers are registered and there are at least
    as many claims as pending tasks, every pending task is handed out. *)
Theorem each_job_claimed_once trace st :
  store_inv st ->
  Forall no_reset trace ->
  let out := claims_of trace (run trace st).1 in
  let st' := (run trace st).2 in
  out.*2 ++ pending_ids (tasks st') ≡ₚ pending_ids (tasks st) /\
  NoDup out.*2 /\
  (forall cid tid, (cid, tid) ∈ out ->
     exists task, PyDict.get tid (tasks st) = Some task /\ status task = PENDING) /\
  (Forall is_claim trace ->
     (forall cid tid, (cid, tid) ∈ out ->
        exists task, PyDict.get tid (tasks st') = Some task /\
          status task = READING /\ client_id task = Some cid) /\
     (Forall (claimer_registered st) trace ->
      (length (pending_ids (tasks st)) <= length trace)%nat ->
      out.*2 ≡ₚ pending_ids (tasks st))).
Proof.
  intros Hinv Hnr out st'. pose proof Hinv as [Hwf _].
  pose proof (handouts_run trace st Hinv Hnr) as Hperm.
  fold out st' in Hperm.
  pose proof (store_wf_pending_NoDup st Hwf) as Hnd.
  rewrite <- Hperm in Hnd. apply NoDup_app in Hnd as (Hnd & _ & _).
  split; [done|]. split; [done|]. split.
  - intros cid tid Hin.
    assert (Hp : tid ∈ pending_ids (tasks st)).
    { rewrite <- Hperm. apply elem_of_app. left.
      apply list_elem_of_fmap. by exists (cid, tid). }
    apply collect_ids_get in Hp as (task & Hg & Hpend); [|apply Hwf].
    exists task. split; [done|]. by apply is_pending_true.
  - intros Hcl. split.
    + by destruct (claims_run trace st Hwf Hcl) as (_ & _ & _ & Hown).
    + intros Hreg Hlen. rewrite <- Hperm.
      subst st'. rewrite (claims_exhaust trace st Hwf Hreg Hlen).
      by rewrite app_nil_r.
Qed.

Lemma each_job_claimed_once_witness :
  let trace := [ GetTask "w1" 10 11; GetTask "w2" 12 13;
                 GetTask "w1" 14 15; GetTask "w2" 16 17 ] in
  let out := claims_of trace (run trace st_pending).1 in
  NoDup out.*2 /\ out.*2 ≡ₚ pending_ids (tasks st_pending).
Proof.
  intros trace out.
  destruct (each_job_claimed_once trace st_pending) as (_ & Hnd & _ & Hclaims).
  - split; [split|].
    + apply (bool_decide_unpack _). by vm_compute.
    + repeat constructor.
    + repeat constructor.
  - repeat constructor.
  - split; [exact Hnd|]. apply Hclaims.
    + repeat constructor.
    + repeat constructor; by eexists.
    + simpl. lia.
Defined.

(** A confirmation and a report between the claims change nothing: [b] and
    [c] still go out once each, and [a] stays pending until claimed. *)
Example claims_among_other_requests :
  let trace := [ GetTask "w1" 10 11; StartProcessing "b" "w1";
                 GetTask "w2" 12 13; ReportResult (report_ok "b" "w1") 14;
                 UploadResult "results" "b" (IOSaved 15 2048);
                 GetTask "w1" 16 17; GetTask "w2" 18 19 ] in
  claims_of trace (run trace st_pending).1 = [ ("w1", "b"); ("w2", "c"); ("w1", "a") ].
Proof. reflexivity. Qed.

(** After a sweep the same id can be handed out a second time. *)
Example reclaimed_task_goes_out_again :
  let trace := [ GetTask "w1" 10 11; GetTask "w1" 12 13; GetTask "w1" 14 15;
                 Cleanup 22; GetTask "w2" 23 24 ] in
  claims_of trace (run trace st_pending).1 =
    [ ("w1", "b"); ("w1", "c"); ("w1", "a"); ("w2", "b") ].
Proof. reflexivity. Qed.

(** ** Life cycle of the task records *)

Lemma Forall_modify_get {V} (P : string * V -> Prop) k f (d : PyDict.t V) :
  (forall v, PyDict.get k d = Some v -> P (k, v) -> P (k, f v)) ->
  Forall P d -> Forall P (PyDict.modify k f d).
Proof.
  intros Hf Hd. induction Hd as [|[k' v'] d Hkv Hd IH]; simpl in *; [done|].
  destruct (String.eqb_spec k k') as [<-|Hne]; constructor; auto.
Qed.

Lemma Forall_reset_all (P : string * Task -> Prop) ids (d : PyDict.t Task) :
  (forall k t, P (k, t) -> P (k, reset_task t)) ->
  Forall P d -> Forall P (reset_all ids d).
Proof.
  intros Hf. unfold reset_all. revert d.
  induction ids as [|tid ids IH]; intros d Hd; simpl; [done|].
  apply IH. apply Forall_modify; [|done]. intros k v. apply Hf.
Qed.

Lemma active_coherent_reset t : active_coherent t -> active_coherent (reset_task t).
Proof. intros [Hr _]. by split. Qed.

Lemma active_coherent_claim cid now t :
  active_coherent t -> active_coherent (claim_task cid now t).
Proof. intros [Hr _]. split; [done|]. simpl. split; by eexists. Qed.

Lemma get_dict_update_ne {V} k (entries : list (string * V)) (d : PyDict.t V) :
  k ∉ entries.*1 ->
  PyDict.get k (dict_update entries d) = PyDict.get k d.
Proof.
  unfold dict_update. revert d.
  induction entries as [|[k' v'] entries IH]; intros d Hk; simpl; [done|].
  csimpl in Hk. apply not_elem_of_cons in Hk as [Hne Hk].
  rewrite IH by done. by apply get_set_ne.
Qed.

Lemma archive_coherent_attach path ts size t :
  archive_coherent t -> archive_coherent (attach_upload path ts size t).
Proof.
  intros (r & Hr & Hs). unfold attach_upload. rewrite Hr.
  assert (Hbase : match r with e :: r' => e :: r' | [] => [] end = r)
    by (by destruct r).
  rewrite Hbase. eexists. split; [done|]. simpl status.
  rewrite get_dict_update_ne; [done|].
  simpl. rewrite !not_elem_of_cons. repeat split; try done. apply not_elem_of_nil.
Qed.

Lemma archive_coherent_finish r now t : archive_coherent (finish_task r now t).
Proof.
  exists (result_record r now). split; [done|]. simpl.
  destruct (r_success r); [left | right]; done.
Qed.

(** Every request keeps the records coherent. *)
Lemma step_lifecycle_inv rq st : lifecycle_inv st -> lifecycle_inv (step rq st).2.
Proof.
  intros [Hact Harch].
  destruct rq as [c now | cid t_seen t_read | tid cid | r now
                 | dir tid io | tid photo xmp now | fs tid photo xmp now | now].
  - done.
  - rewrite step_GetTask. cbn [snd]. unfold get_task.
    destruct (clients st !! cid) as [info|] eqn:Hc; [|done].
    unfold get_task_locked. rewrite Hc. simpl.
    destruct (find_available (tasks st)) as [[i t]|] eqn:Hf; [|done].
    split; [|done]. simpl. unfold PyDict.modify_at.
    apply Forall_alter; [done|]. intros [k v] _. simpl.
    apply active_coherent_claim.
  - simpl. unfold start_processing.
    destruct (PyDict.get tid (tasks st)) as [task|] eqn:Hg; [|done].
    destruct (negb (owned_by task cid)); [done|].
    destruct (negb (TaskStatus_eqb (status task) READING)) eqn:Hs; [done|].
    split; [|done]. simpl. apply Forall_modify_get; [|done].
    intros v Hv. assert (v = task) as -> by congruence.
    apply negb_false_iff, TaskStatus_eqb_eq in Hs.
    unfold active_coherent. simpl. by rewrite Hs.
  - simpl. unfold report_result.
    destruct (PyDict.get (r_task_id r) (tasks st)) as [task|] eqn:Hg; [|done].
    destruct (negb (owned_by task (r_client_id r))); [done|].
    split; simpl.
    + rewrite del_modify. by apply Forall_del.
    + apply Forall_set; [|done]. apply archive_coherent_finish.
  - simpl. unfold upload_result.
    destruct (negb _); [done|]. destruct io; try done.
    split; [done|]. simpl. apply Forall_modify; [|done].
    intros k v. apply archive_coherent_attach.
  - split; [|done]. simpl. apply Forall_set; [|done]. by split.
  - rewrite step_SubmitTaskWithFiles. destruct (fs photo && fs xmp); [|done].
    split; [|done]. simpl. apply Forall_set; [|done]. by split.
  - split; [|done]. simpl. unfold reap_tasks, reap_pass.
    do 2 (apply Forall_reset_all; [intros k t; apply active_coherent_reset|]).
    done.
Qed.

(** X1. In every store the server can reach, an active task has no result,
    is PENDING without owner and [read_at] or READING/PROCESSING with both,
    and is never COMPLETED or FAILED; an archived task is COMPLETED or
    FAILED and its status agrees with the [success] flag of its result. *)
Theorem reachable_lifecycle_inv trace : lifecycle_inv (run trace empty_store).2.
Proof.
  assert (Hrun : forall st, lifecycle_inv st -> lifecycle_inv (run trace st).2).
  { induction trace as [|rq trace IH]; intros st Hinv; [done|].
    rewrite run_cons. simpl. by apply IH, step_lifecycle_inv. }
  apply Hrun. split; constructor.
Qed.

Lemma reachable_active_coherent trace :
  Forall (fun kv => active_coherent kv.2) (tasks (run trace empty_store).2).
Proof.
  assert (Hrun : forall st, lifecycle_inv st -> lifecycle_inv (run trace st).2).
  { induction trace as [|rq trace IH]; intros st Hinv; [done|].
    rewrite run_cons. simpl. by apply IH, step_lifecycle_inv. }
  apply Hrun. split; constructor.
Qed.

Lemma count_status_partition (d : PyDict.t Task) :
  Forall (fun kv => active_coherent kv.2) d ->
  (count_status PENDING d + count_status READING d + count_status PROCESSING d
   = length d)%nat.
Proof.
  unfold count_status. induction 1 as [|[k t] d [_ Ht] _ IH]; [done|].
  csimpl in *. destruct (status t); simpl in *; try done; lia.
Qed.

(** A submission with files is a request like the others: the store it
    leaves holds a transfer task, and the statistics count it. *)
Example transfer_task_is_reachable :
  let st := (run [ SubmitTaskWithFiles fs_all "t1" "/data/p.jpg" "/data/p.lua" 5;
                   SubmitTask "a" "a.jpg" "a.lua" 6 ] empty_store).2 in
  requires_download <$> PyDict.get "t1" (tasks st) = Some true /\
  h_pending_tasks (health_check st) = 2%nat.
Proof. vm_compute. done. Qed.

(** X2. On every reachable store the pending, reading and processing counts
    of [health_check] add up to the number of active tasks: no active task
    is left out of the statistics. *)
Theorem health_counts_cover_active trace :
  let st := (run trace empty_store).2 in
  (h_pending_tasks (health_check st) + h_reading_tasks (health_check st) +
   h_processing_tasks (health_check st) = length (tasks st))%nat.
Proof.
  intros st. apply count_status_partition. apply reachable_active_coherent.
Qed.

(** ** Tasks are never lost *)

Lemma step_tasks_wf rq st : PyDict.wf (tasks st) -> PyDict.wf (tasks (step rq st).2).
Proof.
  intros Hwf.
  destruct rq as [c now | cid t_seen t_read | tid cid | r now
                 | dir tid io | tid photo xmp now | fs tid photo xmp now | now].
  - done.
  - rewrite step_GetTask. cbn [snd]. unfold get_task.
    destruct (clients st !! cid) as [info|] eqn:Hc; [|done].
    unfold get_task_locked. rewrite Hc. simpl.
    destruct (find_available (tasks st)) as [[i t]|]; [|done].
    by apply wf_modify_at.
  - simpl. unfold start_processing.
    destruct (PyDict.get tid (tasks st)); [|done].
    destruct (negb _); [done|]. destruct (negb _); [done|].
    by apply wf_modify.
  - simpl. unfold report_result.
    destruct (PyDict.get (r_task_id r) (tasks st)); [|done].
    destruct (negb _); [done|]. simpl. by apply wf_del, wf_modify.
  - simpl. unfold upload_result. destruct (negb _); [done|]. by destruct io.
  - simpl. by apply wf_set.
  - rewrite step_SubmitTaskWithFiles. destruct (fs photo && fs xmp); [|done].
    simpl. by apply wf_set.
  - simpl. by apply wf_reap_tasks.
Qed.

Lemma run_tasks_wf trace : forall st,
  PyDict.wf (tasks st) -> PyDict.wf (tasks (run trace st).2).
Proof.
  induction trace as [|rq trace IH]; intros st Hwf; [done|].
  rewrite run_cons. simpl. by apply IH, step_tasks_wf.
Qed.

Lemma same_up_to_upload_refl t : same_up_to_upload t t.
Proof. split; [by destruct t | done]. Qed.

Lemma same_up_to_upload_attach path ts size t :
  same_up_to_upload t (attach_upload path ts size t).
Proof.
  split; [by destruct t|]. intros k Hk. unfold result_get, attach_upload.
  cbn [result set_result].
  rewrite get_dict_update_ne by done. by destruct (result t) as [[|e r]|].
Qed.

Lemma same_up_to_upload_trans t1 t2 t3 :
  same_up_to_upload t1 t2 -> same_up_to_upload t2 t3 -> same_up_to_upload t1 t3.
Proof.
  intros [H1 H1'] [H2 H2']. split.
  - rewrite <- H1, <- H2. by destruct t3.
  - intros k Hk. by rewrite H2', H1'.
Qed.

(** What one request does to the entry of [tid] in the two dictionaries. *)
Lemma step_entry rq st tid :
  PyDict.wf (tasks st) ->
  not_resubmit tid rq ->
  let st' := (step rq st).2 in
  (exists r now t,
     rq = ReportResult r now /\ r_task_id r = tid /\
     PyDict.get tid (tasks st) = Some t /\
     PyDict.get tid (tasks st') = None /\
     PyDict.get tid (completed_tasks st') = Some (finish_task r now t)) \/
  ((exists g, (forall t, view_of (g t) = view_of t) /\
      PyDict.get tid (tasks st') = g <$> PyDict.get tid (tasks st)) /\
   (exists h, (forall t, same_up_to_upload t (h t)) /\
      PyDict.get tid (completed_tasks st') = h <$> PyDict.get tid (completed_tasks st))).
Proof.
  intros Hwf Hrq st'. subst st'.
  assert (Hid : forall {A} (o : option A), o = id <$> o) by (by intros A []).
  assert (Hsame : exists h : Task -> Task, (forall t, same_up_to_upload t (h t)) /\
            PyDict.get tid (completed_tasks st) = h <$> PyDict.get tid (completed_tasks st)).
  { exists id. split; [apply same_up_to_upload_refl | apply Hid]. }
  destruct rq as [c now | cid t_seen t_read | tid0 cid | r now
                 | dir tid0 io | tid0 photo xmp now | fs tid0 photo xmp now | now].
  - right. split; [|done]. exists id. split; [done | apply Hid].
  - right. rewrite step_GetTask. cbn [snd]. unfold get_task.
    destruct (clients st !! cid) as [info|] eqn:Hc.
    2:{ split; [|done]. exists id. split; [done | apply Hid]. }
    unfold get_task_locked. rewrite Hc. simpl.
    destruct (find_available (tasks st)) as [[i t]|] eqn:Hf.
    2:{ split; [|done]. exists id. split; [done | apply Hid]. }
    split; [|done]. simpl.
    apply find_available_Some in Hf as (Hi & _).
    apply values_lookup in Hi as [k Hk].
    rewrite (modify_at_modify _ _ _ _ _ Hwf Hk).
    destruct (decide (k = tid)) as [->|Hne].
    + exists (claim_task cid t_read). split; [done | apply get_modify].
    + exists id. split; [done|]. rewrite get_modify_ne by done. apply Hid.
  - right. simpl. unfold start_processing.
    destruct (PyDict.get tid0 (tasks st)) as [task|] eqn:Hg.
    2:{ split; [|done]. exists id. split; [done | apply Hid]. }
    destruct (negb (owned_by task cid)).
    { split; [|done]. exists id. split; [done | apply Hid]. }
    destruct (negb (TaskStatus_eqb (status task) READING)).
    { split; [|done]. exists id. split; [done | apply Hid]. }
    split; [|done]. simpl. destruct (decide (tid0 = tid)) as [->|Hne].
    + exists (set_status PROCESSING). split; [done | apply get_modify].
    + exists id. split; [done|]. rewrite get_modify_ne by done. apply Hid.
  - simpl. unfold report_result.
    destruct (PyDict.get (r_task_id r) (tasks st)) as [task|] eqn:Hg.
    2:{ right. split; [|done]. exists id. split; [done | apply Hid]. }
    destruct (negb (owned_by task (r_client_id r))).
    { right. split; [|done]. exists id. split; [done | apply Hid]. }
    simpl. destruct (decide (r_task_id r = tid)) as [Heq|Hne].
    + left. exists r, now, task. rewrite <- Heq.
      split; [done|]. split; [done|]. split; [done|]. split.
      * apply get_del. by apply wf_modify.
      * apply get_set.
    + right. split.
      * exists id. split; [done|].
        rewrite get_del_ne, get_modify_ne by done. apply Hid.
      * exists id. split; [apply same_up_to_upload_refl|].
        rewrite get_set_ne by done. apply Hid.
  - right. simpl. unfold upload_result.
    destruct (negb _).
    { split; [|done]. exists id. split; [done | apply Hid]. }
    destruct io as [|msg|ts size].
    + split; [|done]. exists id. split; [done | apply Hid].
    + split; [|done]. exists id. split; [done | apply Hid].
    + simpl. split; [exists id; split; [done | apply Hid]|].
      destruct (decide (tid0 = tid)) as [->|Hne].
      * eexists. split; [|apply get_modify].
        intros t. apply same_up_to_upload_attach.
      * exists id. split; [apply same_up_to_upload_refl|].
        rewrite get_modify_ne by done. apply Hid.
  - right. simpl in *. split; [|done].
    exists id. split; [done|]. rewrite get_set_ne by done. apply Hid.
  - right. rewrite step_SubmitTaskWithFiles. simpl in Hrq.
    destruct (fs photo && fs xmp).
    + split; [|done]. simpl.
      exists id. split; [done|]. rewrite get_set_ne by done. apply Hid.
    + split; [|done]. exists id. split; [done | apply Hid].
  - right. simpl. split; [|done].
    exists (fun t => reap_one (processing_stale now) (reap_one (read_expired now) t)).
    split.
    + intros t. unfold reap_one.
      destruct (read_expired now t);
        by match goal with |- context [processing_stale now ?u] =>
             destruct (processing_stale now u) end.
    + rewrite get_reap_tasks by done. by destruct (PyDict.get tid (tasks st)).
Qed.

Lemma view_of_finish r now t : view_of (finish_task r now t) = view_of t.
Proof. done. Qed.

Lemma same_up_to_upload_view t t' : same_up_to_upload t t' -> view_of t' = view_of t.
Proof. intros [<- _]. by destruct t'. Qed.

Lemma step_task_record rq st tid t :
  PyDict.wf (tasks st) ->
  not_resubmit tid rq ->
  task_record tid st = Some t ->
  exists t1, task_record tid (step rq st).2 = Some t1 /\ view_of t1 = view_of t.
Proof.
  intros Hwf Hrq Hrec. unfold task_record in *.
  destruct (step_entry rq st tid Hwf Hrq)
    as [(r & now & t0 & _ & _ & Hg & Hg1 & Hc1)
       | [(g & Hgv & Hg1) (h & Hhv & Hc1)]].
  - rewrite Hg in Hrec. injection Hrec as ->.
    rewrite Hg1, Hc1. by eexists.
  - rewrite Hg1, Hc1.
    destruct (PyDict.get tid (tasks st)) as [t0|]; simpl.
    + injection Hrec as ->. by eexists.
    + rewrite Hrec. simpl. eexists. split; [done|].
      by apply same_up_to_upload_view.
Qed.

(** X3. A task is never lost and its descriptor never changes: along any
    interleaving of requests that does not submit the id again, a task that
    is active or archived under [tid] is still active or archived under
    [tid] afterwards, with the same [task_id], paths, [created_at],
    [read_timeout] and transfer settings. *)
Theorem task_never_lost trace : forall st tid t,
  PyDict.wf (tasks st) ->
  Forall (not_resubmit tid) trace ->
  task_record tid st = Some t ->
  exists t', task_record tid (run trace st).2 = Some t' /\ view_of t' = view_of t.
Proof.
  induction trace as [|rq trace IH]; intros st tid t Hwf Hnr Hrec.
  - exists t. by split.
  - apply Forall_cons in Hnr as [Hrq Hnr]. rewrite run_cons. cbn [snd].
    pose proof (step_tasks_wf rq st Hwf) as Hwf1.
    destruct (step_task_record rq st tid t Hwf Hrq Hrec) as (t1 & Hrec1 & Hv1).
    destruct (IH _ tid t1 Hwf1 Hnr Hrec1) as (t' & Hrec' & Hv').
    exists t'. split; [done | congruence].
Qed.

Lemma task_never_lost_witness :
  exists t',
    task_record "b" (run [ GetTask "w1" 10 11;
                           SubmitTaskWithFiles fs_all "t1" "/data/p.jpg" "/data/p.lua" 11;
                           StartProcessing "b" "w1";
                           Cleanup 12; ReportResult (report_ok "b" "w1") 14 ]
                         st_pending).2 = Some t' /\
    view_of t' = mkTaskView "b" "b.jpg" "b.lua" 3 false None 10.
Proof.
  apply (task_never_lost _ st_pending "b" (new_task "b" "b.jpg" "b.lua" 3)).
  - apply (bool_decide_unpack _). by vm_compute.
  - repeat constructor. discriminate.
  - reflexivity.
Defined.

(** X4. The archive is final: once a task is archived and no longer active,
    no interleaving of requests that does not submit the id again brings it
    back or alters it, except that uploads add their three keys to its
    result; status, owner and every reported result field stay. *)
Theorem archived_is_final trace : forall st tid t,
  PyDict.wf (tasks st) ->
  Forall (not_resubmit tid) trace ->
  PyDict.get tid (tasks st) = None ->
  PyDict.get tid (completed_tasks st) = Some t ->
  PyDict.get tid (tasks (run trace st).2) = None /\
  exists t', PyDict.get tid (completed_tasks (run trace st).2) = Some t' /\
    same_up_to_upload t t'.
Proof.
  induction trace as [|rq trace IH]; intros st tid t Hwf Hnr Hg Hc.
  - split; [done|]. exists t. split; [done | apply same_up_to_upload_refl].
  - apply Forall_cons in Hnr as [Hrq Hnr]. rewrite run_cons. cbn [snd].
    pose proof (step_tasks_wf rq st Hwf) as Hwf1.
    destruct (step_entry rq st tid Hwf Hrq)
      as [(r & now & t0 & _ & _ & Hg0 & _) | [(g & _ & Hg1) (h & Hhv & Hc1)]].
    { congruence. }
    rewrite Hg in Hg1. rewrite Hc in Hc1. simpl in Hg1, Hc1.
    destruct (IH _ tid (h t) Hwf1 Hnr Hg1 Hc1) as (Hg' & t' & Hc' & Hsame).
    split; [done|]. exists t'. split; [done|].
    eapply same_up_to_upload_trans; [apply Hhv | done].
Qed.

Lemma archived_is_final_witness :
  let trace := [ UploadResult "results" "b" (IOSaved 15 2048);
                 ReportResult (report_failed "b" "w1") 16;
                 GetTask "w2" 17 18; Cleanup 2000 ] in
  PyDict.get "b" (tasks (run trace st_reported).2) = None /\
  exists t', PyDict.get "b" (completed_tasks (run trace st_reported).2) = Some t' /\
    status t' = COMPLETED /\ result_get "success" t' = Some (VBool true).
Proof.
  intros trace.
  destruct (archived_is_final trace st_reported "b"
              (finish_task (report_ok "b" "w1") 14
                 (mkTask "b" "b.jpg" "b.lua" 3 PROCESSING (Some "w1") (Some 11)
                         10 None None false)))
    as (Hgone & t' & Hc & Hset & Hres).
  - apply (bool_decide_unpack _). by vm_compute.
  - repeat constructor.
  - reflexivity.
  - reflexivity.
  - split; [exact Hgone|]. exists t'. split; [exact Hc|]. split.
    + exact (f_equal status Hset).
    + rewrite Hres; [reflexivity|].
      apply (bool_decide_unpack _). by vm_compute.
Defined.

(** X5. [get_task_status] answers 404 exactly for an id that is in neither
    dictionary, and a task that has been submitted can be queried ever
    after: along any interleaving that does not submit the id again the
    answer is 200 and carries the [created_at] of the submission. *)
Theorem status_always_available trace st tid t :
  PyDict.wf (tasks st) ->
  Forall (not_resubmit tid) trace ->
  task_record tid st = Some t ->
  (exists v, get_task_status tid (run trace st).2 = Ok200 v /\
     sv_task_id v = tid /\ sv_created_at v = created_at t) /\
  (forall st0 code detail,
     get_task_status tid st0 = HTTPException code detail ->
     code = 404%Z /\ task_record tid st0 = None).
Proof.
  intros Hwf Hnr Hrec. split.
  - assert (Hkept : exists t', task_record tid (run trace st).2 = Some t' /\
                                view_of t' = view_of t).
    { clear -Hwf Hnr Hrec. revert st t Hwf Hrec.
      induction Hnr as [|rq trace Hrq Hnr IH]; intros st t Hwf Hrec.
      - exists t. by split.
      - rewrite run_cons. cbn [snd].
        destruct (step_task_record rq st tid t Hwf Hrq Hrec) as (t1 & Hrec1 & Hv1).
        destruct (IH _ t1 (step_tasks_wf rq st Hwf) Hrec1) as (t' & Hrec' & Hv').
        exists t'. split; [done | congruence]. }
    destruct Hkept as (t' & Hrec' & Hv).
    exists (status_view tid t'). split; [|split; [done|]].
    + unfold get_task_status, task_record in *.
      destruct (PyDict.get tid (tasks (run trace st).2)); [congruence|].
      by rewrite Hrec'.
    + simpl. change (v_created_at (view_of t') = v_created_at (view_of t)).
      by rewrite Hv.
  - intros st0 code detail. unfold get_task_status, task_record.
    destruct (PyDict.get tid (tasks st0)); [done|].
    destruct (PyDict.get tid (completed_tasks st0)); [done|].
    by intros [= <- _].
Qed.

Lemma status_always_available_witness :
  exists v,
    get_task_status "b" (run [ GetTask "w1" 10 11; Cleanup 30;
                               GetTask "w2" 31 32;
                               ReportResult (report_ok "b" "w2") 40 ]
                             st_pending).2 = Ok200 v /\
    sv_task_id v = "b" /\ sv_created_at v = 3.
Proof.
  eapply (proj1 (status_always_available _ st_pending "b"
                   (new_task "b" "b.jpg" "b.lua" 3) _ _ _)).
  Unshelve.
  - apply (bool_decide_unpack _). by vm_compute.
  - repeat constructor.
  - reflexivity.
Defined.

(** ** More on the sweep *)

Lemma reset_not_expired now t : read_expired now (reset_task t) = false.
Proof. done. Qed.

Lemma reset_not_stale now t : processing_stale now (reset_task t) = false.
Proof. done. Qed.

Lemma reap_twice now t :
  reap_one (processing_stale now)
    (reap_one (read_expired now)
       (reap_one (processing_stale now) (reap_one (read_expired now) t))) =
  reap_one (processing_stale now) (reap_one (read_expired now) t).
Proof.
  destruct (read_expired now t) eqn:He.
  - unfold reap_one. rewrite He, !reset_not_stale, reset_not_expired.
    by rewrite reset_not_stale.
  - destruct (processing_stale now t) eqn:Hs.
    + unfold reap_one. rewrite He, Hs, reset_not_expired.
      by rewrite reset_not_stale.
    + unfold reap_one. by rewrite He, Hs, He, Hs.
Qed.

(** X6. The sweep is idempotent and keeps the queue in place: running it
    twice with the same clock reading gives what running it once gives, and
    it changes neither the order of the task dictionary nor the archive, so
    a reclaimed task is back at its old position. *)
Theorem sweep_idempotent now st :
  PyDict.wf (tasks st) ->
  cleanup_iteration now (cleanup_iteration now st) = cleanup_iteration now st /\
  PyDict.keys (tasks (cleanup_iteration now st)) = PyDict.keys (tasks st) /\
  completed_tasks (cleanup_iteration now st) = completed_tasks st.
Proof.
  intros Hwf. split; [|split; [|done]].
  - unfold cleanup_iteration. simpl. f_equal.
    + rewrite (reap_tasks_map now (reap_tasks now (tasks st)))
        by (by apply wf_reap_tasks).
      rewrite (reap_tasks_map now (tasks st)) by done.
      rewrite <- list_fmap_compose. apply list_fmap_ext.
      intros i [k t] _. simpl. by rewrite reap_twice.
    + unfold purge_clients. by apply map_filter_filter_l.
  - simpl. rewrite reap_tasks_map by done.
    apply (keys_fmap_values
             (fun t => reap_one (processing_stale now) (reap_one (read_expired now) t))).
Qed.

Lemma sweep_idempotent_witness :
  cleanup_iteration 111 (cleanup_iteration 111 st_abandoned) =
    cleanup_iteration 111 st_abandoned /\
  PyDict.keys (tasks (cleanup_iteration 111 st_abandoned)) = ["a"].
Proof.
  destruct (sweep_idempotent 111 st_abandoned) as (H1 & H2 & _).
  - repeat constructor. apply not_elem_of_nil.
  - split; [exact H1 | exact H2].
Defined.

(** X7. Polling and registering keep a worker registered: after a claim
    request at [t_seen] (or a registration at that time) the worker survives
    every sweep whose clock reading is at most 600 seconds later, with
    [last_seen = t_seen], however long ago it was seen before. *)
Theorem polling_keeps_registration now t_seen st :
  now - t_seen <= 600 ->
  (forall cid t_read info,
     clients st !! cid = Some info ->
     clients (cleanup_iteration now (get_task cid t_seen t_read st).2) !! cid =
       Some (set_last_seen t_seen info)) /\
  (forall c,
     clients (cleanup_iteration now (register_client c t_seen st).2)
       !! c_client_id c = Some (set_last_seen t_seen c)).
Proof.
  intros Hrecent. apply Qgtb_le in Hrecent. split.
  - intros cid t_read info Hc. simpl. rewrite purge_clients_lookup.
    assert (Hl : clients (get_task cid t_seen t_read st).2 !! cid =
                   Some (set_last_seen t_seen info)).
    { unfold get_task. rewrite Hc. unfold get_task_locked. rewrite Hc. simpl.
      destruct (find_available (tasks st)) as [[i t]|]; simpl;
        apply lookup_insert_eq. }
    rewrite Hl. simpl. by rewrite Hrecent.
  - intros c. simpl. rewrite purge_clients_lookup, lookup_insert_eq. simpl.
    by rewrite Hrecent.
Qed.

Lemma polling_keeps_registration_witness :
  clients (cleanup_iteration 1300 (get_task "w1" 700 701 st_silent).2) !! "w1" =
    Some (set_last_seen 700 (sample_client "w1")) /\
  clients (cleanup_iteration 1300 st_silent) !! "w1" = None.
Proof.
  split.
  - apply (proj1 (polling_keeps_registration 1300 700 st_silent
                    ltac:(discriminate))).
    reflexivity.
  - reflexivity.
Defined.

(** ** Lost leases and repeated calls *)

(** X8. A reclaimed lease is gone: once the sweep has reset a task (an
    expired read, or a processing task older than 1800 seconds), the
    previous owner's [start_processing] and [report_result] are refused
    with 403 and change nothing. *)
Theorem lost_lease_is_refused now st tid task w r t :
  PyDict.wf (tasks st) ->
  PyDict.get tid (tasks st) = Some task ->
  (status task = READING /\
   exists ra, read_at task = Some ra /\ ~ ra == 0 /\ read_timeout task < now - ra) \/
  (status task = PROCESSING /\ 1800 < now - created_at task) ->
  r_task_id r = tid -> r_client_id r = w ->
  let st1 := cleanup_iteration now st in
  PyDict.get tid (tasks st1) = Some (reset_task task) /\
  start_processing tid w st1 =
    (HTTPException 403 "Task does not belong to this client", st1) /\
  report_result r t st1 =
    (HTTPException 403 "Task does not belong to this client", st1).
Proof.
  intros Hwf Hg Hexp <- <- st1.
  assert (Hg1 : PyDict.get (r_task_id r) (tasks st1) = Some (reset_task task)).
  { subst st1. simpl. rewrite get_reap_tasks, Hg by done. simpl.
    destruct Hexp as [(Hs & ra & Hra & Hnz & Hlate) | (Hs & Hold)].
    - assert (He : read_expired now task = true).
      { unfold read_expired. rewrite Hs, Hra. simpl.
        apply andb_true_intro. split.
        - apply negb_true_iff, not_true_iff_false. intros H0.
          by apply Qeq_bool_iff in H0.
        - by apply Qgtb_gt. }
      unfold reap_one at 2. rewrite He. done.
    - assert (He : read_expired now task = false).
      { unfold read_expired. by rewrite Hs. }
      unfold reap_one at 2. rewrite He.
      unfold reap_one, processing_stale. rewrite Hs. simpl.
      apply Qgtb_gt in Hold. by rewrite Hold. }
  split; [done|]. split.
  - unfold start_processing. by rewrite Hg1.
  - unfold report_result. by rewrite Hg1.
Qed.

Lemma lost_lease_is_refused_witness :
  let st1 := cleanup_iteration 111 st_abandoned in
  start_processing "a" "w1" st1 =
    (HTTPException 403 "Task does not belong to this client", st1) /\
  report_result (report_ok "a" "w1") 112 st1 =
    (HTTPException 403 "Task does not belong to this client", st1).
Proof.
  intros st1.
  destruct (lost_lease_is_refused 111 st_abandoned "a"
              (mkTask "a" "a.jpg" "a.lua" 90 READING (Some "w1") (Some 100) 10
                      None None false) "w1" (report_ok "a" "w1") 112)
    as (_ & H1 & H2).
  - repeat constructor. apply not_elem_of_nil.
  - reflexivity.
  - left. split; [reflexivity|]. exists 100.
    split; [reflexivity|]. split; [discriminate | reflexivity].
  - reflexivity.
  - reflexivity.
  - split; [exact H1 | exact H2].
Defined.

(** X9. Repeated calls are rejected and harmless: after a successful
    [start_processing] the same call is answered 400, and after a
    successful [report_result] any further report for that task id is
    answered 404; neither changes the store. *)
Theorem repeated_calls_are_rejected :
  (forall tid cid st body st',
     start_processing tid cid st = (Ok200 body, st') ->
     exists detail,
       start_processing tid cid st' = (HTTPException 400 detail, st')) /\
  (forall r now st body st' r' now',
     PyDict.wf (tasks st) ->
     report_result r now st = (Ok200 body, st') ->
     r_task_id r' = r_task_id r ->
     report_result r' now' st' = (HTTPException 404 "Task does not exist", st')).
Proof.
  split.
  - intros tid cid st body st'. unfold start_processing at 1.
    destruct (PyDict.get tid (tasks st)) as [task|] eqn:Hg; [|done].
    destruct (negb (owned_by task cid)) eqn:Ho; [done|].
    destruct (negb (TaskStatus_eqb (status task) READING)); [done|].
    intros [= _ <-]. unfold start_processing. simpl.
    rewrite get_modify, Hg. simpl.
    replace (owned_by (set_status PROCESSING task) cid) with (owned_by task cid)
      by done.
    rewrite Ho. simpl. eauto.
  - intros r now st body st' r' now' Hwf. unfold report_result at 1.
    destruct (PyDict.get (r_task_id r) (tasks st)) as [task|] eqn:Hg; [|done].
    destruct (negb (owned_by task (r_client_id r))); [done|].
    intros [= _ <-] Hid. unfold report_result. simpl. rewrite Hid.
    rewrite get_del; [done|]. by apply wf_modify.
Qed.

Lemma repeated_calls_are_rejected_witness :
  (exists detail,
     start_processing "a" "w1" (start_processing "a" "w1" st_reading).2 =
       (HTTPException 400 detail, (start_processing "a" "w1" st_reading).2)) /\
  report_result (report_failed "a" "w1") 20
      (report_result (report_ok "a" "w1") 9 st_busy).2 =
    (HTTPException 404 "Task does not exist",
     (report_result (report_ok "a" "w1") 9 st_busy).2).
Proof.
  destruct repeated_calls_are_rejected as [Hconfirm Hreport]. split.
  - eapply (Hconfirm "a" "w1" st_reading). reflexivity.
  - eapply (Hreport (report_ok "a" "w1") 9 st_busy).
    + repeat constructor. apply not_elem_of_nil.
    + reflexivity.
    + reflexivity.
Defined.

(** ** Submitting *)

Lemma set_fresh {V} k (v : V) (d : PyDict.t V) :
  PyDict.get k d = None -> PyDict.set k v d = d ++ [(k, v)].
Proof.
  induction d as [|[k' v'] d IH]; simpl; [done|].
  destruct (String.eqb k k'); [done|]. intros Hg. by rewrite IH.
Qed.

Lemma count_pending_snoc (d : PyDict.t Task) k t :
  count_pending (d ++ [(k, t)]) =
    (count_pending d + if is_pending t then 1 else 0)%nat.
Proof.
  unfold count_pending, PyDict.values.
  rewrite fmap_app, List.filter_app, length_app. simpl.
  by destruct (is_pending t).
Qed.

Lemma submit_task_store tid photo xmp now st :
  PyDict.get tid (tasks st) = None ->
  (submit_task tid photo xmp now st).2 =
    mkStore (tasks st ++ [(tid, new_task tid photo xmp now)])
            (clients st) (completed_tasks st).
Proof.
  intros Hfresh. unfold submit_task, set_tasks. simpl. by rewrite set_fresh.
Qed.

(** X10. A submission under a fresh id goes to the end of the queue: the
    task dictionary grows by the new PENDING task at its last position, all
    other entries stay, and the reply's queue position is the number of
    pending tasks before plus one. *)
Theorem submit_task_appends tid photo xmp now st :
  PyDict.get tid (tasks st) = None ->
  submit_task tid photo xmp now st =
    (Ok200 (tid, S (count_pending (tasks st))),
     mkStore (tasks st ++ [(tid, new_task tid photo xmp now)])
             (clients st) (completed_tasks st)).
Proof.
  intros Hfresh. unfold submit_task, set_tasks. simpl.
  rewrite set_fresh by done. rewrite count_pending_snoc. simpl.
  by rewrite Nat.add_1_r.
Qed.

Lemma submit_task_appends_witness :
  submit_task "d" "d.jpg" "d.lua" 7 st_pending =
    (Ok200 ("d", 4%nat),
     mkStore (tasks st_pending ++ [("d", new_task "d" "d.jpg" "d.lua" 7)])
             (clients st_pending) (completed_tasks st_pending)).
Proof.
  apply (submit_task_appends "d" "d.jpg" "d.lua" 7 st_pending). reflexivity.
Defined.

(** X11. A new task does not overtake: when some pending task was created
    no later than the new one, a claim after the submission gets the same
    reply as a claim instead of it; and when nothing was pending, the claim
    after the submission gets the new task. *)
Theorem submit_does_not_overtake tid photo xmp now cid t_seen t_read st :
  PyDict.get tid (tasks st) = None ->
  is_Some (clients st !! cid) ->
  (Exists (fun t => status t = PENDING /\ created_at t <= now)
          (PyDict.values (tasks st)) ->
   (get_task cid t_seen t_read (submit_task tid photo xmp now st).2).1 =
     (get_task cid t_seen t_read st).1) /\
  (Forall (fun t => status t <> PENDING) (PyDict.values (tasks st)) ->
   (get_task cid t_seen t_read (submit_task tid photo xmp now st).2).1 =
     Ok200 (Some (view_of (new_task tid photo xmp now)))).
Proof.
  intros Hfresh [info Hc].
  rewrite submit_task_store by done.
  assert (Hscan : find_available (tasks st ++ [(tid, new_task tid photo xmp now)]) =
            (scan_step (length (tasks st)) (new_task tid photo xmp now)
               (scan_tasks (PyDict.values (tasks st)) 0 (None, None))).1).
  { unfold find_available, PyDict.values. rewrite fmap_app, scan_tasks_app.
    simpl. by rewrite length_fmap. }
  pose proof (scan_tasks_inv (PyDict.values (tasks st))) as Hinv.
  unfold get_task. simpl. rewrite Hc. unfold get_task_locked. simpl. rewrite Hc.
  simpl. rewrite Hscan. unfold find_available.
  destruct (scan_tasks (PyDict.values (tasks st)) 0 (None, None))
    as [[[i t0]|] e]; simpl in Hinv.
  - destruct Hinv as [-> (Hi & Hp & Hmin)]. split.
    + intros Hex. apply Exists_exists in Hex as (t & Hin & Hpt & Hle).
      apply list_elem_of_lookup in Hin as [j Hj].
      destruct (Hmin j t Hj Hpt) as [Hle0 _].
      unfold scan_step. simpl.
      assert (Hno : Qltb now (created_at t0) = false) by (apply Qltb_ge; lra).
      by rewrite Hno.
    + intros Hall. rewrite Forall_lookup in Hall. by destruct (Hall i t0 Hi).
  - destruct Hinv as [-> Hall]. split.
    + intros Hex. apply Exists_exists in Hex as (t & Hin & Hpt & _).
      rewrite Forall_forall in Hall. by destruct (Hall t Hin).
    + intros _. done.
Qed.

Lemma submit_does_not_overtake_witness :
  (get_task "w1" 10 11 (submit_task "d" "d.jpg" "d.lua" 7 st_pending).2).1 =
    (get_task "w1" 10 11 st_pending).1 /\
  (get_task "w1" 10 11 (submit_task "d" "d.jpg" "d.lua" 7 st_busy).2).1 =
    Ok200 (Some (view_of (new_task "d" "d.jpg" "d.lua" 7))).
Proof.
  split.
  - apply (submit_does_not_overtake "d" "d.jpg" "d.lua" 7 "w1" 10 11 st_pending).
    + reflexivity.
    + by eexists.
    + apply Exists_cons. left. split; [reflexivity | discriminate].
  - apply (submit_does_not_overtake "d" "d.jpg" "d.lua" 7 "w1" 10 11 st_busy).
    + reflexivity.
    + by eexists.
    + repeat constructor. discriminate.
Defined.

(** ** Uploads and downloads *)

Lemma get_dict_update_first {V} k (v : V) entries (d : PyDict.t V) :
  k ∉ entries.*1 ->
  PyDict.get k (dict_update ((k, v) :: entries) d) = Some v.
Proof.
  intros Hk. change (dict_update ((k, v) :: entries) d)
    with (dict_update entries (PyDict.set k v d)).
  rewrite get_dict_update_ne by done. apply get_set.
Qed.

Lemma attach_upload_path path ts size t :
  result_get "processed_image_path" (attach_upload path ts size t) =
    Some (VStr path).
Proof.
  unfold result_get, attach_upload. cbn [result set_result].
  apply get_dict_update_first. simpl.
  rewrite !not_elem_of_cons. repeat split; try done. apply not_elem_of_nil.
Qed.

(** X12. What is uploaded can be downloaded: after an accepted upload for
    an archived task, [download_task_result] serves the file saved by the
    upload, under the name [processed_<task_id>.jpg], as long as that file
    exists; if it does not, the answer is 404. *)
Theorem upload_then_download fs_exists suffix_lower dir tid ts size st task :
  PyDict.get tid (completed_tasks st) = Some task ->
  let st' := (upload_result dir tid (IOSaved ts size) st).2 in
  (fs_exists (processed_path dir tid) = true ->
   exists reply,
     download_task_result fs_exists suffix_lower tid st' = Ok200 reply /\
     d_path reply = processed_path dir tid /\
     d_filename reply = "processed_" +:+ tid +:+ ".jpg") /\
  (fs_exists (processed_path dir tid) = false ->
   download_task_result fs_exists suffix_lower tid st' =
     HTTPException 404 ("Result file does not exist: " +:+ processed_path dir tid)).
Proof.
  intros Hg st'. subst st'. rewrite (upload_result_saved _ _ _ _ _ _ Hg).
  cbn [snd]. unfold download_task_result, set_completed.
  cbn [completed_tasks]. rewrite get_modify, Hg.
  cbn [fmap option_fmap option_map].
  pose proof (attach_upload_path (processed_path dir tid) ts size task) as Hp.
  unfold result_get in Hp.
  destruct (result (attach_upload (processed_path dir tid) ts size task))
    as [[|e r]|]; [done | | done].
  rewrite Hp. split; intros ->; [|done]. eexists. by split.
Qed.

Lemma upload_then_download_witness :
  exists reply,
    download_task_result fs_all suffix_jpg "b"
      (upload_result "results" "b" (IOSaved 15 2048) st_reported).2 = Ok200 reply /\
    d_path reply = "results/b/processed.jpg" /\
    d_filename reply = "processed_b.jpg".
Proof.
  pose proof (upload_then_download fs_all suffix_jpg "results" "b" 15 2048
                st_reported _ eq_refl) as [Hserved _].
  apply Hserved. reflexivity.
Defined.

(** X13. Reporting alone gives nothing to download: right after a
    successful [report_result], whatever the outcome reported,
    [download_task_result] for that task answers 404 "Task result does not
    exist". *)
Theorem report_alone_has_no_download fs_exists suffix_lower r now st body st' :
  report_result r now st = (Ok200 body, st') ->
  download_task_result fs_exists suffix_lower (r_task_id r) st' =
    HTTPException 404 "Task result does not exist".
Proof.
  unfold report_result.
  destruct (PyDict.get (r_task_id r) (tasks st)) as [task|]; [|done].
  destruct (negb (owned_by task (r_client_id r))); [done|].
  intros [= _ <-]. unfold download_task_result. simpl.
  by rewrite get_set.
Qed.

Lemma report_alone_has_no_download_witness :
  download_task_result fs_all suffix_jpg "b" st_reported =
    HTTPException 404 "Task result does not exist".
Proof.
  apply (report_alone_has_no_download fs_all suffix_jpg (report_ok "b" "w1") 14
           (run [ GetTask "w1" 10 11; StartProcessing "b" "w1" ] st_pending).2
           "b" st_reported).
  reflexivity.
Defined.

(** X14. The files of a transfer task come back as submitted: after an
    accepted [submit_task_with_files], [download_file] serves the submitted
    photo as [before.jpg] and the submitted preset as [config.lua], any
    other file type is answered 400, and the queued task is PENDING with
    [requires_download] set; a submission whose photo or preset is missing
    is answered 404 and changes nothing. *)
Theorem transfer_files_round_trip fs_exists tid photo xmp now st fps :
  (fs_exists photo = true -> fs_exists xmp = true ->
   exists st' fps',
     submit_task_with_files fs_exists tid photo xmp now st fps =
       (Ok200 tid, (st', fps')) /\
     download_file fs_exists tid "photo" fps' =
       Ok200 (mkDownloadReply photo "image/jpeg" "before.jpg") /\
     download_file fs_exists tid "xmp" fps' =
       Ok200 (mkDownloadReply xmp "text/plain" "config.lua") /\
     (forall kind, kind <> "photo" -> kind <> "xmp" ->
        download_file fs_exists tid kind fps' =
          HTTPException 400 "Invalid file type, supported: photo, xmp") /\
     PyDict.get tid (tasks st') =
       Some (mkTask tid ("/tmp/lightroom_task_" +:+ tid +:+ "/before.jpg")
                    ("/tmp/lightroom_task_" +:+ tid +:+ "/config.lua")
                    now PENDING None None 10 None None true)) /\
  (fs_exists photo = false \/ fs_exists xmp = false ->
   exists detail,
     submit_task_with_files fs_exists tid photo xmp now st fps =
       (HTTPException 404 detail, (st, fps))).
Proof.
  split.
  - intros Hp Hx. unfold submit_task_with_files. rewrite Hp, Hx. simpl.
    do 2 eexists. split; [done|].
    unfold download_file. rewrite get_set. simpl. rewrite Hp, Hx. simpl.
    split; [done|]. split; [done|]. split; [|apply get_set].
    intros kind Hk1 Hk2.
    destruct (String.eqb_spec kind "photo"); [done|].
    by destruct (String.eqb_spec kind "xmp").
  - unfold submit_task_with_files.
    destruct (fs_exists photo); simpl; [|eauto].
    destruct (fs_exists xmp); simpl; [|eauto].
    by intros [|].
Qed.

Lemma transfer_files_round_trip_witness :
  (exists st' fps',
     submit_task_with_files fs_all "t1" "/data/p.jpg" "/data/p.lua" 5
         empty_store [] = (Ok200 "t1", (st', fps')) /\
     download_file fs_all "t1" "photo" fps' =
       Ok200 (mkDownloadReply "/data/p.jpg" "image/jpeg" "before.jpg")) /\
  (exists detail,
     submit_task_with_files fs_none "t1" "/data/p.jpg" "/data/p.lua" 5
         empty_store [] = (HTTPException 404 detail, (empty_store, []))).
Proof.
  split.
  - destruct (proj1 (transfer_files_round_trip fs_all "t1" "/data/p.jpg"
                       "/data/p.lua" 5 empty_store []))
      as (st' & fps' & H1 & H2 & _); [reflexivity | reflexivity |].
    exists st', fps'. split; [exact H1 | exact H2].
  - apply (proj2 (transfer_files_round_trip fs_none "t1" "/data/p.jpg"
                    "/data/p.lua" 5 empty_store [])).
    left. reflexivity.
Defined.

(** ** Waiting for a file *)

Lemma py_min_le_r a b : py_min a b <= b.
Proof.
  unfold py_min. destruct (Qltb b a) eqn:E; [apply Qle_refl|].
  by apply Qltb_ge in E.
Qed.

Lemma wait_loop_true env start timeout cfg fuel : forall rc delay sleeps,
  wait_loop env start timeout cfg fuel rc delay = (Returned true, sleeps) ->
  exists k, (rc <= k < rc + fuel)%nat /\
    p_exists (env k) = true /\ p_second (env k) = Ready /\
    (forall j, (rc <= j <= k)%nat -> p_now (env j) - start < timeout) /\
    (forall j, (rc <= j < k)%nat ->
       p_exists (env j) = false \/ p_second (env j) = Gone \/
       p_second (env j) = Empty).
Proof.
  induction fuel as [|fuel IH]; intros rc delay sleeps; simpl; [done|].
  destruct (Qltb (p_now (env rc) - start) timeout) eqn:Ht; simpl; [|done].
  apply Qltb_lt in Ht.
  set (next := wait_loop env start timeout cfg fuel (S rc)
                 (py_min (delay * backoff_factor cfg) 30)).
  assert (Hnext : next.1 = Returned true ->
            exists k, (rc <= k < rc + S fuel)%nat /\
              p_exists (env k) = true /\ p_second (env k) = Ready /\
              (forall j, (rc <= j <= k)%nat -> p_now (env j) - start < timeout) /\
              (forall j, (S rc <= j < k)%nat ->
                 p_exists (env j) = false \/ p_second (env j) = Gone \/
                 p_second (env j) = Empty)).
  { intros Hn.
    destruct (IH (S rc) (py_min (delay * backoff_factor cfg) 30) next.2)
      as (k & Hk & He & Hr & Hin & Hbefore).
    { fold next. rewrite <- Hn. by destruct next. }
    exists k. split; [lia|]. split; [done|]. split; [done|]. split; [|done].
    intros j Hj. destruct (decide (j = rc)) as [->|]; [done|]. apply Hin. lia. }
  destruct (p_exists (env rc)) eqn:He.
  - destruct (p_second (env rc)) eqn:Hs.
    + intros [= Hn _]. destruct (Hnext Hn) as (k & Hk & ? & ? & ? & Hb).
      exists k. repeat (split; [done|]). intros j Hj.
      destruct (decide (j = rc)) as [->|]; [by rewrite Hs; auto|]. apply Hb. lia.
    + intros [= Hn _]. destruct (Hnext Hn) as (k & Hk & ? & ? & ? & Hb).
      exists k. repeat (split; [done|]). intros j Hj.
      destruct (decide (j = rc)) as [->|]; [by rewrite Hs; auto|]. apply Hb. lia.
    + intros _. exists rc. split; [lia|]. split; [done|]. split; [done|]. split.
      * intros j Hj. by replace j with rc by lia.
      * intros j Hj. lia.
    + done.
  - intros [= Hn _]. destruct (Hnext Hn) as (k & Hk & ? & ? & ? & Hb).
    exists k. repeat (split; [done|]). intros j Hj.
    destruct (decide (j = rc)) as [->|]; [by auto|]. apply Hb. lia.
Qed.

(** X15. [wait_for_file_with_retries] reports a file only if it saw it: an
    answer [True] means that at some pass, within the retry budget and with
    every loop test so far inside the timeout, the file existed and was
    non-empty half a second later, and at no earlier pass was that so. *)
Theorem wait_true_means_ready cfg env start timeout sleeps :
  wait_for_file_with_retries cfg env start timeout = (Returned true, sleeps) ->
  exists k,
    (Z.of_nat k < max_file_wait_retries cfg)%Z /\
    p_exists (env k) = true /\ p_second (env k) = Ready /\
    (forall j, (j <= k)%nat ->
       p_now (env j) - start <
         match timeout with Some t => t | None => file_wait_timeout cfg end) /\
    (forall j, (j < k)%nat ->
       p_exists (env j) = false \/ p_second (env j) = Gone \/
       p_second (env j) = Empty).
Proof.
  unfold wait_for_file_with_retries. intros Hw.
  apply wait_loop_true in Hw as (k & Hk & He & Hr & Hin & Hb).
  exists k. split; [lia|]. split; [done|]. split; [done|]. split.
  - intros j Hj. apply Hin. lia.
  - intros j Hj. apply Hb. lia.
Qed.

Lemma wait_true_means_ready_witness :
  exists k,
    (Z.of_nat k < 5)%Z /\
    p_exists (env_third_look k) = true /\ p_second (env_third_look k) = Ready.
Proof.
  destruct (wait_true_means_ready default_wait_config env_third_look 100
              (Some 30) [2; 1 # 2; 6 # 2; 1 # 2])
    as (k & H1 & H2 & H3 & _).
  - reflexivity.
  - exists k. split; [exact H1|]. split; [exact H2 | exact H3].
Defined.

Lemma Qsum_cons x l : Qsum (x :: l) = x + Qsum l.
Proof. done. Qed.

Lemma wait_loop_sleeps env start timeout cfg fuel : forall rc delay,
  delay <= 30 ->
  let sleeps := (wait_loop env start timeout cfg fuel rc delay).2 in
  (length sleeps <= 2 * fuel)%nat /\
  Qsum sleeps <= inject_Z (Z.of_nat fuel) * (61 # 2).
Proof.
  induction fuel as [|fuel IH]; intros rc delay Hd.
  - split; [done|]. by vm_compute.
  - assert (Hfuel : inject_Z (Z.of_nat (S fuel)) ==
                    inject_Z (Z.of_nat fuel) + 1).
    { rewrite Nat2Z.inj_succ. unfold Z.succ. by rewrite inject_Z_plus. }
    assert (Hnil : Qsum [] <= inject_Z (Z.of_nat (S fuel)) * (61 # 2)).
    { assert (0 <= inject_Z (Z.of_nat fuel)).
      { change 0 with (inject_Z 0). rewrite <- Zle_Qle. lia. }
      rewrite Hfuel. change (Qsum []) with 0. lra. }
    cbn [wait_loop].
    destruct (Qltb (p_now (env rc) - start) timeout); cbn [negb].
    2:{ split; [cbn; lia | done]. }
    destruct (IH (S rc) (py_min (delay * backoff_factor cfg) 30)
                (py_min_le_r _ _)) as [Hlen Hsum].
    set (next := wait_loop env start timeout cfg fuel (S rc)
                   (py_min (delay * backoff_factor cfg) 30)) in *.
    assert (Hhalf : Qsum [1 # 2] <= inject_Z (Z.of_nat (S fuel)) * (61 # 2)).
    { assert (0 <= inject_Z (Z.of_nat fuel)).
      { change 0 with (inject_Z 0). rewrite <- Zle_Qle. lia. }
      rewrite Hfuel. change (Qsum [1 # 2]) with ((1 # 2) + 0). lra. }
    destruct (p_exists (env rc)).
    + destruct (p_second (env rc)); cbn [fst snd].
      * split; [cbn [length]; lia|]. rewrite !Qsum_cons, Hfuel. lra.
      * split; [cbn [length]; lia|]. rewrite !Qsum_cons, Hfuel. lra.
      * split; [cbn [length]; lia | done].
      * split; [cbn [length]; lia | done].
    + cbn [fst snd]. split; [cbn [length]; lia|]. rewrite !Qsum_cons, Hfuel. lra.
Qed.

(** X16. The wait is bounded: with an initial delay of at most 30 seconds,
    [wait_for_file_with_retries] sleeps at most twice per allowed retry and
    at most 30.5 seconds per allowed retry in total, whatever the file
    system and the clock do. *)
Theorem wait_is_bounded cfg env start timeout :
  retry_delay cfg <= 30 ->
  let sleeps := (wait_for_file_with_retries cfg env start timeout).2 in
  (length sleeps <= 2 * Z.to_nat (max_file_wait_retries cfg))%nat /\
  Qsum sleeps <= inject_Z (Z.of_nat (Z.to_nat (max_file_wait_retries cfg))) * (61 # 2).
Proof.
  intros Hd. unfold wait_for_file_with_retries. by apply wait_loop_sleeps.
Qed.

Lemma wait_is_bounded_witness :
  let sleeps := (wait_for_file_with_retries default_wait_config
                   (fun _ => mkProbe 100 false Gone) 100 None).2 in
  (length sleeps <= 10)%nat /\ Qsum sleeps <= 5 * (61 # 2).
Proof.
  apply (wait_is_bounded default_wait_config (fun _ => mkProbe 100 false Gone)
           100 None).
  discriminate.
Defined.

(** With the default settings a file that never appears costs five sleeps
    of 2, 3, 4.5, 6.75 and 10.125 seconds. *)
Example wait_default_backoff :
  wait_for_file_with_retries default_wait_config
    (fun _ => mkProbe 100 false Gone) 100 None =
  (Returned false, [2; 6 # 2; 18 # 4; 54 # 8; 162 # 16]).
Proof. reflexivity. Qed.

(** ** More on the timeout estimator *)

Lemma py_min_le_l a b : py_min a b <= a.
Proof.
  unfold py_min. destruct (Qltb b a) eqn:E; [|apply Qle_refl].
  apply Qltb_lt in E. by apply Qlt_le_weak.
Qed.

Lemma str_contains_prefix sub s :
  String.prefix sub s = true -> str_contains sub s = true.
Proof. destruct s; simpl; by intros ->. Qed.

Lemma str_contains_here sub rest : str_contains sub (sub +:+ rest) = true.
Proof.
  apply str_contains_prefix.
  induction sub as [|c sub IH]; simpl; [by destruct rest|].
  destruct (Ascii.ascii_dec c c); [done | congruence].
Qed.

Lemma str_contains_skip sub a s :
  str_contains sub s = true -> str_contains sub (a +:+ s) = true.
Proof.
  intros Hs. induction a as [|c a IH]; simpl; [done|].
  rewrite IH. apply orb_true_r.
Qed.

Lemma prefix_split p s :
  String.prefix p s = true -> exists rest, s = p +:+ rest.
Proof.
  revert s. induction p as [|c p IH]; intros s; simpl.
  - intros _. by exists s.
  - destruct s as [|c' s]; [done|]. simpl.
    destruct (Ascii.ascii_dec c c') as [<-|]; [|done].
    intros Hp. destruct (IH s Hp) as [rest ->]. by exists rest.
Qed.

Lemma str_contains_split sub s :
  str_contains sub s = true -> exists pre post, s = pre +:+ sub +:+ post.
Proof.
  induction s as [|c s IH]; cbn [str_contains]; intros Hc.
  - rewrite orb_false_r in Hc. destruct (prefix_split _ _ Hc) as [rest ->].
    by exists "", rest.
  - apply orb_true_iff in Hc as [Hp|Hc].
    + destruct (prefix_split _ _ Hp) as [rest ->]. by exists "", rest.
    + destruct (IH Hc) as (pre & post & ->). by exists (String c pre), post.
Qed.

Lemma str_app_assoc (a b c : string) : (a +:+ b) +:+ c = a +:+ (b +:+ c).
Proof.
  induction a as [|x a IH]; [done|].
  change (String x ((a +:+ b) +:+ c) = String x (a +:+ (b +:+ c))).
  by rewrite IH.
Qed.

(** A string that contains [a ++ b] contains [b]. *)
Lemma str_contains_suffix a b s :
  str_contains (a +:+ b) s = true -> str_contains b s = true.
Proof.
  intros Hc. destruct (str_contains_split _ _ Hc) as (pre & post & ->).
  rewrite str_app_assoc, <- str_app_assoc.
  apply str_contains_skip, str_contains_here.
Qed.

(** X17. The estimate respects its ceilings: for a readable preset with a
    mask group the estimate is at most [max_timeout_mask] (also when the
    base timeout alone is larger) and at most the uncapped sum; without a
    mask group but with a complex operation it is at most
    [max_timeout_complex]; an unreadable preset gets 30 seconds. *)
Theorem timeout_estimate_is_capped cfg :
  (forall lua,
     str_contains mask_gate lua = true ->
     calculate_processing_timeout cfg (Some lua) <= max_timeout_mask cfg /\
     calculate_processing_timeout cfg (Some lua) <=
       base_processing_timeout cfg +
       Qnat (str_count mask_marker lua) * mask_increment_seconds cfg) /\
  (forall lua,
     str_contains mask_gate lua = false ->
     Exists (fun op => str_contains op lua = true) complex_operations ->
     calculate_processing_timeout cfg (Some lua) <= max_timeout_complex cfg) /\
  calculate_processing_timeout cfg None = 30.
Proof.
  split; [|split; [|done]].
  - intros lua Hgate. unfold calculate_processing_timeout. rewrite Hgate.
    split; [apply py_min_le_r | apply py_min_le_l].
  - intros lua Hgate Hex. unfold calculate_processing_timeout. rewrite Hgate.
    assert (Hpos : (0 <? length (List.filter (fun op => str_contains op lua)
                                   complex_operations))%nat = true).
    { apply Nat.ltb_lt. apply Exists_exists in Hex as (op & Hin & Hop).
      assert (Hin' : In op (List.filter (fun op => str_contains op lua)
                              complex_operations)).
      { apply filter_In. split; [by apply list_elem_of_In | done]. }
      destruct (List.filter _ complex_operations); [done | simpl; lia]. }
    rewrite Hpos. apply py_min_le_r.
Qed.

Lemma timeout_estimate_is_capped_witness :
  calculate_processing_timeout (mkClientConfig 200 5 3 120 60)
    (Some lua_three_masks) <= 120 /\
  calculate_processing_timeout scenario_config (Some lua_radial) <= 60.
Proof.
  split.
  - apply (proj1 (timeout_estimate_is_capped (mkClientConfig 200 5 3 120 60))).
    reflexivity.
  - apply (proj1 (proj2 (timeout_estimate_is_capped scenario_config))).
    + reflexivity.
    + apply Exists_cons. right. apply Exists_cons. left. reflexivity.
Defined.

(** X18. A radial filter is charged twice: [GradientBasedCorrections] is a
    substring of [CircularGradientBasedCorrections], so a preset without a
    mask group whose only complex operation is the radial filter counts two
    operations and gets the base timeout plus two increments (capped). *)
Theorem radial_filter_counts_twice cfg lua :
  str_contains mask_gate lua = false ->
  str_contains "CircularGradientBasedCorrections" lua = true ->
  str_contains "LocalizedCorrections" lua = false ->
  str_contains "RetouchAreas" lua = false ->
  calculate_processing_timeout cfg (Some lua) =
    py_min (base_processing_timeout cfg + Qnat 2 * complex_increment_seconds cfg)
           (max_timeout_complex cfg).
Proof.
  intros Hgate Hcirc Hloc Hret.
  assert (Hgrad : str_contains "GradientBasedCorrections" lua = true).
  { apply (str_contains_suffix "Circular" "GradientBasedCorrections"). exact Hcirc. }
  unfold calculate_processing_timeout, complex_operations. rewrite Hgate.
  cbn [List.filter]. by rewrite Hloc, Hcirc, Hgrad, Hret.
Qed.

Lemma radial_filter_counts_twice_witness :
  calculate_processing_timeout scenario_config (Some lua_radial) = 11.
Proof.
  apply (radial_filter_counts_twice scenario_config lua_radial); reflexivity.
Defined.

(** ** The polling pass *)

Lemma servers_to_check_rotate avail current :
  servers_to_check avail current = rotate current avail.
Proof.
  unfold servers_to_check. apply list_eq. intros i.
  destruct (decide (i < length avail)%nat) as [Hi|Hi].
  - rewrite lookup_rotate_r by done.
    assert (Hall : forall n k j, (0 < length avail)%nat ->
              omap (fun i => avail !! ((current + i) mod length avail)) (seq k n) !! j =
              if decide (j < n)%nat
              then avail !! ((current + (k + j)) mod length avail) else None).
    { induction n as [|n IH]; intros k j Hk; [done|].
      simpl. destruct (avail !! ((current + k) mod length avail)) eqn:Hl.
      - destruct j as [|j]; simpl.
        + by rewrite Nat.add_0_r.
        + rewrite IH by lia. replace (S k + j)%nat with (k + S j)%nat by lia.
          repeat case_decide; try done; lia.
      - apply lookup_ge_None in Hl.
        pose proof (Nat.mod_upper_bound (current + k) (length avail)). lia. }
    rewrite (Hall (length avail) 0%nat) by lia. rewrite decide_True by done.
    simpl. f_equal. unfold rotate_nat_add.
    rewrite <- Nat2Z.inj_add, <- Nat2Z.inj_mod. by rewrite Nat2Z.id.
  - rewrite (lookup_ge_None_2 (rotate current avail))
      by (rewrite length_rotate; lia).
    apply lookup_ge_None_2.
    assert (Hlen : forall (f : nat -> option nat) l, (length (omap f l) <= length l)%nat).
    { intros f l. induction l as [|x l IH]; csimpl; [done|].
      destruct (f x); cbn [length]; lia. }
    pose proof (Hlen (fun i => avail !! ((current + i) mod length avail))
                  (seq 0 (length avail))) as H.
    rewrite length_seq in H. lia.
Qed.

Lemma server_eqb_refl s : server_eqb s s = true.
Proof.
  unfold server_eqb.
  rewrite !String.eqb_refl, Z.eqb_refl, eqb_reflx. simpl.
  destruct (s_last_error s); simpl; [rewrite String.eqb_refl|];
    destruct (s_last_failure_time s); simpl; by rewrite ?Qeq_bool_refl.
Qed.

Lemma server_eqb_url a b : server_eqb a b = true -> s_url a = s_url b.
Proof.
  unfold server_eqb. rewrite !andb_true_iff.
  intros [[[[[_ _] Hurl] _] _] _]. by apply String.eqb_eq.
Qed.

Lemma find_index_Some {A} (f : A -> bool) l j :
  find_index f l = Some j ->
  exists x, l !! j = Some x /\ f x = true /\
    forall i y, (i < j)%nat -> l !! i = Some y -> f y = false.
Proof.
  revert j. induction l as [|x l IH]; intros j; simpl; [done|].
  destruct (f x) eqn:Hx.
  - intros [= <-]. exists x. split; [done|]. split; [done|]. intros; lia.
  - destruct (find_index f l) as [j'|]; [|done]. simpl. intros [= <-].
    destruct (IH j' eq_refl) as (y & Hy & Hfy & Hbefore).
    exists y. split; [done|]. split; [done|].
    intros [|i] z Hi Hz; simpl in Hz; [congruence|].
    eapply Hbefore; [|done]. lia.
Qed.

Lemma find_index_is_Some {A} (f : A -> bool) l x :
  x ∈ l -> f x = true -> is_Some (find_index f l).
Proof.
  induction 1 as [x l|x y l Hin IH]; intros Hx; simpl.
  - rewrite Hx. by eexists.
  - destruct (f y); [by eexists|]. destruct (IH Hx) as [j ->]. by eexists.
Qed.

Lemma after_poll_idem resp clock p s :
  after_poll resp clock p (after_poll resp clock p s) = after_poll resp clock p s.
Proof.
  unfold after_poll. destruct (resp p) as [| code | |]; try done.
  by destruct ((code =? 200)%Z || (code =? 404)%Z).
Qed.

Lemma after_poll_url resp clock p s : s_url (after_poll resp clock p s) = s_url s.
Proof.
  unfold after_poll. destruct (resp p) as [| code | |]; try done.
  by destruct ((code =? 200)%Z || (code =? 404)%Z).
Qed.

Lemma record_task_servers p now st : ps_servers (record_task p now st) = ps_servers st.
Proof. unfold record_task. by destruct (ps_servers st !! p). Qed.

Lemma record_task_index p now st :
  ps_current_server_index (record_task p now st) = ps_current_server_index st.
Proof. unfold record_task. by destruct (ps_servers st !! p). Qed.

(** What the loop over [servers_to_check] does. *)
Lemma poll_servers_spec resp clock now avail : forall order st failures,
  Forall (fun p => p ∈ avail /\ is_Some (ps_servers st !! p)) order ->
  counts_keyed st ->
  let r := poll_servers resp clock now avail order st failures in
  (forall q, ps_servers (pl_state r) !! q =
     (if bool_decide (q ∈ pl_polled r) then after_poll resp clock q else id)
       <$> ps_servers st !! q) /\
  (pl_hit r = None ->
     pl_polled r = order /\
     pl_state r = with_servers (ps_servers (pl_state r)) st /\
     pl_failures r =
       (failures + length (List.filter (fun p => counts_as_failure (resp p)) order))%nat) /\
  (forall p task, pl_hit r = Some (p, task) ->
     exists pre post j,
       order = pre ++ p :: post /\ pl_polled r = pre ++ [p] /\
       pl_failures r = 0%nat /\
       (exists body, resp p = PollOk body) /\
       index_in_available (ps_servers (pl_state r)) avail p = Some j /\
       ps_current_server_index (pl_state r) = ((j + 1) mod length avail)%nat).
Proof.
  induction order as [|p rest IH]; intros st failures Hord Hkeys r.
  - subst r. cbn [poll_servers pl_state pl_polled pl_hit pl_failures].
    split; [|split; [|done]].
    + intros q. rewrite bool_decide_eq_false_2 by apply not_elem_of_nil.
      by destruct (ps_servers st !! q).
    + intros _. split; [done|]. split; [by destruct st | simpl; lia].
  - apply Forall_cons in Hord as [[Hp [sp Hsp]] Hrest].
    (* the result of going on with the rest of the order *)
    assert (Hgo : forall st' failures',
      (forall q, ps_servers st' !! q =
         (if decide (q = p) then after_poll resp clock p else id) <$> ps_servers st !! q) ->
      st' = with_servers (ps_servers st') st ->
      (pl_hit (poll_servers resp clock now avail rest st' failures') = None ->
       failures' = (failures + if counts_as_failure (resp p) then 1 else 0)%nat) ->
      let r' := polled_first p (poll_servers resp clock now avail rest st' failures') in
      (forall q, ps_servers (pl_state r') !! q =
         (if bool_decide (q ∈ pl_polled r') then after_poll resp clock q else id)
           <$> ps_servers st !! q) /\
      (pl_hit r' = None ->
         pl_polled r' = p :: rest /\
         pl_state r' = with_servers (ps_servers (pl_state r')) st /\
         pl_failures r' =
           (failures + length (List.filter (fun p => counts_as_failure (resp p))
                                 (p :: rest)))%nat) /\
      (forall p0 task, pl_hit r' = Some (p0, task) ->
         exists pre post j,
           p :: rest = pre ++ p0 :: post /\ pl_polled r' = pre ++ [p0] /\
           pl_failures r' = 0%nat /\
           (exists body, resp p0 = PollOk body) /\
           index_in_available (ps_servers (pl_state r')) avail p0 = Some j /\
           ps_current_server_index (pl_state r') = ((j + 1) mod length avail)%nat)).
    { intros st' failures' Hsrv Hidx Hfail r'.
      assert (Hrest' : Forall (fun p => p ∈ avail /\ is_Some (ps_servers st' !! p)) rest).
      { eapply Forall_impl; [exact Hrest|]. intros q [Hq [sq Hsq]].
        split; [done|]. rewrite Hsrv, Hsq. by eexists. }
      assert (Hkeys' : counts_keyed st').
      { unfold counts_keyed. rewrite Hidx. cbn [with_servers ps_task_counts ps_servers].
        apply Forall_lookup. intros q s' Hs'. rewrite Hsrv in Hs'.
        destruct (ps_servers st !! q) as [s0|] eqn:Hs0; [|done].
        simpl in Hs'. injection Hs' as <-.
        assert (Hu : s_url ((if decide (q = p) then after_poll resp clock p else id) s0)
                     = s_url s0) by (case_decide; [apply after_poll_url | done]).
        rewrite Hu. unfold counts_keyed in Hkeys. rewrite Forall_lookup in Hkeys.
        by apply (Hkeys q). }
      destruct (IH st' failures' Hrest' Hkeys') as (IH1 & IH2 & IH3).
      subst r'. unfold polled_first. cbn [pl_state pl_polled pl_hit pl_failures].
      split; [|split].
      - intros q. rewrite IH1, Hsrv.
        destruct (ps_servers st !! q) as [sq|]; [|done]. simpl. f_equal.
        destruct (decide (q = p)) as [->|Hne].
        + rewrite (bool_decide_eq_true_2 (p ∈ p :: _)) by left.
          case_bool_decide; simpl; [apply after_poll_idem | done].
        + assert (Hiff : q ∈ p :: pl_polled (poll_servers resp clock now avail rest
                                                st' failures') <->
                         q ∈ pl_polled (poll_servers resp clock now avail rest
                                          st' failures')).
          { rewrite elem_of_cons. split; [by intros [?|?] | by right]. }
          by rewrite (bool_decide_ext _ _ Hiff).
      - intros Hnone. destruct (IH2 Hnone) as (-> & Hst & ->).
        split; [done|]. split; [by rewrite Hst, Hidx|]. rewrite (Hfail Hnone). simpl.
        destruct (counts_as_failure (resp p)); simpl; lia.
      - intros p0 task Hhit.
        destruct (IH3 p0 task Hhit) as (pre & post & j & -> & -> & ? & ? & Hj & ?).
        exists (p :: pre), post, j. repeat (split; [done|]). done. }
    assert (Hsame : forall q, ps_servers st !! q = id <$> ps_servers st !! q)
      by (intros q; by destruct (ps_servers st !! q)).
    subst r. cbn [poll_servers].
    destruct (resp p) as [body | code | | msg] eqn:Hresp.
    + destruct (task_found body) as [task|] eqn:Hfound.
      * assert (Hknown : task_count_known p st = true).
        { unfold task_count_known. rewrite Hsp. unfold counts_keyed in Hkeys.
          rewrite Forall_lookup in Hkeys. by apply (Hkeys p). }
        rewrite Hknown.
        pose proof (find_index_is_Some
          (fun q => match ps_servers (record_task p now st) !! q,
                          ps_servers (record_task p now st) !! p with
                    | Some a, Some b => server_eqb a b
                    | _, _ => false
                    end) avail p Hp) as [j Hj].
        { rewrite record_task_servers, Hsp. apply server_eqb_refl. }
        unfold index_in_available. rewrite Hj.
        cbn [pl_state pl_polled pl_hit pl_failures]. split; [|split; [done|]].
        -- intros q. cbn. rewrite record_task_servers.
           destruct (ps_servers st !! q) as [sq|] eqn:Hsq; [|done]. simpl. f_equal.
           case_bool_decide as Hin; [|done].
           apply list_elem_of_singleton in Hin as ->.
           unfold after_poll. by rewrite ?Hresp.
        -- intros p0 task0 [= <- <-]. exists [], rest, j.
           split; [done|]. split; [done|]. split; [done|].
           split; [by eexists|]. split; [|done].
           cbn. exact Hj.
      * apply Hgo.
        -- intros q. rewrite (Hsame q). destruct (ps_servers st !! q); [|done].
           simpl. f_equal. case_decide as Hq; [|done]. subst q.
           unfold after_poll. by rewrite ?Hresp.
        -- by destruct st.
        -- intros _. rewrite ?Hresp. simpl. lia.
    + destruct ((code =? 200)%Z || (code =? 404)%Z) eqn:Hcode.
      * apply Hgo.
        -- intros q. rewrite (Hsame q). destruct (ps_servers st !! q); [|done].
           simpl. f_equal. case_decide as Hq; [|done]. subst q.
           unfold after_poll. by rewrite ?Hresp, ?Hcode.
        -- by destruct st.
        -- intros _. rewrite ?Hresp. simpl. lia.
      * apply Hgo.
        -- intros q. cbn. destruct (decide (q = p)) as [->|Hne].
           ++ rewrite list_lookup_alter_eq. unfold after_poll.
              by rewrite Hresp, Hcode.
           ++ rewrite list_lookup_alter_ne by done. apply Hsame.
        -- by destruct st.
        -- intros _. rewrite ?Hresp. simpl. lia.
    + apply Hgo.
      * intros q. cbn. destruct (decide (q = p)) as [->|Hne].
        -- rewrite list_lookup_alter_eq. unfold after_poll. by rewrite ?Hresp.
        -- rewrite list_lookup_alter_ne by done. apply Hsame.
      * done.
      * intros _. rewrite ?Hresp. simpl. lia.
    + apply Hgo.
      * intros q. cbn. destruct (decide (q = p)) as [->|Hne].
        -- rewrite list_lookup_alter_eq. unfold after_poll. by rewrite ?Hresp.
        -- rewrite list_lookup_alter_ne by done. apply Hsame.
      * done.
      * intros _. rewrite ?Hresp. simpl. lia.
Qed.

Lemma available_positions_spec servers p :
  p ∈ available_positions servers <->
  exists s, servers !! p = Some s /\ s_available s = true.
Proof.
  unfold available_positions. rewrite list_elem_of_In, filter_In, <- list_elem_of_In.
  rewrite elem_of_seq. split.
  - intros [_ Hp]. destruct (servers !! p) as [s|]; [|done]. by exists s.
  - intros (s & Hs & Ha). rewrite Hs. split; [|done].
    apply lookup_lt_Some in Hs. lia.
Qed.

Lemma rotate_Permutation {A} n (l : list A) : rotate n l ≡ₚ l.
Proof.
  unfold rotate. rewrite Permutation_app_comm. by rewrite take_drop.
Qed.

Lemma pass_order_ok st :
  Forall (fun p => p ∈ available_positions (ps_servers st) /\
                   is_Some (ps_servers st !! p))
         (servers_to_check (available_positions (ps_servers st))
                           (ps_current_server_index st)).
Proof.
  rewrite servers_to_check_rotate. apply Forall_forall. intros p Hp.
  apply elem_of_rotate in Hp. split; [done|].
  apply available_positions_spec in Hp as (s & -> & _). by eexists.
Qed.

(** X19. The polling order is a rotation: with every server entered in
    [task_counts], a pass polls available servers only, in the order of
    the list of available servers rotated to the pointer; when no server
    hands out a task every available server is polled exactly once, and
    when one does, polling stops with it. *)
Lemma poll_pass_some_server resp clock now failures st :
  available_positions (ps_servers st) <> [] ->
  poll_pass resp clock now failures st =
    let avail := available_positions (ps_servers st) in
    let r := poll_servers resp clock now avail
               (servers_to_check avail (ps_current_server_index st)) st failures in
    match pl_hit r with
    | Some _ => r
    | None =>
        mkPollLoop
          (mkPollState (ps_servers (pl_state r))
                       ((ps_current_server_index (pl_state r) + 1) mod length avail)
                       (ps_task_counts (pl_state r)) (ps_last_poll_time (pl_state r))
                       (S (ps_consecutive_empty_polls (pl_state r))))
          (pl_failures r) (pl_polled r) None
    end.
Proof.
  intros Hne. unfold poll_pass. by destruct (available_positions (ps_servers st)).
Qed.

Lemma poll_pass_no_server resp clock now failures st :
  available_positions (ps_servers st) = [] ->
  poll_pass resp clock now failures st = mkPollLoop st failures [] None.
Proof. intros Hnil. unfold poll_pass. by rewrite Hnil. Qed.

Theorem poll_pass_order resp clock now failures st :
  let avail := available_positions (ps_servers st) in
  let r := poll_pass resp clock now failures st in
  counts_keyed st ->
  pl_polled r `prefix_of` rotate (ps_current_server_index st) avail /\
  (pl_hit r = None ->
     pl_polled r = rotate (ps_current_server_index st) avail /\
     pl_polled r ≡ₚ avail) /\
  (forall p task, pl_hit r = Some (p, task) ->
     last (pl_polled r) = Some p /\ exists body, resp p = PollOk body).
Proof.
  intros avail r Hkeys. subst r.
  destruct (decide (avail = [])) as [Hnil|Hne].
  { rewrite poll_pass_no_server by done. rewrite Hnil. cbn [pl_polled pl_hit].
    assert (Hrot : rotate (ps_current_server_index st) ([] : list nat) = [])
      by (unfold rotate; by rewrite drop_nil, take_nil).
    rewrite Hrot. split; [done|]. split; [done|]. intros; congruence. }
  rewrite poll_pass_some_server by done. cbv zeta. fold avail.
  destruct (poll_servers_spec resp clock now avail
              (servers_to_check avail (ps_current_server_index st)) st failures
              (pass_order_ok st) Hkeys) as (_ & Hnone & Hhit).
  rewrite servers_to_check_rotate in *.
  set (r0 := poll_servers resp clock now avail
               (rotate (ps_current_server_index st) avail) st failures) in *.
  destruct (pl_hit r0) as [[p task]|] eqn:Hh.
  - destruct (Hhit p task eq_refl) as (pre & post & j & Hord & Hpol & _ & Hbody & _).
    split; [|split; [intros; congruence|]].
    + rewrite Hord, Hpol. exists post. by rewrite <- app_assoc.
    + intros p0 task0 Hh'.
      assert (p0 = p) as -> by congruence.
      split; [|done]. rewrite Hpol. apply last_snoc.
  - destruct (Hnone eq_refl) as (Hpol & _). cbn [pl_polled pl_hit].
    split; [by rewrite Hpol|]. split; [|done].
    intros _. split; [done|]. rewrite Hpol. apply rotate_Permutation.
Qed.

Lemma poll_pass_order_witness :
  counts_keyed poll_state_sample /\
  pl_polled (poll_pass (fun _ => PollOk None) (fun _ => 50) 40 0 poll_state_sample) =
    rotate 1 (available_positions (ps_servers poll_state_sample)).
Proof.
  split; [repeat constructor|].
  destruct (poll_pass_order (fun _ => PollOk None) (fun _ => 50) 40 0 poll_state_sample)
    as (_ & Hnone & _); [repeat constructor|].
  apply Hnone. reflexivity.
Defined.

(** X20. With every server entered in [task_counts] and some server
    available, the pointer always ends inside the list of available
    servers; a pass without a task advances it by one, and a pass with a
    task leaves it just after the server that gave the task (servers being
    told apart by their URL). *)
Theorem poll_pass_pointer resp clock now failures st :
  let avail := available_positions (ps_servers st) in
  let r := poll_pass resp clock now failures st in
  counts_keyed st -> avail <> [] ->
  (ps_current_server_index (pl_state r) < length avail)%nat /\
  (pl_hit r = None ->
     ps_current_server_index (pl_state r) =
       ((ps_current_server_index st + 1) mod length avail)%nat) /\
  (forall p task, pl_hit r = Some (p, task) ->
     NoDup (s_url <$> ps_servers st) ->
     exists j, avail !! j = Some p /\
       ps_current_server_index (pl_state r) = ((j + 1) mod length avail)%nat).
Proof.
  intros avail r Hkeys Hne. subst r.
  rewrite poll_pass_some_server by done. cbv zeta. fold avail.
  assert (Hlen : length avail <> 0%nat) by (by destruct avail).
  destruct (poll_servers_spec resp clock now avail
              (servers_to_check avail (ps_current_server_index st)) st failures
              (pass_order_ok st) Hkeys) as (Hsrv & Hnone & Hhit).
  set (r0 := poll_servers resp clock now avail
               (servers_to_check avail (ps_current_server_index st)) st failures) in *.
  destruct (pl_hit r0) as [[p task]|] eqn:Hh.
  - destruct (Hhit p task eq_refl) as (pre & post & j & _ & _ & _ & _ & Hj & Hidx).
    split; [|split; [intros; congruence|]].
    + rewrite Hidx. by apply Nat.mod_upper_bound.
    + intros p0 task0 Hh' Hnd.
      assert (p0 = p) as -> by congruence.
      apply find_index_Some in Hj as (q & Hq & Heq & _).
      exists j. split; [|done]. rewrite Hq. f_equal.
      assert (Hin : q ∈ avail) by (by eapply list_elem_of_lookup_2).
      apply available_positions_spec in Hin as (sq & Hsq & _).
      assert (Hurl : forall q0 s', ps_servers (pl_state r0) !! q0 = Some s' ->
                exists s0, ps_servers st !! q0 = Some s0 /\ s_url s' = s_url s0).
      { intros q0 s'. rewrite Hsrv.
        destruct (ps_servers st !! q0) as [s0|]; [|done]. simpl.
        intros [= <-]. exists s0. split; [done|].
        case_bool_decide; [apply after_poll_url | done]. }
      destruct (ps_servers (pl_state r0) !! q) as [sq'|] eqn:Hsq'; [|done].
      destruct (ps_servers (pl_state r0) !! p) as [sp'|] eqn:Hsp'; [|done].
      apply server_eqb_url in Heq.
      destruct (Hurl q sq' Hsq') as (sq0 & Hsq0 & Huq).
      destruct (Hurl p sp' Hsp') as (sp0 & Hsp0 & Hup).
      eapply (NoDup_lookup (s_url <$> ps_servers st)); [done | |].
      * by rewrite list_lookup_fmap, Hsq0.
      * rewrite list_lookup_fmap, Hsp0. simpl. congruence.
  - destruct (Hnone eq_refl) as (_ & Hst & _). cbn [pl_state pl_hit].
    cbn [ps_current_server_index]. rewrite Hst. cbn [with_servers ps_current_server_index].
    split; [by apply Nat.mod_upper_bound|]. split; done.
Qed.

Lemma poll_pass_pointer_witness :
  let resp := fun p : nat =>
    match p with
    | 2%nat => PollOk (Some (mkTaskView "t" "p" "x" 1 false None 10))
    | _ => PollOk None
    end in
  let r := poll_pass resp (fun _ => 50) 40 0 poll_state_sample in
  exists j,
    available_positions (ps_servers poll_state_sample) !! j = Some 2%nat /\
    ps_current_server_index (pl_state r) =
      ((j + 1) mod length (available_positions (ps_servers poll_state_sample)))%nat.
Proof.
  intros resp r.
  destruct (poll_pass_pointer resp (fun _ => 50) 40 0 poll_state_sample)
    as (_ & _ & Hhit).
  - repeat constructor.
  - discriminate.
  - apply (Hhit 2%nat (mkTaskView "t" "p" "x" 1 false None 10)).
    + reflexivity.
    + apply (bool_decide_unpack _). by vm_compute.
Defined.

(** In [poll_state_sample] the pointer is at 1, so the third broker is
    polled first; it hands out a task, and the pointer wraps to 0. *)
Example poll_hit_on_sample :
  let resp := fun p : nat =>
    match p with
    | 2%nat => PollOk (Some (mkTaskView "t" "p" "x" 1 false None 10))
    | _ => PollOk None
    end in
  let r := poll_pass resp (fun _ => 50) 40 0 poll_state_sample in
  pl_polled r = [2%nat] /\ ps_current_server_index (pl_state r) = 0%nat /\
  PyDict.get "http://10.0.0.3:8081" (ps_task_counts (pl_state r)) = Some 1%nat.
Proof. vm_compute. done. Qed.

Lemma filter_length_rotate {A} (f : A -> bool) n (l : list A) :
  length (List.filter f (rotate n l)) = length (List.filter f l).
Proof.
  unfold rotate. set (k := (n mod length l)%nat).
  assert (H : length (List.filter f l) =
              length (List.filter f (take k l ++ drop k l)))
    by (by rewrite take_drop).
  rewrite H, !List.filter_app, !length_app. lia.
Qed.

Lemma poll_pass_proj resp clock now failures st :
  let r0 := poll_servers resp clock now (available_positions (ps_servers st))
              (servers_to_check (available_positions (ps_servers st))
                                (ps_current_server_index st)) st failures in
  let r := poll_pass resp clock now failures st in
  pl_hit r = pl_hit r0 /\ pl_polled r = pl_polled r0 /\
  pl_failures r = pl_failures r0 /\
  ps_servers (pl_state r) = ps_servers (pl_state r0).
Proof.
  intros r0 r. subst r.
  destruct (decide (available_positions (ps_servers st) = [])) as [Hnil|Hne].
  - rewrite poll_pass_no_server by done. subst r0. by rewrite Hnil.
  - rewrite poll_pass_some_server by done. cbv zeta. fold r0.
    by destruct (pl_hit r0) eqn:Hh.
Qed.

(** X21. What a pass does to the servers and to the failure counter,
    every server being entered in [task_counts]: a server that answers
    with a status other than 200 and 404 gets [available = False],
    [last_error = "HTTP <status>"] and [last_failure_time] the clock
    reading, its address unchanged, and so do a server that times out
    (error ["Timeout"]) and one whose request raises (error the text of the
    exception); but only the last two are counted as failures.  Servers
    that are not polled or answer 200 or 404 are left as they are; a pass
    that gets a task resets the counter to 0. *)
Theorem poll_pass_failures resp clock now failures st :
  let avail := available_positions (ps_servers st) in
  let r := poll_pass resp clock now failures st in
  counts_keyed st ->
  (forall q code,
     q ∈ pl_polled r -> resp q = PollStatus code ->
     code <> 200%Z -> code <> 404%Z ->
     ps_servers (pl_state r) !! q =
       (fun s => mkServer (s_ip s) (s_port s) (s_url s) false
                          (Some ("HTTP " +:+ pretty code)) (Some (clock q)))
         <$> ps_servers st !! q) /\
  (forall q,
     (q ∉ pl_polled r \/ (exists body, resp q = PollOk body) \/
      resp q = PollStatus 404) ->
     ps_servers (pl_state r) !! q = ps_servers st !! q) /\
  (pl_hit r = None ->
     pl_failures r =
       (failures +
        length (List.filter (fun p => match resp p with
                                      | PollTimeout | PollError _ => true
                                      | PollOk _ | PollStatus _ => false
                                      end) avail))%nat) /\
  (forall p task, pl_hit r = Some (p, task) -> pl_failures r = 0%nat) /\
  (forall q,
     q ∈ pl_polled r -> resp q = PollTimeout ->
     ps_servers (pl_state r) !! q =
       (fun s => mkServer (s_ip s) (s_port s) (s_url s) false
                          (Some "Timeout") (Some (clock q)))
         <$> ps_servers st !! q) /\
  (forall q msg,
     q ∈ pl_polled r -> resp q = PollError msg ->
     ps_servers (pl_state r) !! q =
       (fun s => mkServer (s_ip s) (s_port s) (s_url s) false
                          (Some msg) (Some (clock q)))
         <$> ps_servers st !! q).
Proof.
  intros avail r Hkeys.
  destruct (poll_pass_proj resp clock now failures st) as (Hh & Hpol & Hf & Hs).
  fold r avail in Hh, Hpol, Hf, Hs. rewrite Hh, Hpol, Hf, Hs.
  destruct (poll_servers_spec resp clock now avail
              (servers_to_check avail (ps_current_server_index st)) st failures
              (pass_order_ok st) Hkeys) as (Hsrv & Hnone & Hhit).
  set (r0 := poll_servers resp clock now avail
               (servers_to_check avail (ps_current_server_index st)) st failures) in *.
  split; [|split; [|split; [|split; [|split]]]].
  - intros q code Hq Hresp H200 H404. rewrite Hsrv.
    rewrite bool_decide_eq_true_2 by done. unfold after_poll. rewrite Hresp.
    apply Z.eqb_neq in H200, H404. by rewrite H200, H404.
  - intros q Hq. rewrite Hsrv.
    assert (Hid : forall o : option Server, id <$> o = o) by (by intros []).
    destruct Hq as [Hq|[[body Hq]|Hq]].
    + rewrite bool_decide_eq_false_2 by done. apply Hid.
    + case_bool_decide; [|apply Hid]. unfold after_poll. rewrite Hq. apply Hid.
    + case_bool_decide; [|apply Hid]. unfold after_poll. rewrite Hq. apply Hid.
  - intros Hn. destruct (Hnone Hn) as (_ & _ & ->).
    by rewrite servers_to_check_rotate, filter_length_rotate.
  - intros p task Hp.
    by destruct (Hhit p task Hp) as (? & ? & ? & _ & _ & ? & _).
  - intros q Hq Hresp. rewrite Hsrv.
    rewrite bool_decide_eq_true_2 by done. unfold after_poll. by rewrite Hresp.
  - intros q msg Hq Hresp. rewrite Hsrv.
    rewrite bool_decide_eq_true_2 by done. unfold after_poll. by rewrite Hresp.
Qed.

Lemma poll_pass_failures_witness :
  counts_keyed poll_state_sample /\
  pl_failures (poll_pass (fun _ => PollTimeout) (fun _ => 50) 40 1 poll_state_sample) =
    (1 + length (List.filter (fun p : nat => counts_as_failure PollTimeout)
                   (available_positions (ps_servers poll_state_sample))))%nat.
Proof.
  split; [repeat constructor|].
  destruct (poll_pass_failures (fun _ => PollTimeout) (fun _ => 50) 40 1 poll_state_sample)
    as (_ & _ & Hnone & _); [repeat constructor|].
  apply Hnone. reflexivity.
Defined.

(** Three brokers all answering 403: each is marked unavailable, and the
    failure counter stays at 0. *)
Example all_forbidden_not_counted :
  let r := poll_pass (fun _ => PollStatus 403) (fun _ => 50) 40 0
             (mkPollState [ sample_server "10.0.0.1" true;
                            sample_server "10.0.0.2" true ] 0 [] [] 0) in
  pl_failures r = 0%nat /\
  (s_last_error <$> ps_servers (pl_state r)) = [ Some "HTTP 403"; Some "HTTP 403" ] /\
  available_positions (ps_servers (pl_state r)) = [].
Proof. vm_compute. done. Qed.

(** X22. An idle pass moves the pointer and nothing else: when some
    server is available and every available server answers 200 without a
    task, the servers, the task counters and the failure counter are
    unchanged, the pointer advances by one, and the empty-poll counter goes
    up by one. *)
Theorem idle_pass resp clock now failures st :
  let avail := available_positions (ps_servers st) in
  avail <> [] ->
  Forall (fun p => resp p = PollOk None) avail ->
  poll_pass resp clock now failures st =
    mkPollLoop
      (mkPollState (ps_servers st)
                   ((ps_current_server_index st + 1) mod length avail)
                   (ps_task_counts st) (ps_last_poll_time st)
                   (S (ps_consecutive_empty_polls st)))
      failures (rotate (ps_current_server_index st) avail) None.
Proof.
  intros avail Hne Hidle.
  rewrite poll_pass_some_server by done. cbv zeta. fold avail.
  rewrite servers_to_check_rotate.
  assert (Hloop : forall order, Forall (fun p => resp p = PollOk None) order ->
            poll_servers resp clock now avail order st failures =
              mkPollLoop st failures order None).
  { induction order as [|p rest IH]; intros Hall; [done|].
    apply Forall_cons in Hall as [Hp Hall]. cbn [poll_servers].
    rewrite Hp. cbn [task_found]. by rewrite (IH Hall). }
  rewrite Hloop; [done|].
  apply Forall_forall. intros p Hp. apply elem_of_rotate in Hp.
  rewrite Forall_forall in Hidle. by apply Hidle.
Qed.

Lemma idle_pass_witness :
  poll_pass (fun _ => PollOk None) (fun _ => 50) 40 3 poll_state_sample =
    mkPollLoop
      (mkPollState (ps_servers poll_state_sample) 0
                   (ps_task_counts poll_state_sample) [] 1)
      3 [2%nat; 0%nat] None.
Proof.
  apply (idle_pass (fun _ => PollOk None) (fun _ => 50) 40 3 poll_state_sample).
  - discriminate.
  - repeat constructor.
Defined.

(** ** Connecting, registering and health checks *)

Lemma register_single_server_down reply s :
  s_available s = false -> register_single_server reply s = (false, s, []).
Proof. intros H. unfold register_single_server. by rewrite H. Qed.

Lemma check_server_spec health reg now s :
  let r := check_server health reg now s in
  r.2 = [GetHealth (s_url s)] /\
  s_url r.1 = s_url s /\
  s_available r.1 = answered_ok health /\
  (s_available r.1 = true -> s_last_error r.1 = None).
Proof.
  unfold check_server. destruct health as [code j|msg]; simpl; [|done].
  destruct (code =? 200)%Z eqn:Hc; [|done].
  destruct (s_available s) eqn:Ha; simpl; [done|].
  by rewrite register_single_server_down.
Qed.

Lemma check_servers_spec health reg clock : forall servers p,
  let r := check_servers health reg clock p servers in
  r.2 = GetHealth ∘ s_url <$> servers /\
  forall q, r.1 !! q =
    (fun s => (check_server (health (p + q)%nat) (reg (p + q)%nat) (clock (p + q)%nat) s).1)
      <$> servers !! q.
Proof.
  induction servers as [|s rest IH]; intros p; [done|].
  cbn [check_servers].
  destruct (check_server_spec (health p) (reg p) (clock p) s) as (Hc & _).
  destruct (check_server (health p) (reg p) (clock p) s) as [s' calls] eqn:Hs.
  destruct (IH (S p)) as (IHc & IHl).
  destruct (check_servers health reg clock (S p) rest) as [rest' calls'].
  simpl in *. subst calls. split; [by rewrite IHc|].
  intros [|q]; simpl.
  - by rewrite Nat.add_0_r, Hs.
  - rewrite IHl. by replace (p + S q)%nat with (S (p + q)) by lia.
Qed.

(** X23. A health check sends one health probe per server, in list order,
    and nothing else: in particular no registration request, also to a
    server found recovered (the call of [register_single_server] returns
    at its first test, the server still being marked unavailable).
    Afterwards a server is available exactly when it answered 200, and then
    without a recorded error; the registration oracle is never read. *)
Theorem health_check_never_registers health reg clock servers :
  let r := health_check_all_servers health reg clock servers in
  r.2 = GetHealth ∘ s_url <$> servers /\
  List.filter is_registration r.2 = [] /\
  length r.1 = length servers /\
  (forall q s', r.1 !! q = Some s' ->
     s_available s' = answered_ok (health q) /\
     (s_available s' = true -> s_last_error s' = None)) /\
  (forall reg', health_check_all_servers health reg' clock servers = r).
Proof.
  intros r. subst r. unfold health_check_all_servers.
  destruct (check_servers_spec health reg clock servers 0) as (Hc & Hl).
  split; [done|]. split; [|split; [|split]].
  - rewrite Hc. clear. by induction servers as [|s rest IH].
  - apply Nat.le_antisymm.
    + apply Nat.nlt_ge. intros Hlt. apply lookup_lt_is_Some in Hlt as [s' Hs'].
      rewrite Hl, (lookup_ge_None_2 servers) in Hs'; [done|lia].
    + apply Nat.nlt_ge. intros Hlt. apply lookup_lt_is_Some in Hlt as [s Hs].
      pose proof (Hl (length (check_servers health reg clock 0 servers).1)) as H.
      rewrite Hs, lookup_ge_None_2 in H; [done|lia].
  - intros q s'. rewrite Hl. destruct (servers !! q) as [s|]; [|done].
    simpl. intros [= <-].
    by destruct (check_server_spec (health q) (reg q) (clock q) s) as (_ & _ & ? & ?).
  - intros reg'.
    assert (H : forall l p, check_servers health reg' clock p l =
                            check_servers health reg clock p l).
    { induction l as [|s rest IH]; intros p; [done|]. cbn [check_servers].
      rewrite IH. f_equal.
      unfold check_server. destruct (health p) as [code j|msg]; [|done].
      destruct (code =? 200)%Z; [|done].
      destruct (s_available s) eqn:Ha; simpl; [done|].
      by rewrite !register_single_server_down. }
    apply H.
Qed.

(** In [poll_state_sample] the second broker is down; when it answers the
    health probe again it is marked available, and the three probes are
    all that is sent. *)
Example recovered_server_not_registered :
  let r := health_check_all_servers (fun _ => HttpStatus 200 None)
             (fun _ => HttpStatus 200 None) (fun _ => 50)
             (ps_servers poll_state_sample) in
  (s_available <$> r.1) = [true; true; true] /\
  r.2 = [ GetHealth "http://10.0.0.1:8081"; GetHealth "http://10.0.0.2:8081";
          GetHealth "http://10.0.0.3:8081" ].
Proof. vm_compute. done. Qed.

Lemma register_single_server_spec reply s :
  let r := register_single_server reply s in
  r.1.1 = s_available r.1.2 /\
  s_available r.1.2 = s_available s && answered_ok reply /\
  s_url r.1.2 = s_url s /\
  r.2 = (if s_available s then [PostRegister (s_url s)] else []).
Proof.
  unfold register_single_server. destruct (s_available s) eqn:Ha; simpl; [|done].
  destruct reply as [code j|msg]; simpl; [|done].
  by destruct (code =? 200)%Z.
Qed.

Lemma register_servers_spec reg : forall servers p,
  let r := register_servers reg p servers in
  r.2 = PostRegister ∘ s_url <$> List.filter s_available servers /\
  (forall q, r.1.2 !! q =
     (fun s => (register_single_server (reg (p + q)%nat) s).1.2) <$> servers !! q) /\
  (r.1.1 <> 0%nat <-> exists q s', r.1.2 !! q = Some s' /\ s_available s' = true).
Proof.
  induction servers as [|s rest IH]; intros p.
  - simpl. split; [done|]. split; [done|]. split; [done|]. by intros (q & s' & ? & _).
  - cbn [register_servers].
    destruct (register_single_server_spec (reg p) s) as (Hok & _ & _ & Hcalls).
    destruct (register_single_server (reg p) s) as [[ok s'] calls] eqn:Hs.
    destruct (IH (S p)) as (IHc & IHl & IHn).
    destruct (register_servers reg (S p) rest) as [[n rest'] calls'].
    simpl in *. subst calls ok. split; [|split].
    + rewrite IHc. by destruct (s_available s).
    + intros [|q]; simpl.
      * by rewrite Nat.add_0_r, Hs.
      * rewrite IHl. by replace (p + S q)%nat with (S (p + q)) by lia.
    + destruct (s_available s') eqn:Ha.
      * split; [|done]. intros _. by exists 0%nat, s'.
      * rewrite IHn. split.
        -- intros (q & t & Hq & Ht). by exists (S q), t.
        -- intros ([|q] & t & Hq & Ht); simpl in Hq; [congruence|]. by exists q, t.
Qed.

Lemma available_positions_nonempty servers :
  available_positions servers <> [] <->
  exists q s, servers !! q = Some s /\ s_available s = true.
Proof.
  split.
  - intros Hne. destruct (available_positions servers) as [|q l] eqn:Hav; [done|].
    assert (Hq : q ∈ available_positions servers) by (rewrite Hav; left).
    apply available_positions_spec in Hq as (s & ? & ?). by exists q, s.
  - intros (q & s & Hq & Hs) Hnil.
    assert (Hin : q ∈ available_positions servers)
      by (apply available_positions_spec; by exists s).
    rewrite Hnil in Hin. by apply elem_of_nil in Hin.
Qed.

Lemma register_available reg servers :
  let r := register reg servers in
  (forall q, q ∈ available_positions r.1.2 <->
     q ∈ available_positions servers /\ answered_ok (reg q) = true) /\
  (r.1.1 = true <-> available_positions r.1.2 <> []).
Proof.
  intros r. subst r. unfold register.
  destruct (register_servers_spec reg servers 0) as (Hc & Hl & Hn).
  destruct (register_servers reg 0 servers) as [[n servers'] calls]. simpl in *.
  split.
  - intros q. rewrite !available_positions_spec, Hl. split.
    + intros (s' & Hs' & Ha). destruct (servers !! q) as [s|]; [|done].
      simpl in Hs'. injection Hs' as <-.
      destruct (register_single_server_spec (reg q) s) as (_ & Hav & _).
      rewrite Hav in Ha. apply andb_true_iff in Ha as [? ?]. split; [by exists s|done].
    + intros [(s & Hs & Ha) Hok]. rewrite Hs. simpl. eexists. split; [done|].
      destruct (register_single_server_spec (reg q) s) as (_ & Hav & _).
      by rewrite Hav, Ha, Hok.
  - rewrite available_positions_nonempty, <- Hn.
    destruct n; simpl; split; done.
Qed.

(** X24. [register] contacts exactly the servers that are marked
    available, in list order; a server is available afterwards exactly
    when it was before and answered its registration with 200; and
    [register] returns true exactly when some server is left available. *)
Theorem register_outcome reg servers :
  let r := register reg servers in
  r.2 = PostRegister ∘ s_url <$> List.filter s_available servers /\
  (forall q, q ∈ available_positions r.1.2 <->
     q ∈ available_positions servers /\ answered_ok (reg q) = true) /\
  (r.1.1 = true <-> available_positions r.1.2 <> []).
Proof.
  intros r. split; [|apply register_available].
  subst r. unfold register.
  destruct (register_servers_spec reg servers 0) as (Hc & _).
  by destruct (register_servers reg 0 servers) as [[n servers'] calls].
Qed.

Lemma test_server_spec reply s :
  let r := test_server reply s in
  r.1 = healthy reply /\ s_available r.2 = healthy reply /\ s_url r.2 = s_url s.
Proof.
  unfold healthy, test_server.
  destruct reply as [code [msg|]|msg]; simpl; try done; by destruct (code =? 200)%Z.
Qed.

Lemma test_servers_spec health : forall servers p,
  let r := test_servers health p servers in
  r.2 = GetHealth ∘ s_url <$> servers /\
  (forall q, r.1.2 !! q =
     (fun s => (test_server (health (p + q)%nat) s).2) <$> servers !! q) /\
  (r.1.1 <> 0%nat <-> exists q s', r.1.2 !! q = Some s' /\ s_available s' = true).
Proof.
  induction servers as [|s rest IH]; intros p.
  - simpl. split; [done|]. split; [done|]. split; [done|]. by intros (q & s' & ? & _).
  - cbn [test_servers].
    destruct (test_server_spec (health p) s) as (Hok & Hav & _).
    destruct (test_server (health p) s) as [ok s'] eqn:Hs.
    destruct (IH (S p)) as (IHc & IHl & IHn).
    destruct (test_servers health (S p) rest) as [[n rest'] calls'].
    simpl in *. split; [|split].
    + by rewrite IHc.
    + intros [|q]; simpl.
      * by rewrite Nat.add_0_r, Hs.
      * rewrite IHl. by replace (p + S q)%nat with (S (p + q)) by lia.
    + rewrite <- Hav in Hok. subst ok. destruct (s_available s') eqn:Ha.
      * split; [|done]. intros _. by exists 0%nat, s'.
      * rewrite IHn. split.
        -- intros (q & t & Hq & Ht). by exists (S q), t.
        -- intros ([|q] & t & Hq & Ht); simpl in Hq; [congruence|]. by exists q, t.
Qed.

Lemma test_connections_available health lightroom servers :
  let r := test_connections health lightroom servers in
  (forall q, q ∈ available_positions r.1.2 <->
     (q < length servers)%nat /\ healthy (health q) = true) /\
  r.2 = (GetHealth ∘ s_url <$> servers) ++
        (if bool_decide (available_positions r.1.2 = []) then [] else [PostLightroom]) /\
  (r.1.1 = true <->
     available_positions r.1.2 <> [] /\ lightroom_responds lightroom = true).
Proof.
  intros r. subst r. unfold test_connections.
  destruct (test_servers_spec health servers 0) as (Hc & Hl & Hn).
  destruct (test_servers health 0 servers) as [[n servers'] calls]. simpl in *.
  assert (Hsrv : forall q, q ∈ available_positions servers' <->
            (q < length servers)%nat /\ healthy (health q) = true).
  { intros q. rewrite available_positions_spec, Hl. split.
    - intros (s' & Hs' & Ha). destruct (servers !! q) as [s|] eqn:Hs; [|done].
      simpl in Hs'. injection Hs' as <-.
      destruct (test_server_spec (health q) s) as (_ & Hav & _).
      split; [by eapply lookup_lt_Some | congruence].
    - intros [Hq Hh]. apply lookup_lt_is_Some in Hq as [s Hs]. rewrite Hs. simpl.
      eexists. split; [done|].
      destruct (test_server_spec (health q) s) as (_ & Hav & _). congruence. }
  rewrite <- available_positions_nonempty in Hn.
  destruct n as [|n]; simpl.
  - assert (Hnil : available_positions servers' = []).
    { destruct (available_positions servers'); [done|]. exfalso. by apply Hn. }
    split; [done|]. rewrite Hnil. simpl. split; [by rewrite app_nil_r|].
    split; [done|]. by intros [? _].
  - assert (Hne : available_positions servers' <> []) by (by apply Hn).
    split; [done|]. rewrite bool_decide_eq_false_2 by done. split; [by rewrite Hc|].
    split; [by intros ->|by intros [_ ?]].
Qed.

(** X25. [test_connections] probes every server, whatever its state, and
    marks as available exactly those that answer 200 with a readable body;
    it probes the local Lightroom bridge only when some server is
    available, and returns true exactly when some server is available and
    the bridge answers 200, 400 or 500. *)
Theorem test_connections_outcome health lightroom servers :
  let r := test_connections health lightroom servers in
  (forall q, q ∈ available_positions r.1.2 <->
     (q < length servers)%nat /\ healthy (health q) = true) /\
  (r.1.1 = true <->
     available_positions r.1.2 <> [] /\ lightroom_responds lightroom = true) /\
  (PostLightroom ∈ r.2 <-> available_positions r.1.2 <> []) /\
  List.filter is_registration r.2 = [].
Proof.
  intros r.
  destruct (test_connections_available health lightroom servers) as (Hsrv & Hc & Hok).
  fold r in Hsrv, Hc, Hok.
  split; [done|]. split; [done|].
  assert (Hprobes : forall l : list Server,
            (PostLightroom ∉ (GetHealth ∘ s_url <$> l)) /\
            List.filter is_registration (GetHealth ∘ s_url <$> l) = []).
  { induction l as [|s l [IH1 IH2]]; [split; [apply not_elem_of_nil|done]|].
    split; [|done]. csimpl. rewrite not_elem_of_cons. by split. }
  destruct (Hprobes servers) as [Hno Hreg].
  rewrite Hc, List.filter_app, Hreg, elem_of_app.
  case_bool_decide as Hav; simpl.
  - split; [|done]. split; [|done]. intros [?|Hin]; [done|]. by apply elem_of_nil in Hin.
  - split; [|done]. split; [done|]. intros _. right. left.
Qed.

(** X26. Reconnecting ([test_connections], then [register] if it
    succeeds) depends only on the answers received, not on how the servers
    were marked before: it succeeds exactly when the Lightroom bridge
    answers 200, 400 or 500 and some server answers its health probe
    with 200 and a readable body and its registration with 200; the servers available afterwards are then
    exactly those, so that the next polling pass has a server to poll. *)
Theorem reconnect_outcome health lightroom reg servers :
  let r := reconnect health lightroom reg servers in
  let accepted q :=
    (q < length servers)%nat /\ healthy (health q) = true /\
    answered_ok (reg q) = true in
  (r.1.1 = true <-> lightroom_responds lightroom = true /\ exists q, accepted q) /\
  (r.1.1 = true ->
     available_positions r.1.2 <> [] /\
     forall q, q ∈ available_positions r.1.2 <-> accepted q).
Proof.
  intros r accepted. subst r. unfold reconnect.
  destruct (test_connections_available health lightroom servers) as (Hsrv & _ & Hok).
  destruct (test_connections health lightroom servers) as [[ok servers1] calls1].
  simpl in *.
  destruct (register_available reg servers1) as (Hreg & Hrok).
  destruct (register reg servers1) as [[ok2 servers2] calls2]. simpl in *.
  assert (Hacc : forall q, q ∈ available_positions servers2 <-> accepted q).
  { intros q. rewrite Hreg, Hsrv. unfold accepted. tauto. }
  assert (Hex : available_positions servers2 <> [] <-> exists q, accepted q).
  { split.
    - intros Hne. destruct (available_positions servers2) as [|q l] eqn:Hav; [done|].
      exists q. apply Hacc. left.
    - intros [q Hq] Hnil. apply Hacc in Hq. rewrite Hnil in Hq.
      by apply elem_of_nil in Hq. }
  destruct ok; simpl.
  - destruct Hok as [Hok _]. destruct (Hok eq_refl) as [_ Hlr].
    split; [|intros H; split; [by apply Hrok|done]].
    rewrite Hrok, Hex. tauto.
  - split; [|done]. split; [done|]. intros [Hlr [q (Hq & Hh & _)]].
    destruct Hok as [_ Hok]. apply Hok. split; [|done].
    intros Hnil. assert (Hin : q ∈ available_positions servers1) by (by apply Hsrv).
    rewrite Hnil in Hin. by apply elem_of_nil in Hin.
Qed.

(** ** The worker's [process_task] *)

Example process_task_smooth :
  process_task default_config 10 "w1" "http://10.0.0.1:8081"
    (mkTaskView "a" "a.jpg" "a.lua" 5 false None 10) env_smooth =
  (true,
   [ Confirm "http://10.0.0.1:8081" "a" "w1";
     Lightroom "a.jpg" "a.lua" "a" 15;
     Report "http://10.0.0.1:8081"
       (mkTaskResult "a" "w1" true 3 None (Some [("output_path", VStr "/tmp/out.jpg")]));
     Upload "http://10.0.0.1:8081" "a" "/tmp/out.jpg" ]).
Proof. vm_compute. done. Qed.

Ltac step_oracle :=
  match goal with
  | |- context [e_confirm ?e] => destruct (e_confirm e) as [? [?|]|?] eqn:?
  | |- context [(?c =? 200)%Z] => destruct (c =? 200)%Z eqn:?
  | |- context [v_requires_download ?t] => destruct (v_requires_download t) eqn:?
  | |- context [e_download ?e] => destruct (e_download e) eqn:?
  | |- context [e_exists ?e ?p] => destruct (e_exists e p) as [| |?] eqn:?
  | |- context [e_lightroom ?e] => destruct (e_lightroom e) as [? ? []|?] eqn:?
  | |- context [read_output ?j ?f] => destruct (read_output j f) as [? [?|]] eqn:?
  | |- context [path_given ?p] => destruct (path_given p) eqn:?
  | |- context [e_output_exists ?e] => destruct (e_output_exists e) eqn:?
  | |- context [e_image ?e] => destruct (e_image e) eqn:?
  end.

Lemma read_output_path json inspect_raises d p :
  read_output json inspect_raises = (d, Some p) ->
  PyDict.get "output_path" d = Some (VStr p).
Proof.
  unfold read_output. destruct json as [rd|]; [|done].
  destruct (PyDict.get "output_path" rd) as [[]|] eqn:Hg; try done.
  destruct (inspect_raises _); [done|]. by intros [= <- <-].
Qed.

Lemma process_task_shape cfg buffer cid url task env :
  let r := process_task cfg buffer cid url task env in
  let tid := v_task_id task in
  match e_confirm env with
  | HttpStatus code None =>
      if (code =? 200)%Z then reported_once cid url tid r
      else r = (false, [Confirm url tid cid])
  | _ => reported_once cid url tid r
  end.
Proof.
  intros r tid. subst r tid.
  unfold reported_once, process_task, process_task_body, upload_processed_image.
  unfold mbind, Try_bind, mret, Try_ret, emit, raise.
  repeat (step_oracle;
          cbn -[calculate_processing_timeout Qplus String.append path_given]).
  all: try discriminate.
  all: first
    [ reflexivity
    | first [ eexists [], _, _; split; [reflexivity|]
            | eexists [_], _, _; split; [reflexivity|]
            | eexists [_; _], _, _; split; [reflexivity|] ];
      repeat (split; [done|]);
      first
        [ by left
        | right; split; [done|]; eexists _, _; split; [reflexivity|];
          split; [by intros -> |]; split; [reflexivity|];
          eapply read_output_path; eassumption ] ].
Qed.



Lemma deliver_local dir now io pre :
  forallb is_local pre = true -> omap (deliver dir now io) pre = [].
Proof.
  induction pre as [|e pre IH]; [done|]. simpl.
  intros [He Hpre]%andb_true_iff. specialize (IH Hpre).
  by destruct e; try discriminate; csimpl.
Qed.

Lemma run_app trace1 trace2 st :
  (run (trace1 ++ trace2) st).2 = (run trace2 (run trace1 st).2).2.
Proof.
  revert st. induction trace1 as [|rq trace1 IH]; intros st; [done|].
  change ((rq :: trace1) ++ trace2) with (rq :: (trace1 ++ trace2)).
  rewrite !run_cons. cbn [snd]. apply IH.
Qed.

(** A request that keeps the lease leaves a processing task as it is. *)
Lemma step_keeps_processing rq st tid cid t :
  store_inv st ->
  PyDict.get tid (tasks st) = Some t ->
  status t = PROCESSING -> client_id t = Some cid ->
  keeps_lease tid cid (created_at t) rq ->
  PyDict.get tid (tasks (step rq st).2) = Some t.
Proof.
  intros [Hwf Hun] Hg Hst Hown Hrq.
  destruct rq as [c now | c t_seen t_read | tid0 c | r now
                 | dir tid0 io | tid0 photo xmp now | fs tid0 photo xmp now | now].
  - done.
  - rewrite step_GetTask. cbn [snd].
    destruct (get_task_cases c t_seen t_read st Hwf)
      as (_ & _ & [(_ & -> & _) | (t' & _ & Hg' & Hp & ->)]); [done|].
    rewrite get_modify_ne; [done|]. intros Heq. rewrite Heq in Hg'. congruence.
  - simpl. unfold start_processing.
    destruct (PyDict.get tid0 (tasks st)) as [task|] eqn:Hg0; [|done].
    destruct (negb (owned_by task c)); [done|].
    destruct (negb (TaskStatus_eqb (status task) READING)) eqn:Hs; [done|].
    simpl. rewrite get_modify_ne; [done|]. intros Heq. rewrite Heq in Hg0.
    apply negb_false_iff, TaskStatus_eqb_eq in Hs. congruence.
  - simpl. unfold report_result.
    destruct (PyDict.get (r_task_id r) (tasks st)) as [task|] eqn:Hg0; [|done].
    destruct (negb (owned_by task (r_client_id r))) eqn:Ho; [done|].
    simpl. simpl in Hrq.
    assert (Hne : r_task_id r <> tid).
    { intros Heq. apply Hrq. split; [done|].
      apply negb_false_iff, owned_by_true in Ho. rewrite Heq in Hg0. congruence. }
    by rewrite get_del_ne, get_modify_ne.
  - simpl. unfold upload_result. destruct (negb _); [done|]. by destruct io.
  - simpl in *. by rewrite get_set_ne.
  - rewrite step_SubmitTaskWithFiles. simpl in Hrq.
    destruct (fs photo && fs xmp); [|done]. simpl. by rewrite get_set_ne.
  - simpl in *. rewrite get_reap_tasks by apply Hwf. rewrite Hg. simpl.
    unfold reap_one.
    assert (Hr : read_expired now t = false).
    { unfold read_expired. by rewrite Hst. }
    rewrite Hr.
    assert (Hp : processing_stale now t = false).
    { unfold processing_stale. rewrite Hst. simpl. by apply Qgtb_le. }
    by rewrite Hp.
Qed.

Lemma run_keeps_processing trace : forall st tid cid t,
  store_inv st ->
  PyDict.get tid (tasks st) = Some t ->
  status t = PROCESSING -> client_id t = Some cid ->
  Forall (keeps_lease tid cid (created_at t)) trace ->
  PyDict.get tid (tasks (run trace st).2) = Some t /\ store_inv (run trace st).2.
Proof.
  induction trace as [|rq trace IH]; intros st tid cid t Hinv Hg Hst Hown Hall.
  - by split.
  - apply Forall_cons in Hall as [Hrq Hall]. rewrite run_cons. cbn [snd].
    apply (IH _ tid cid t); [by apply step_store_inv | | done | done | done].
    by eapply step_keeps_processing.
Qed.

(** An archived task stays archived, with its status. *)
Lemma archived_stays trace : forall st tid t,
  PyDict.wf (tasks st) ->
  Forall (not_resubmit tid) trace ->
  PyDict.get tid (tasks st) = None ->
  PyDict.get tid (completed_tasks st) = Some t ->
  PyDict.get tid (tasks (run trace st).2) = None /\
  exists t', PyDict.get tid (completed_tasks (run trace st).2) = Some t' /\
    status t' = status t /\ client_id t' = client_id t.
Proof.
  induction trace as [|rq trace IH]; intros st tid t Hwf Hnr Hg Hc.
  - split; [done|]. by exists t.
  - apply Forall_cons in Hnr as [Hrq Hnr]. rewrite run_cons. cbn [snd].
    pose proof (step_tasks_wf rq st Hwf) as Hwf1.
    destruct (step_entry rq st tid Hwf Hrq)
      as [(r & now & t0 & _ & _ & Hg0 & _) | [(g & _ & Hg1) (h & Hhv & Hc1)]].
    { congruence. }
    rewrite Hg in Hg1. rewrite Hc in Hc1. simpl in Hg1, Hc1.
    destruct (IH _ tid (h t) Hwf1 Hnr Hg1 Hc1) as (Hg' & t' & Hc' & Hs' & Ho').
    split; [done|]. exists t'. split; [done|].
    destruct (Hhv t) as [Hset _].
    pose proof (f_equal status Hset) as H1.
    pose proof (f_equal client_id Hset) as H2.
    simpl in H1, H2. split; congruence.
Qed.



(** Why the sweep is excluded: [a] was created at 5 and is confirmed by
    [w1]; a sweep at 1806 resets it before the report arrives, the report
    is answered 403, and [a] is pending again although [process_task]
    returned true. *)
Example stale_sweep_undoes_confirmation :
  let r := process_task default_config 10 "w1" "http://10.0.0.1:8081"
             (mkTaskView "a" "a.jpg" "a.lua" 5 false None 10) env_smooth in
  let out := run (among [Cleanup 1806] [] []
                        (omap (deliver "results" 1807 (IOSaved 1808 100)) r.2))
                 st_reading in
  r.1 = true /\
  out.1 !! 2%nat =
    Some (ReplyMessage (HTTPException 403 "Task does not belong to this client")) /\
  status <$> PyDict.get "a" (tasks out.2) = Some PENDING /\
  PyDict.get "a" (completed_tasks out.2) = None.
Proof. vm_compute. done. Qed.

(** ** Reporting a result *)

(** C3: once [report_result] has answered 200 for a task, the task is no
    longer among the active tasks and is in the archive, COMPLETED when
    [success] is true and FAILED otherwise, with the five entries of
    [result] filled in from the report and the clock.  The four statements
    of the handler run as one block: statement by statement the task is for
    a moment in both dictionaries, but the only store another coroutine can
    find is the final one.  From then on, whatever is served, the task is
    in the archive and not among the active tasks, with the reported
    status, as long as its id is not submitted again. *)
Theorem report_result_archives r now st reply st' :
  PyDict.wf (tasks st) ->
  report_result r now st = (Ok200 reply, st') ->
  PyDict.contains (r_task_id r) (tasks st') = false /\
  PyDict.contains (r_task_id r) (completed_tasks st') = true /\
  (exists task,
     PyDict.get (r_task_id r) (tasks st) = Some task /\
     PyDict.get (r_task_id r) (completed_tasks st') =
       Some (mkTask (task_id task) (photo_path task) (xmp_path task)
               (created_at task)
               (if r_success r then COMPLETED else FAILED)
               (client_id task) (read_at task) (read_timeout task)
               (Some [ ("success", VBool (r_success r));
                       ("elapsed_time", VFloat (r_elapsed_time r));
                       ("error", match r_error r with
                                 | Some e => VStr e
                                 | None => VNone
                                 end);
                       ("result_data", match r_result_data r with
                                       | Some d => VDict d
                                       | None => VNone
                                       end);
                       ("completed_at", VFloat now) ])
               (file_package_path task) (requires_download task))) /\
  visible_states r now report_result_blocks st = [st'] /\
  (exists both,
     both ∈ states_after r now (concat report_result_blocks) st /\
     PyDict.contains (r_task_id r) (tasks both) = true /\
     PyDict.contains (r_task_id r) (completed_tasks both) = true) /\
  (forall rest,
     Forall (not_resubmit (r_task_id r)) rest ->
     PyDict.contains (r_task_id r) (tasks (run rest st').2) = false /\
     PyDict.contains (r_task_id r) (completed_tasks (run rest st').2) = true /\
     status <$> PyDict.get (r_task_id r) (completed_tasks (run rest st').2) =
       Some (if r_success r then COMPLETED else FAILED)).
Proof.
  intros Hwf Hrun. unfold report_result in Hrun.
  destruct (PyDict.get (r_task_id r) (tasks st)) as [task|] eqn:Hg; [|done].
  destruct (owned_by task (r_client_id r)) eqn:Ho; [|done].
  simpl in Hrun. injection Hrun as <- <-.
  set (tid := r_task_id r) in *.
  set (st' := mkStore _ _ _).
  assert (Hgone : PyDict.get tid (tasks st') = None).
  { subst st'. cbn [tasks]. apply get_del. by apply wf_modify. }
  assert (Harch : PyDict.get tid (completed_tasks st') = Some (finish_task r now task)).
  { subst st'. cbn [completed_tasks]. apply get_set. }
  split; [by unfold PyDict.contains; rewrite Hgone|].
  split; [by unfold PyDict.contains; rewrite Harch|].
  split; [by exists task|].
  (* the statements one by one *)
  set (s1 := report_op r now OpStatus st).
  set (s2 := report_op r now OpResult s1).
  set (s3 := report_op r now OpArchive s2).
  assert (Hg2 : PyDict.get tid (tasks s2) = Some (finish_task r now task)).
  { subst s2 s1. cbn [report_op set_tasks tasks]. fold tid.
    by rewrite !get_modify, Hg. }
  assert (Hs3 : s3 = set_completed
                       (PyDict.set tid (finish_task r now task) (completed_tasks s2)) s2).
  { subst s3. cbn [report_op]. fold tid. by rewrite Hg2. }
  split; [|split].
  - cbn [visible_states report_result_blocks fold_left].
    fold s1. fold s2. fold s3. f_equal.
    rewrite Hs3. subst s2 s1 st'. cbn [report_op set_tasks set_completed tasks
                                         clients completed_tasks]. fold tid.
    by rewrite !del_modify.
  - exists s3. split.
    + cbn [concat report_result_blocks app states_after]. fold s1. fold s2. fold s3.
      do 2 right. left.
    + rewrite Hs3. cbn [set_completed tasks completed_tasks].
      unfold PyDict.contains. by rewrite Hg2, get_set.
  - intros rest Hrest.
    destruct (archived_stays rest st' tid (finish_task r now task))
      as (Hnone & t' & Hsome & Hst & _); [|done..|].
    { subst st'. cbn [tasks]. by apply wf_del, wf_modify. }
    unfold PyDict.contains. rewrite Hnone, Hsome. simpl. by rewrite Hst.
Qed.

Lemma report_result_archives_witness :
  let st' := (report_result (report_failed "a" "w1") 9 st_busy).2 in
  PyDict.contains "a" (tasks st') = false /\
  PyDict.contains "a" (completed_tasks st') = true.
Proof.
  pose proof (report_result_archives (report_failed "a" "w1") 9 st_busy "a"
                (report_result (report_failed "a" "w1") 9 st_busy).2) as H.
  simpl. destruct H as (H1 & H2 & _).
  - repeat constructor; apply not_elem_of_nil.
  - reflexivity.
  - split; [exact H1 | exact H2].
Defined.

(** Why the report must arrive: [report_result] of the worker swallows a
    failed request, and a task whose report is lost stays PROCESSING under
    the worker's name, whatever [process_task] returned, until a late sweep
    resets it. *)
Example lost_report_leaves_processing :
  let st' := (run [ StartProcessing "a" "w1"; GetTask "w2" 7 7; Cleanup 8 ]
                  st_reading).2 in
  (fun t => (status t, client_id t)) <$> PyDict.get "a" (tasks st') =
    Some (PROCESSING, Some "w1") /\
  PyDict.get "a" (completed_tasks st') = None.
Proof. vm_compute. done. Qed.
